(* ===== verification/_CoqProject ===== *)
-Q . S2P
Prelude.v
JsString.v
JsReplace.v
JsObject.v
JsNumber.v
JsDate.v
JsNumberString.v
Rounding.v
JsNumberTotal.v
JsNumberShortest.v
Catalog.v
Validator.v
FormSession.v
AppStore.v
System.v
FormSpec.v
Scenarios.v
ShellSpec.v
Interleavings.v
View.v
Typing.v
Liveness.v
