(* ===== verification/Prelude.v ===== *)
(** * DynamicForms: a verification development of the schema-driven form engine

    The repository is a React application of three components:
    - [src/src/components/DynamicForm.jsx]: the form engine.  It holds the
      field catalog [apiResponses], the validator [validateField], and the
      component state [fields], [formData], [errors], [formType],
      [progress] with the handlers [handleDropdownChange], [handleChange],
      [handleSubmit] and the [useEffect] that loads a record for editing.
    - [src/src/App.jsx]: the host.  It owns the record store
      [submittedData] and the edit context [editData], and passes
      [handleFormSubmit], [handleEdit], [handleDelete] down as callbacks.
    - [src/src/components/DataTable.jsx]: renders the store and turns the
      Edit / Delete buttons (the latter behind [window.confirm]) into calls
      of [onEdit] / [onDelete].

    The components interact through callbacks: the form calls the host's
    [onSubmit] from inside [handleSubmit]; the table calls [onEdit] /
    [onDelete]; the host feeds [editData] back into the form, whose effect
    copies it into the form state.  Every handler runs to completion on one
    UI event; React batches the state updates of one event and runs the
    effect after the commit.

    ** Files (in dependency order)
    - [Prelude]: this header, the [js_scope] notations, the [js] and [jsrw]
      hint databases, the tactics [case_if], [invc], [zdivmod], [bool_lia],
      and the list lemmas on [filter] and [forallb] the components share.
    - [JsString]: JavaScript strings as lists of code units (Latin-1
      [ascii]), the whitespace set of [String.prototype.trim] restricted to
      one-byte code units (tab, LF, VT, FF, CR, space, NBSP), truthiness of
      [undefined]-or-string ([truthy_opt]), and a backtracking matcher
      [rmatch] with the search loop of [RegExp.prototype.test] for the
      regular expressions of the code ([/^\d{n}$/]); the matcher is
      generic in its result type, so one definition serves [test] and the
      match positions of [replace].
    - [JsReplace]: [String.prototype.replace] with a regex, with the [g]
      flag ([replace_global], the loop of [RegExp.prototype[@@replace]])
      and without ([replace_first]), and [toUpperCase] on Latin-1 code
      units ([None] for the two whose upper case leaves Latin-1).
    - [JsObject]: plain objects as association lists in property order:
      [obj_get] ([o[k]]), [obj_set] ([{ ...o, [k]: v }]), [obj_keys]
      ([Object.keys]), [obj_entries] ([Object.entries], array-index keys
      first, ascending).
    - [JsNumber]: Numbers as [JNaN | JInf | JFin q] with [q] an exact
      rational, [round_binary64] (round half to even, subnormals, overflow
      to infinity) applied after every operation; [string_to_number] is
      [StringToNumber] (trimming, decimal, exponent, [Infinity], [0x]/[0o]/
      [0b] literals); [js_lt]/[js_gt] are [IsLessThan] with its [undefined]
      result for NaN; [js_div], [js_mul] are [/] and [*].
    - [JsDate]: [new Date(s)] for the date-only ISO forms ([YYYY],
      [YYYY-MM], [YYYY-MM-DD], and the six-digit signed years), built from
      [MakeDay], [MakeDate] and [TimeClip]; every other string goes to the
      engine-defined parser, a field of the class [DateEngine], so the
      theorems hold for every engine.  A time value is [option Z] ([None]
      is an Invalid Date, NaN).
    - [JsNumberString]: [Number::toString] (ECMA-262 6.1.6.1.20): the
      least digit count [k] in 1..17 whose nearest [k]-digit candidate
      rounds back to the Number (ties to even), then the integer,
      fraction, [0.000ddd] and exponential layouts.
    - [Rounding]: the error of [round_binary64]: within the relative unit
      roundoff [u = 2^-53] on the normal range, and within
      [(1 + u)^2 - 1] for the two roundings of [(a / r) * 100] (used by
      [FormSpec] to relate the code's progress to the spec's).
    - [JsNumberTotal]: totality of [Number::toString]: a positive double
      is [M * 2^E] in canonical form, every rational within the relative
      distance [10^-16 / 2] of it rounds back to it, and the nearer
      seventeen-digit candidate is that close, so [digits_search] never
      gives up on a Number.
    - [JsNumberShortest]: [digits_search] is step 5 of ECMA-262: rounding
      is monotone, so the rationals that round to a double form an
      interval, and the two candidates [digits_for k] tries find a
      [k]-digit decimal that rounds back whenever any does, a closest
      one, and the even one on a tie.  These two files are lemmas of the
      runtime model, not claims about the program: they check that the
      model of [toString], which the page uses to print the progress
      width, is the one ECMA-262 specifies.
    - [Catalog]: [field_desc] (the descriptor objects), [apiResponses]
      (DynamicForm.jsx lines 40-58) and its lookup.
    - [Validator]: [validateField] (lines 8-31), rule by rule.
    - [FormSession]: the five [useState] hooks of [DynamicForm] as the
      record [form_state]; [handleDropdownChange], [handleChange],
      [handleSubmit] and the [useEffect] on [editData] ([load_edit]), each
      returning [Ok (new state, effects)] or [Crash] (a TypeError on
      [undefined] fields).  The effects are the toasts and the [onSubmit]
      call in program order.
    - [AppStore]: [App]'s [submittedData] and [editData], its three
      callbacks, the [DataTable] click handlers, and the spec's record store
      ([append], [replaceAt], [removeAt] with [IndexOutOfRange]).
    - [System]: the application as a step relation on UI events (menu
      selection, typing, submit, Edit, Delete with its confirm answer),
      offered only when the rendered UI shows the control ([enabled]);
      reachable states as [rtc step sys_init].
    - [FormSpec]: the spec's Form Session (spec.md 4.3) as executable
      definitions from the spec's words (modes [Idle] / [Editing t],
      [selectType], [loadForEdit], [changeField], [submit] with the
      errors [UnknownFormType], [EmptySubmission], [ValidationFailed]) and
      the relation [refines] between a code state and a session.
    - [Scenarios]: concrete runs of events, evaluated by [vm_compute]: the
      spec's create scenario and the states the witnesses use.
    - [ShellSpec]: the spec's Application Shell (spec.md 2, 3, 4.3, 4.4,
      7) as a deterministic step [shell_step] on the same UI events: the
      session of [FormSpec], the Record Store and the EditContext, with a
      submit's result applied as [append] or [replaceAt] and a delete as
      [removeAt]; [shell_refines] relates a state of [System] to it.
    - [Interleavings]: the event sequences where the composed handlers
      depart from what a user expects, stated for every state.
    - [View]: the markup of [DynamicForm] (lines 116-187), [DataTable]
      (lines 18-63) and [App] (lines 32-52) as a virtual DOM [vnode] whose
      elements carry the data props and the handler they are wired to
      ([control]); [render_app] fails where the JavaScript throws.
      [offers] reads off the events a rendered tree fires.
    - [Typing]: a second invariant of reachable states ([sys_typed]): the
      progress is one of the values a catalog schema produces, and every
      value held for a field is one its control produces.
    - [Liveness]: a run of events that stores a record from any state.

    ** What the theorems show
    - Reachable states (System): every stored record has a catalog type,
      only that schema's keys and fields valid at its submission clock
      ([reachable_records_ok]); no offered event makes a handler throw
      ([reachable_no_crash]).
    - The page and the step relation (View): whenever the page renders,
      the events its controls fire are exactly those [enabled] allows
      ([render_offers_enabled]), so [System] steps on the events the
      rendered page offers; every reachable state renders (Typing,
      [reachable_renders]); the table shows every stored value, the CVV
      included; its labels are the regex-free [capitalize (space_upper
      key)]; after a submit the
      menu still shows the old type over an empty form.
    - Types (Typing): every stored dropdown value is one of its options;
      the progress bar's width prints as one of seven strings.
    - Form Session refinement (FormSpec): [handleDropdownChange] and the
      [editData] effect implement [selectType] and [loadForEdit] (an
      unknown type, the spec's [UnknownFormType], leaves [fields]
      undefined so that the next handler throws); [handleChange]
      implements [changeField]; [handleSubmit] implements [submit], its
      effects being exactly the notifications of the spec's result.  The
      progress is related to the spec's exact percentage by the error
      bound of [Rounding].
    - Whole-application refinement (ShellSpec): after every sequence of
      events the page accepts, the spec's shell run on the same sequence
      is defined and the code shows its store, its edit context and its
      session ([run_events_refines]), by a lock-step simulation
      ([shell_step_sim]) in the manner of a forward simulation diagram.
    - Liveness: from every state, choosing [userInfo], typing three valid
      values and submitting, twice, stores the record and clears any
      pending edit.
    - JS runtime model (JsNumberTotal, JsNumberShortest, JsReplace),
      lemmas that validate the model rather than claims on the program:
      [Number::toString] is total on every Number, round-trips through
      [StringToNumber], and prints the least number of significant
      digits that rounds back, a closest such decimal and the even one on
      a tie; the global replace loop terminates within [length + 1]
      rounds.
    - Form session: the submit reaches [onSubmit] exactly when the form is
      not blank and every field validates; a missing required field yields
      its message; progress is exactly 100 when all required fields are
      filled, below 100 when one is blank, within [0, 100] on the catalog
      (every catalog schema has a required field, so the [0 / 0] of a
      schema without one is never computed).
    - Record store (AppStore): the create path refines [append]; the edit
      path and [handleDelete] refine [replaceAt] and [removeAt] in range
      and are silent no-ops out of range; deleting a row at or before the
      edited one makes the save overwrite a different row.
    - Validator: the digit rules are exactly the digit-count checks (via
      the equivalence of the regex search with [digits_exactly]); [age] on
      decimal strings is the range [1, 120], NaN passes, and on every
      string it passes exactly when [Number(value)] is NaN or in
      [1, 120] (exponent, hexadecimal and padded forms included); [expiryDate] on [YYYY-MM-DD] is "after the clock", an
      Invalid Date passes, a rejection persists as the clock advances.
    - Interleavings, for every state: a save with a dangling edit context
      (its row deleted) changes nothing yet reports success; Edit keeps
      the replaced form's errors and progress; a whitespace value passes
      the required check but counts as blank; a type change during an
      edit makes the save replace the row by a record of the new type.

    ** Bounds and fuel
    Two definitions run on fuel.  [JsReplace.replace_global] consumes one
    unit per round and each round consumes a code unit or more, so
    [length s + 1] rounds are enough ([replace_global_fuel]: more fuel
    gives the same result); [js_replace_all] passes exactly that.
    [JsNumberString.digits_search] tries [k = 1 .. 17], the bound of
    ECMA-262 for binary64; [JsNumberTotal] proves that bound enough for
    every Number (seventeen digits always give a candidate that rounds
    back, since [10^16 > 2^53]).  Every other recursion is structural
    (the regex matcher recurses on the regex and, for [RRep n], on [n];
    the search loop on the input).  Integers are exact in [Z] and rationals in [Q];
    the binary64 rounding is applied where JS rounds, so results such as
    [2/3 * 100] are the doubles the browser computes.  Integer statements
    assume values below [2^53] (exact in binary64), years 0000-9999 (within
    the [TimeClip] range of 8.64e15 ms), and clock readings within that
    range.

    ** Not modelled
    Of the JSX, class names, inline styles, the background images and
    React keys (presentation only, no data or behaviour); the
    [active] render prop of the menu items (a hover style).  [Header],
    [Footer] and the images are imported but not in the repository.  The
    toast library is modelled only as the logged (kind, message) pairs and
    [window.confirm] only as its boolean answer; the spec puts both
    outside the engine.  Strings are lists of one-byte code units: user
    input beyond Latin-1, and the whitespace of [trim] beyond it, is not
    modelled (the keys, labels and messages of the code are ASCII), since
    UTF-16 strings would change every file for no claim of the spec.
    [new Date(s)] on strings other than the date-only ISO forms (which an
    [<input type="date">] produces) is left to the engine's [DateEngine].
    A handler that throws is modelled as a refused step ([Crash]);
    [reachable_no_crash] shows that no reachable state reaches one. *)

From stdpp Require Export base list strings decidable relations options.
From Stdlib Require Export ZArith Lia.

Declare Scope js_scope.
Delimit Scope js_scope with js.

(** The hint databases of the development: [js] for the closing lemmas of
    the JS runtime model, [jsrw] for its rewriting equations. *)
Create HintDb js discriminated.
Create Rewrite HintDb jsrw.

(** ** Tactics *)

(** Case on the condition of the first [if] of the goal, keeping the
    equation, and simplify. *)
Ltac case_if :=
  match goal with
  | |- context [if ?c then _ else _] =>
      let E := fresh "Eif" in destruct c eqn:E; simpl
  end.

(** Invert a hypothesis and clean up. *)
Ltac invc H := inversion H; subst; clear H.

(** Replace [x / k] and [x mod k] ([k] a positive constant) by fresh
    integers tied by the division equation and the remainder bounds, so
    that [lia] reasons on them linearly. *)
Ltac zdivmod x k :=
  pose proof (Z.div_mod x k ltac:(lia)) as ?;
  pose proof (Z.mod_pos_bound x k ltac:(lia));
  generalize dependent (x / k)%Z; generalize dependent (x mod k)%Z; intros.

(** Close an equation between boolean comparisons on [nat] by [lia]. *)
Ltac bool_lia :=
  apply Bool.eq_iff_eq_true;
  rewrite ?orb_true_iff, ?andb_true_iff, ?Nat.eqb_eq, ?Nat.leb_le, ?Nat.ltb_lt; lia.

(** ** Generic lemmas on lists and booleans *)

Lemma forallb_true_iff {A} (p : A -> bool) (l : list A) :
  forallb p l = true <-> (forall x, In x l -> p x = true).
Proof. apply forallb_forall. Qed.

Lemma forallb_ext {A} (p q : A -> bool) (l : list A) :
  (forall x, p x = q x) -> forallb p l = forallb q l.
Proof. intros Hpq. induction l as [|x l IH]; simpl; [done|]. by rewrite Hpq, IH. Qed.

Lemma existsb_false_iff {A} (p : A -> bool) (l : list A) :
  existsb p l = false <-> (forall x, In x l -> p x = false).
Proof.
  induction l as [|a l IH]; simpl; [naive_solver|].
  rewrite orb_false_iff, IH. naive_solver.
Qed.

Lemma filter_length_le {A} (p : A -> bool) (l : list A) :
  length (List.filter p l) <= length l.
Proof. induction l as [|a l IH]; simpl; [lia|]. destruct (p a); simpl; lia. Qed.

Lemma filter_length_eq {A} (p : A -> bool) (l : list A) :
  length (List.filter p l) = length l <-> forall x, In x l -> p x = true.
Proof.
  induction l as [|a l IH]; simpl; [naive_solver|].
  pose proof (filter_length_le p l) as Hle.
  destruct (p a) eqn:Ha; simpl; split.
  - intros Heq x [<-|Hx]; [done|]. apply IH; [lia|done].
  - intros Hall. f_equal. apply IH. naive_solver.
  - lia.
  - intros Hall. rewrite (Hall a) in Ha by auto. discriminate.
Qed.

Lemma filter_length_lt {A} (p : A -> bool) (l : list A) (x : A) :
  In x l -> p x = false -> length (List.filter p l) < length l.
Proof.
  intros Hx Hp. destruct (Nat.lt_ge_cases (length (List.filter p l)) (length l)) as [|Hge]; [done|].
  pose proof (filter_length_le p l).
  assert (Heq : length (List.filter p l) = length l) by lia.
  apply filter_length_eq with (x := x) in Heq; [congruence|done].
Qed.

#[export] Hint Resolve filter_length_le : js.
