(* ===== verification/JsString.v ===== *)
(** * JsString: the JavaScript string operations the form engine relies on

    A JS string is a sequence of UTF-16 code units; it is modelled as a Rocq
    [string], each [ascii] standing for one code unit in the range 0..255
    (the Latin-1 block of UTF-16).  Within that range this file gives:
    - [is_js_ws]: the WhiteSpace and LineTerminator code units (TAB, LF, VT,
      FF, CR, SPACE, NO-BREAK SPACE), the set [String.prototype.trim] and
      [StringToNumber] strip;
    - [js_trim]: [String.prototype.trim];
    - [truthy_opt]: truthiness of a value that is [undefined] ([None]) or a
      string ([Some s]), as in [!value] and [formData[f.name]?.trim()];
    - a backtracking regular-expression matcher [rmatch] for the constructs
      the code uses ([^], [$], [\d], [[A-Z]], [.], [{n}], groups) and
      [regex_test], the search loop of [RegExp.prototype.test] for a
      non-global regular expression. *)

From S2P Require Import Prelude.
From Stdlib Require Import Ascii String.

Open Scope string_scope.

(** ** Code units *)

Definition code (c : ascii) : nat := nat_of_ascii c.

(** WhiteSpace ∪ LineTerminator of ECMA-262 restricted to code units
    0..255: U+0009, U+000A, U+000B, U+000C, U+000D, U+0020, U+00A0. *)
Definition is_js_ws (c : ascii) : bool :=
  match code c with
  | 9 | 10 | 11 | 12 | 13 | 32 | 160 => true
  | _ => false
  end.

(** [\d]: the code units of '0'..'9'. *)
Definition is_ascii_digit (c : ascii) : bool :=
  (48 <=? code c)%nat && (code c <=? 57)%nat.

(** LineTerminator code units (excluded by [.] without the [s] flag). *)
Definition is_line_terminator (c : ascii) : bool :=
  match code c with 10 | 13 => true | _ => false end.

(** ** [String.prototype.trim] *)

Fixpoint trim_start (s : string) : string :=
  match s with
  | EmptyString => EmptyString
  | String c s' => if is_js_ws c then trim_start s' else s
  end.

Fixpoint trim_end (s : string) : string :=
  match s with
  | EmptyString => EmptyString
  | String c s' =>
      let t := trim_end s' in
      if String.eqb t EmptyString && is_js_ws c then EmptyString else String c t
  end.

Definition js_trim (s : string) : string := trim_end (trim_start s).

(** Truthiness of [undefined]-or-string: [undefined] and [""] are falsy. *)
Definition truthy_opt (v : option string) : bool :=
  match v with
  | None => false
  | Some s => negb (String.eqb s EmptyString)
  end.

(** [v?.trim()]: optional chaining on [undefined]. *)
Definition opt_trim (v : option string) : option string := js_trim <$> v.

(** A string all of whose code units are whitespace. *)
Fixpoint all_ws (s : string) : bool :=
  match s with
  | EmptyString => true
  | String c s' => is_js_ws c && all_ws s'
  end.

(** ** Regular expressions *)

Inductive regex : Type :=
  | RBol                       (** [^] (no [m] flag: start of input) *)
  | REol                       (** [$] (no [m] flag: end of input) *)
  | RDigit                     (** [\d] *)
  | RRange (lo hi : ascii)     (** [[lo-hi]] *)
  | RAny                       (** [.] (no [s] flag) *)
  | RSeq (r1 r2 : regex)       (** concatenation *)
  | RRep (n : nat) (r : regex) (** [r{n}] *)
  | RGroup (r : regex).        (** capturing group [(r)] *)

(** [rmatch fail r pos s k]: match [r] at position [pos] against the rest
    [s] of the input, then run the continuation [k] on the new position and
    rest; [fail] is the result of a failed match.  None of the constructs
    is a choice point (there is no alternation and no variable repetition),
    so the first match is the only one: [bool] answers [test], and an
    [option] of the end position locates the match for [replace]. *)
Fixpoint rmatch {R : Type} (fail : R) (r : regex) (pos : nat) (s : list ascii)
         (k : nat -> list ascii -> R) : R :=
  match r with
  | RBol => if (pos =? 0)%nat then k pos s else fail
  | REol => match s with [] => k pos s | _ => fail end
  | RDigit =>
      match s with
      | c :: s' => if is_ascii_digit c then k (S pos) s' else fail
      | [] => fail
      end
  | RRange lo hi =>
      match s with
      | c :: s' =>
          if (code lo <=? code c)%nat && (code c <=? code hi)%nat
          then k (S pos) s' else fail
      | [] => fail
      end
  | RAny =>
      match s with
      | c :: s' => if is_line_terminator c then fail else k (S pos) s'
      | [] => fail
      end
  | RSeq r1 r2 => rmatch fail r1 pos s (fun p s' => rmatch fail r2 p s' k)
  | RRep n r1 =>
      (fix rep (n : nat) (p : nat) (s : list ascii) : R :=
         match n with
         | O => k p s
         | S n' => rmatch fail r1 p s (fun p' s' => rep n' p' s')
         end) n pos s
  | RGroup r1 => rmatch fail r1 pos s k
  end.

(** The loop of [RegExpBuiltinExec] for a non-global, non-sticky regular
    expression: try every start index from 0 to the length of the input. *)
Fixpoint search (r : regex) (pos : nat) (s : list ascii) : bool :=
  rmatch false r pos s (fun _ _ => true) ||
  match s with
  | [] => false
  | _ :: s' => search r (S pos) s'
  end.

Definition regex_test (r : regex) (str : string) : bool :=
  search r 0 (list_ascii_of_string str).

(** [/^\d{n}$/]. *)
Definition re_digits (n : nat) : regex := RSeq RBol (RSeq (RRep n RDigit) REol).

(** The direct check: exactly [n] code units, all decimal digits. *)
Definition digits_exactly (n : nat) (s : string) : bool :=
  (String.length s =? n)%nat && forallb is_ascii_digit (list_ascii_of_string s).

(** ** Lemmas *)

Lemma length_list_ascii_of_string (s : string) :
  List.length (list_ascii_of_string s) = String.length s.
Proof. induction s; simpl; auto. Qed.

(** [\d{n}] consumes the first [n] code units when they are all digits. *)
Lemma rmatch_rep_digit {R} (fail : R) (n pos : nat) (s : list ascii) k :
  rmatch fail (RRep n RDigit) pos s k =
  if (n <=? List.length s)%nat && forallb is_ascii_digit (take n s)
  then k (pos + n)%nat (drop n s) else fail.
Proof.
  revert pos s. induction n as [|n IH]; intros pos s; simpl.
  - rewrite Nat.add_0_r. by rewrite drop_0.
  - destruct s as [|c s]; simpl; [done|].
    destruct (is_ascii_digit c) eqn:Hc; simpl.
    + specialize (IH (S pos) s). simpl in IH. rewrite IH.
      by replace (S (pos + n))%nat with (pos + S n)%nat by lia.
    + by rewrite andb_false_r.
Qed.

(** A pattern anchored by [^] fails at every position but 0. *)
Lemma search_bol_succ (r : regex) (p : nat) (s : list ascii) :
  search (RSeq RBol r) (S p) s = false.
Proof.
  revert p. induction s as [|c s IH]; intros p; simpl; [done|]. apply IH.
Qed.

Lemma trim_start_all_ws (s : string) : all_ws (trim_start s) = all_ws s.
Proof.
  induction s as [|c s IH]; simpl; [done|].
  destruct (is_js_ws c) eqn:Hc; simpl; [done|]. by rewrite Hc.
Qed.

Lemma trim_end_empty_iff (s : string) : trim_end s = EmptyString <-> all_ws s = true.
Proof.
  induction s as [|c s IH]; simpl; [done|].
  destruct (String.eqb_spec (trim_end s) EmptyString) as [He|He];
    destruct (is_js_ws c); simpl; split; intros H; try done;
    try (by apply IH); try (by destruct He; apply IH).
Qed.

(** [s.trim()] is empty exactly when [s] is all whitespace. *)
Lemma js_trim_empty_iff (s : string) : js_trim s = EmptyString <-> all_ws s = true.
Proof. unfold js_trim. by rewrite trim_end_empty_iff, trim_start_all_ws. Qed.

(** [!v?.trim()] is false exactly when [v] is a string with a
    non-whitespace code unit. *)
Lemma truthy_opt_trim (v : option string) :
  truthy_opt (opt_trim v) = true <-> exists s, v = Some s /\ all_ws s = false.
Proof.
  destruct v as [s|]; simpl; [|naive_solver].
  destruct (String.eqb_spec (js_trim s) EmptyString) as [He|He]; simpl.
  - apply js_trim_empty_iff in He. naive_solver.
  - split; [|done]. intros _. exists s. split; [done|].
    destruct (all_ws s) eqn:Hw; [|done]. by apply js_trim_empty_iff in Hw.
Qed.

(** A whitespace-only string is truthy ([!value] is false) although its
    trimmed form is empty. *)
Lemma all_ws_truthy (s : string) :
  s <> EmptyString -> truthy_opt (Some s) = true.
Proof. intros Hs. simpl. by destruct (String.eqb_spec s EmptyString). Qed.

(** At position 0 the anchor [^] is passed and the search stops there. *)
Lemma search_bol_0 (r : regex) (s : list ascii) :
  search (RSeq RBol r) 0 s = rmatch false r 0 s (fun _ _ => true).
Proof.
  destruct s as [|c s]; cbn [search]; [by rewrite orb_false_r|].
  rewrite search_bol_succ, orb_false_r. reflexivity.
Qed.

(** The search loop on [/^\d{n}$/] over a list of code units. *)
Lemma search_re_digits (n : nat) (l : list ascii) :
  search (re_digits n) 0 l = (List.length l =? n)%nat && forallb is_ascii_digit l.
Proof.
  unfold re_digits. rewrite search_bol_0.
  change (rmatch false (RSeq (RRep n RDigit) REol) 0 l (fun _ _ => true))
    with (rmatch false (RRep n RDigit) 0 l (fun p s' => rmatch false REol p s' (fun _ _ => true))).
  rewrite rmatch_rep_digit.
  destruct (Nat.leb_spec n (List.length l)) as [Hn|Hn]; simpl.
  - destruct (decide (List.length l = n)) as [Heq|Hne].
    + rewrite Heq, Nat.eqb_refl, take_ge, drop_ge by lia. simpl.
      by destruct (forallb is_ascii_digit l).
    + apply Nat.eqb_neq in Hne. rewrite Hne.
      destruct (forallb is_ascii_digit (take n l)); [|done].
      destruct (drop n l) eqn:Hd; [|done].
      apply (f_equal List.length) in Hd. rewrite length_drop in Hd. simpl in Hd.
      apply Nat.eqb_neq in Hne. lia.
  - destruct (Nat.eqb_spec (List.length l) n); [lia|done].
Qed.

(** [/^\d{n}$/.test(s)] holds exactly when [s] is [n] decimal digits. *)
Theorem regex_test_digits (n : nat) (s : string) :
  regex_test (re_digits n) s = digits_exactly n s.
Proof.
  unfold regex_test, digits_exactly. rewrite <- length_list_ascii_of_string.
  apply search_re_digits.
Qed.

Lemma trim_end_no_ws (s : string) :
  forallb (fun c => negb (is_js_ws c)) (list_ascii_of_string s) = true -> trim_end s = s.
Proof.
  induction s as [|c s IH]; simpl; [done|].
  intros H. apply andb_prop in H as [Hc Hs]. rewrite (IH Hs).
  by destruct (is_js_ws c); [|rewrite andb_false_r].
Qed.

(** A string without whitespace is its own trim. *)
Lemma js_trim_no_ws (s : string) :
  forallb (fun c => negb (is_js_ws c)) (list_ascii_of_string s) = true -> js_trim s = s.
Proof.
  intros H. unfold js_trim. apply trim_end_no_ws in H as He.
  destruct s as [|c s]; [done|]. simpl in H.
  apply andb_prop in H as [Hc _].
  destruct (is_js_ws c) eqn:E; [discriminate|].
  cbn [trim_start]. by rewrite E.
Qed.

Lemma digit_not_ws (c : ascii) : is_ascii_digit c = true -> is_js_ws c = false.
Proof.
  unfold is_ascii_digit, is_js_ws. intros H.
  apply andb_prop in H as [H1 H2]. apply Nat.leb_le in H1, H2.
  remember (code c) as n eqn:En. clear En.
  assert (n = 48 \/ n = 49 \/ n = 50 \/ n = 51 \/ n = 52 \/ n = 53 \/ n = 54 \/
          n = 55 \/ n = 56 \/ n = 57)%nat as Hn by lia.
  destruct_or! Hn; subst; reflexivity.
Qed.

#[export] Hint Rewrite @rmatch_rep_digit search_bol_succ search_bol_0 : jsrw.
#[export] Hint Resolve all_ws_truthy : js.
