(* ===== verification/JsReplace.v ===== *)
(** * JsReplace: [String.prototype.replace] and [toUpperCase]

    The table and the menu format their labels with regular-expression
    replacement (DataTable.jsx line 40, DynamicForm.jsx line 141):
    [key.replace(/([A-Z])/g, " $1")] puts a space before every capital
    letter, and [.replace(/^./, (str) => str.toUpperCase())] upper-cases the
    first code unit.  This file models, over the matcher [rmatch] of
    [JsString]:
    - [find_match]: the scan of [RegExpBuiltinExec] from [lastIndex] to the
      first position where the pattern matches;
    - [replace_global]: [RegExp.prototype[@@replace]] with the [g] flag, the
      loop that collects every match (advancing [lastIndex] by one after an
      empty match) and splices the replacements; it runs on fuel, and
      [replace_global_fuel] shows that [length s + 1] rounds are enough;
    - [replace_first]: the same without [g] (one match);
    - [js_to_upper]: [String.prototype.toUpperCase] on Latin-1 code units,
      [None] where the result leaves Latin-1 ([µ] and [ÿ] map to U+039C and
      U+0178); [ß] becomes ["SS"]. *)

From S2P Require Import Prelude JsString.
From Stdlib Require Import Ascii String.
Open Scope string_scope.

(** The end of a match of [r] at [pos]: the new position and the rest. *)
Definition match_at (r : regex) (pos : nat) (s : list ascii) : option (nat * list ascii) :=
  rmatch None r pos s (fun p s' => Some (p, s')).

(** The first match at or after [pos]: the code units skipped, the match,
    the position after it and the rest of the input. *)
Fixpoint find_match (r : regex) (pos : nat) (s : list ascii)
  : option (list ascii * list ascii * nat * list ascii) :=
  match match_at r pos s with
  | Some (p, s') => Some ([], take (p - pos) s, p, s')
  | None =>
      match s with
      | [] => None
      | c :: t =>
          match find_match r (S pos) t with
          | Some (pre, m, p, s') => Some (c :: pre, m, p, s')
          | None => None
          end
      end
  end.

(** Global replacement: every match [m] becomes [repl m]; after an empty
    match the next code unit is copied and the search resumes after it. *)
Fixpoint replace_global (fuel : nat) (r : regex) (repl : list ascii -> list ascii)
    (pos : nat) (s : list ascii) : list ascii :=
  match fuel with
  | O => s
  | S fuel' =>
      match find_match r pos s with
      | None => s
      | Some (pre, m, p, s') =>
          match m with
          | [] =>
              pre ++ repl [] ++
              match s' with
              | [] => []
              | c :: t => c :: replace_global fuel' r repl (S p) t
              end
          | _ :: _ => pre ++ repl m ++ replace_global fuel' r repl p s'
          end
      end
  end%list.

Definition js_replace_all (r : regex) (repl : list ascii -> list ascii) (str : string) : string :=
  let l := list_ascii_of_string str in
  string_of_list_ascii (replace_global (S (List.length l)) r repl 0 l).

(** Replacement without the [g] flag: the first match only. *)
Definition replace_first (r : regex) (repl : list ascii -> option (list ascii))
    (l : list ascii) : option (list ascii) :=
  match find_match r 0 l with
  | None => Some l
  | Some (pre, m, _, s') => (fun u => pre ++ u ++ s')%list <$> repl m
  end.

(** [String.prototype.toUpperCase] of one Latin-1 code unit. *)
Definition js_to_upper_unit (c : ascii) : option (list ascii) :=
  let n := code c in
  if (97 <=? n)%nat && (n <=? 122)%nat then Some [ascii_of_nat (n - 32)]
  else if (n =? 181)%nat || (n =? 255)%nat then None
  else if (n =? 223)%nat then Some ["S"%char; "S"%char]
  else if (224 <=? n)%nat && (n <=? 254)%nat && negb (n =? 247)%nat
  then Some [ascii_of_nat (n - 32)]
  else Some [c].

Definition js_to_upper (l : list ascii) : option (list ascii) :=
  (@List.concat ascii) <$> mapM js_to_upper_unit l.

(** [/([A-Z])/] and [/^./]. *)
Definition re_upper : regex := RGroup (RRange "A"%char "Z"%char).
Definition re_first : regex := RSeq RBol RAny.

(** A capital letter A..Z. *)
Definition is_upper (c : ascii) : bool := (65 <=? code c)%nat && (code c <=? 90)%nat.

(** The reference: a space before every capital letter. *)
Fixpoint space_upper (l : list ascii) : list ascii :=
  match l with
  | [] => []
  | c :: t => if is_upper c then " "%char :: c :: space_upper t else c :: space_upper t
  end.

(** ** Lemmas *)

(** A match consumes a prefix of the input: [rmatch] fails or calls its
    continuation once, on the position and rest after [n] code units. *)
Lemma rmatch_shape {R} (fail : R) (r : regex) :
  forall pos s k, rmatch fail r pos s k = fail \/
    exists n, (n <= List.length s)%nat /\ rmatch fail r pos s k = k (pos + n)%nat (drop n s).
Proof.
  induction r as [| | |lo hi| |r1 IH1 r2 IH2|n r IH|r IH]; intros pos s k; simpl.
  - destruct (Nat.eqb pos 0); [right; exists 0%nat; rewrite Nat.add_0_r; split; [lia|done]|by left].
  - destruct s; [right; exists 0%nat; rewrite Nat.add_0_r; split; [lia|done]|by left].
  - destruct s as [|c s]; [by left|]. destruct (is_ascii_digit c); [|by left].
    right. exists 1%nat. simpl. rewrite Nat.add_1_r. split; [lia|done].
  - destruct s as [|c s]; [by left|]. case_match; [|by left].
    right. exists 1%nat. simpl. rewrite Nat.add_1_r. split; [lia|done].
  - destruct s as [|c s]; [by left|]. case_match; [by left|].
    right. exists 1%nat. simpl. rewrite Nat.add_1_r. split; [lia|done].
  - destruct (IH1 pos s (fun p s' => rmatch fail r2 p s' k)) as [->|(n1 & Hn1 & ->)]; [by left|].
    destruct (IH2 (pos + n1)%nat (drop n1 s) k) as [->|(n2 & Hn2 & ->)]; [by left|].
    right. exists (n1 + n2)%nat. rewrite length_drop in Hn2. rewrite drop_drop, Nat.add_assoc.
    split; [lia|done].
  - revert pos s. induction n as [|n IHn]; intros pos s.
    + right. exists 0%nat. rewrite Nat.add_0_r. split; [lia|done].
    + match goal with |- context [rmatch fail r pos s ?k1] =>
        destruct (IH pos s k1) as [Hf|(n1 & Hn1 & Hk)] end.
      { rewrite Hf. by left. }
      rewrite Hk. cbv beta.
      destruct (IHn (pos + n1)%nat (drop n1 s)) as [->|(n2 & Hn2 & ->)]; [by left|].
      right. exists (n1 + n2)%nat. rewrite length_drop in Hn2. rewrite drop_drop, Nat.add_assoc.
      split; [lia|done].
  - apply IH.
Qed.

Lemma match_at_shape (r : regex) (pos p : nat) (s s' : list ascii) :
  match_at r pos s = Some (p, s') ->
  exists n, (n <= List.length s)%nat /\ p = (pos + n)%nat /\ s' = drop n s.
Proof.
  unfold match_at. destruct (rmatch_shape None r pos s (fun p s' => Some (p, s')))
    as [->|(n & Hn & ->)]; [done|]. intros [= <- <-]. eauto.
Qed.

(** The pieces of a match cover the input. *)
Lemma find_match_split (r : regex) (pos : nat) (s pre m s' : list ascii) (p : nat) :
  find_match r pos s = Some (pre, m, p, s') -> s = (pre ++ m ++ s')%list.
Proof.
  revert pos pre. induction s as [|c t IH]; intros pos pre; simpl.
  - destruct (match_at r pos []) as [[p0 s0]|] eqn:Hm; [|done]. intros [= <- <- <- <-].
    apply match_at_shape in Hm as (n & Hn & -> & ->). simpl. by rewrite take_nil, drop_nil.
  - destruct (match_at r pos (c :: t)) as [[p0 s0]|] eqn:Hm.
    + intros [= <- <- <- <-]. apply match_at_shape in Hm as (n & Hn & -> & ->).
      replace (pos + n - pos)%nat with n by lia. simpl. by rewrite take_drop.
    + destruct (find_match r (S pos) t) as [[[[pre0 m0] p1] s1]|] eqn:Hf; [|done].
      intros [= <- <- <- <-]. simpl. f_equal. by eapply IH.
Qed.

Lemma find_match_length (r : regex) (pos : nat) (s pre m s' : list ascii) (p : nat) :
  find_match r pos s = Some (pre, m, p, s') ->
  (List.length pre + List.length m + List.length s')%nat = List.length s.
Proof. intros Hf. apply find_match_split in Hf as ->. rewrite !length_app. lia. Qed.

(** A code unit where no match starts is copied through, with the same
    fuel. *)
Lemma replace_global_skip (fuel : nat) (r : regex) repl (pos : nat) (c : ascii) (t : list ascii) :
  match_at r pos (c :: t) = None ->
  replace_global (S fuel) r repl pos (c :: t) = c :: replace_global (S fuel) r repl (S pos) t.
Proof.
  intros Hm. cbn [replace_global find_match]. rewrite Hm.
  destruct (find_match r (S pos) t) as [[[[pre m] p] s']|]; [|done].
  by destruct m.
Qed.

(** The global replacement loop terminates within [length s + 1]
    rounds: any larger fuel gives the same result, so [js_replace_all]
    computes what the unbounded loop of [RegExp.prototype[@@replace]]
    computes. *)
Theorem replace_global_fuel (r : regex) (repl : list ascii -> list ascii) :
  forall fuel pos s, (List.length s < fuel)%nat ->
  replace_global fuel r repl pos s = replace_global (S (List.length s)) r repl pos s.
Proof.
  assert (Hgen : forall f1 f2 pos s, (List.length s < f1)%nat -> (List.length s < f2)%nat ->
            replace_global f1 r repl pos s = replace_global f2 r repl pos s).
  { induction f1 as [|f1 IH]; intros [|f2] pos s H1 H2; try lia. cbn [replace_global].
    destruct (find_match r pos s) as [[[[pre m] p] s']|] eqn:Hf; [|done].
    apply find_match_length in Hf.
    destruct m as [|c m]; simpl in Hf.
    - destruct s' as [|c t]; [done|]. simpl in Hf. rewrite (IH f2); [done|lia|lia].
    - rewrite (IH f2); [done|lia|lia]. }
  intros fuel pos s Hs. apply Hgen; lia.
Qed.

Lemma match_at_upper (pos : nat) (c : ascii) (t : list ascii) :
  match_at re_upper pos (c :: t) = if is_upper c then Some (S pos, t) else None.
Proof. unfold match_at, re_upper, is_upper. simpl. by destruct (_ && _). Qed.

(** [key.replace(/([A-Z])/g, " $1")] puts a space before every capital
    letter: the loop is [space_upper]. *)
Lemma replace_upper_spaces (l : list ascii) :
  forall fuel pos, (List.length l < fuel)%nat ->
  replace_global fuel re_upper (fun m => " "%char :: m) pos l = space_upper l.
Proof.
  induction l as [|c t IH]; intros [|fuel] pos Hl; simpl in Hl; try lia; [done|].
  destruct (is_upper c) eqn:Hu.
  - cbn [replace_global find_match]. rewrite match_at_upper, Hu.
    replace (S pos - pos)%nat with 1%nat by lia. simpl. rewrite Hu.
    do 2 f_equal. apply IH. lia.
  - rewrite replace_global_skip by (by rewrite match_at_upper, Hu).
    cbn [space_upper]. rewrite Hu. f_equal. apply IH. lia.
Qed.

(** [/^./] matches nowhere but at 0. *)
Lemma find_match_first_succ (p : nat) (l : list ascii) : find_match re_first (S p) l = None.
Proof.
  revert p. induction l as [|c t IH]; intros p; cbn [find_match]; [done|].
  unfold match_at, re_first. simpl. by rewrite IH.
Qed.

(** [s.replace(/^./, f)]: [f] applied to the first code unit, unless it is
    a line terminator (or [s] is empty). *)
Lemma replace_first_head (repl : list ascii -> option (list ascii)) (c : ascii) (t : list ascii) :
  replace_first re_first repl (c :: t) =
    if is_line_terminator c then Some (c :: t) else (fun u => u ++ t)%list <$> repl [c].
Proof.
  unfold replace_first. cbn [find_match]. unfold match_at, re_first. simpl.
  destruct (is_line_terminator c); simpl; [|done].
  by rewrite find_match_first_succ.
Qed.

Lemma replace_first_nil (repl : list ascii -> option (list ascii)) :
  replace_first re_first repl [] = Some [].
Proof. reflexivity. Qed.

(** ** Witnesses *)

Lemma replace_global_fuel_witness :
  replace_global 20 re_upper (fun m => " "%char :: m) 0 (list_ascii_of_string "zipCode") =
    replace_global 8 re_upper (fun m => " "%char :: m) 0 (list_ascii_of_string "zipCode").
Proof. apply replace_global_fuel. simpl. lia. Defined.
