(* ===== verification/JsObject.v ===== *)
(** * JsObject: plain JavaScript objects used as string-keyed maps

    [formData], [errors] and the per-submit [validationErrors] of
    [DynamicForm.jsx] are ordinary objects keyed by field names.  An object
    is modelled as an association list in property order: [obj_get] is
    [o[k]] ([None] for [undefined]); [obj_set o k v] is both the assignment
    [o[k] = v] and the spread [{ ...o, [k]: v }] (the copy keeps the order of
    [o], then [CreateDataProperty] overwrites an existing key in place or
    appends a new one); [obj_keys] is [Object.keys] in insertion order.
    [obj_entries] is [Object.entries] with the order of
    [OrdinaryOwnPropertyKeys]: the array-index keys ("0", "1", ...) first,
    ascending, then the other keys in insertion order; [obj_entries_perm]
    shows it lists the same properties, and [obj_entries_no_index] that it
    is the insertion order when no key is an array index, as for the
    catalog field names ([Catalog.catalog_names_not_index]). *)

From S2P Require Import Prelude JsString.
From Stdlib Require Import Ascii String.
#[local] Open Scope list_scope.

Definition js_obj (A : Type) : Type := list (string * A).

Fixpoint obj_get {A} (o : js_obj A) (k : string) : option A :=
  match o with
  | [] => None
  | (k', v) :: o' => if String.eqb k k' then Some v else obj_get o' k
  end.

Fixpoint obj_set {A} (o : js_obj A) (k : string) (v : A) : js_obj A :=
  match o with
  | [] => [(k, v)]
  | (k', v') :: o' =>
      if String.eqb k k' then (k', v) :: o' else (k', v') :: obj_set o' k v
  end.

Definition obj_keys {A} (o : js_obj A) : list string := map fst o.

(** The same keys with every value mapped (a change of value type only). *)
Definition obj_map {A B} (g : A -> B) (o : js_obj A) : js_obj B :=
  map (fun '(k, v) => (k, g v)) o.

(** The numeric value of a string of decimal digits. *)
Definition index_value (k : string) : Z :=
  fold_left (fun acc c => acc * 10 + (Z.of_nat (code c) - 48))%Z (list_ascii_of_string k) 0%Z.

(** An array index: [ToString(ToUint32(k)) === k] and [ToUint32(k) <> 2^32 - 1],
    i.e. a canonical decimal numeral ("0" or no leading zero) below
    [2^32 - 1]. *)
Definition is_array_index (k : string) : bool :=
  match list_ascii_of_string k with
  | [] => false
  | c :: t =>
      forallb is_ascii_digit (c :: t) &&
      (negb (Ascii.eqb c "0"%char) || bool_decide (t = [])) &&
      (index_value k <? 2 ^ 32 - 1)%Z
  end.

(** Insertion of an array-index property by ascending index. *)
Fixpoint insert_index {A} (kv : string * A) (l : js_obj A) : js_obj A :=
  match l with
  | [] => [kv]
  | kv' :: l' =>
      if (index_value kv.1 <? index_value kv'.1)%Z then kv :: l else kv' :: insert_index kv l'
  end.

(** [Object.entries(o)]: the index keys ascending, then the others in
    insertion order. *)
Definition obj_entries {A} (o : js_obj A) : js_obj A :=
  (foldr insert_index [] (List.filter (fun kv => is_array_index kv.1) o) ++
   List.filter (fun kv => negb (is_array_index kv.1)) o)%list.

Notation "o .[ k ]" := (obj_get o k) (at level 1, left associativity,
  format "o .[ k ]") : js_scope.
Notation "o .[ k := v ]" := (obj_set o k v) (at level 1, left associativity,
  format "o .[ k  :=  v ]") : js_scope.

Open Scope js_scope.

(** ** Lemmas *)

Section ObjLemmas.
Context {A : Type}.
Implicit Types (o : js_obj A) (k : string) (v : A).

Lemma obj_get_set_eq o k v : o.[k := v].[k] = Some v.
Proof.
  induction o as [|[k' v'] o IH]; simpl; [by rewrite String.eqb_refl|].
  destruct (String.eqb_spec k k') as [->|Hne]; simpl.
  - by rewrite String.eqb_refl.
  - apply String.eqb_neq in Hne. by rewrite Hne.
Qed.

Lemma obj_get_set_ne o k k2 v : k2 <> k -> o.[k := v].[k2] = o.[k2].
Proof.
  intros Hne. apply String.eqb_neq in Hne.
  induction o as [|[k' v'] o IH]; simpl; [by rewrite Hne|].
  destruct (String.eqb_spec k k') as [->|Hk]; simpl; [by rewrite Hne|].
  by rewrite IH.
Qed.

Lemma obj_get_set o k k2 v :
  o.[k := v].[k2] = if String.eqb k2 k then Some v else o.[k2].
Proof.
  destruct (String.eqb_spec k2 k) as [->|Hne].
  - apply obj_get_set_eq.
  - by apply obj_get_set_ne.
Qed.

Lemma obj_get_in_keys o k : is_Some (o.[k]) <-> In k (obj_keys o).
Proof.
  induction o as [|[k' v'] o IH]; simpl; [split; [by intros [? ?]|done]|].
  destruct (String.eqb_spec k k') as [->|Hne]; [naive_solver|].
  rewrite IH. naive_solver.
Qed.

Lemma obj_keys_set_in o k v : In k (obj_keys o) -> obj_keys (o.[k := v]) = obj_keys o.
Proof.
  induction o as [|[k' v'] o IH]; simpl; [done|].
  destruct (String.eqb_spec k k') as [->|Hne]; simpl; [done|].
  intros [?|Hin]; [congruence|]. by rewrite IH.
Qed.

Lemma obj_keys_set_notin o k v :
  ~ In k (obj_keys o) -> obj_keys (o.[k := v]) = obj_keys o ++ [k].
Proof.
  induction o as [|[k' v'] o IH]; simpl; [done|].
  destruct (String.eqb_spec k k') as [->|Hne]; simpl; [naive_solver|].
  intros Hnin. rewrite IH; naive_solver.
Qed.

(** Setting a new key appends the property. *)
Lemma obj_set_new o k v : ~ In k (obj_keys o) -> o.[k := v] = o ++ [(k, v)].
Proof.
  induction o as [|[k' v'] o IH]; simpl; [done|].
  destruct (String.eqb_spec k k') as [->|Hne]; [naive_solver|].
  intros Hnin. rewrite IH; naive_solver.
Qed.

(** The keys after a set: the old keys, with [k] appended when new. *)
Lemma obj_keys_set_incl o k v x :
  In x (obj_keys (o.[k := v])) <-> x = k \/ In x (obj_keys o).
Proof.
  destruct (in_dec string_dec k (obj_keys o)) as [Hin|Hnin].
  - rewrite obj_keys_set_in by done. naive_solver.
  - rewrite obj_keys_set_notin by done. rewrite in_app_iff. simpl. naive_solver.
Qed.

Lemma obj_keys_set_nodup o k v :
  NoDup (obj_keys o) -> NoDup (obj_keys (o.[k := v])).
Proof.
  intros Hnd. destruct (in_dec string_dec k (obj_keys o)) as [Hin|Hnin].
  - by rewrite obj_keys_set_in.
  - rewrite obj_keys_set_notin by done. apply list.NoDup_app. split_and!; [done| |].
    + intros x Hx Hx'. apply list_elem_of_singleton in Hx'. subst.
      apply list_elem_of_In in Hx. contradiction.
    + apply NoDup_singleton.
Qed.

(** Writing back the value already stored is the identity. *)
Lemma obj_set_get_same o k v : o.[k] = Some v -> o.[k := v] = o.
Proof.
  induction o as [|[k' v'] o IH]; simpl; [done|].
  destruct (String.eqb_spec k k') as [->|Hne]; [congruence|].
  intros H. by rewrite IH.
Qed.

Lemma obj_get_map {B} (g : A -> B) o k : (obj_map g o).[k] = g <$> o.[k].
Proof.
  induction o as [|[k' v'] o IH]; simpl; [done|].
  by destruct (String.eqb k k').
Qed.

Lemma obj_keys_length_0 o : List.length (obj_keys o) = 0%nat <-> o = [].
Proof. destruct o; simpl; split; done. Qed.

Lemma insert_index_perm (kv : string * A) (l : js_obj A) : insert_index kv l ≡ₚ kv :: l.
Proof.
  induction l as [|kv' l IH]; simpl; [done|].
  case_match; [done|]. rewrite IH. apply perm_swap.
Qed.

Lemma filter_negb_perm {B} (p : B -> bool) (l : list B) :
  (List.filter p l ++ List.filter (fun x => negb (p x)) l)%list ≡ₚ l.
Proof.
  induction l as [|x l IH]; simpl; [done|].
  destruct (p x); simpl; [by rewrite IH|].
  rewrite <- Permutation_middle. by rewrite IH.
Qed.

(** [Object.entries] lists exactly the object's properties. *)
Lemma obj_entries_perm (o : js_obj A) : obj_entries o ≡ₚ o.
Proof.
  unfold obj_entries. etrans; [|exact (filter_negb_perm (fun kv : string * A => is_array_index kv.1) o)].
  apply Permutation_app_tail.
  induction (List.filter _ o) as [|kv l IH]; simpl; [done|].
  by rewrite insert_index_perm, IH.
Qed.

(** Without array-index keys [Object.entries] is the insertion order. *)
Lemma obj_entries_no_index (o : js_obj A) :
  forallb (fun k => negb (is_array_index k)) (obj_keys o) = true -> obj_entries o = o.
Proof.
  unfold obj_entries, obj_keys. intros Hk.
  assert (List.filter (fun kv : string * A => is_array_index kv.1) o = [] /\
          List.filter (fun kv : string * A => negb (is_array_index kv.1)) o = o) as [-> ->];
    [|done].
  induction o as [|[k v] o IH]; simpl in *; [done|].
  apply andb_true_iff in Hk as [Hk1 Hk2]. destruct (is_array_index k); [done|].
  destruct (IH Hk2) as [-> ->]. done.
Qed.

End ObjLemmas.

#[export] Hint Rewrite @obj_get_set_eq @obj_get_set : jsrw.
#[export] Hint Resolve obj_keys_set_nodup : js.
