(* ===== verification/JsNumber.v ===== *)
(** * JsNumber: the JavaScript Number operations of the form engine

    [validateField] compares the string [value] of the [age] field with the
    numbers 1 and 120 ([value < 1 || value > 120], DynamicForm.jsx line 11):
    the string goes through [StringToNumber] and the comparison is
    [IsLessThan] on IEEE-754 binary64 values, [undefined] (false) when a side
    is NaN.  [handleChange] computes the progress bar width as
    [(filledFields.length / requiredFields.length) * 100] (line 86), two
    binary64 operations with their own rounding, NaN for [0 / 0].

    A Number is [JNaN], an infinity [JInf neg] or a finite [JFin q] where
    [q] is the exact rational value of the double.  [round_binary64] rounds
    an exact rational to the nearest double, ties to even, with gradual
    underflow (quantum 2^-1074) and overflow to infinity (values of
    magnitude 2^1024 and above after rounding); it is the [𝔽(x)] of
    ECMA-262.  The sign of zero is not tracked: [-0] is [JFin 0]; none of
    the code's comparisons or divisions sees the difference (the progress
    operands are counts, and [-0 < 1] like [+0 < 1]).

    [string_to_number] follows the [StringNumericLiteral] grammar: optional
    whitespace (the [trim] set), then nothing (the value 0), or a decimal
    literal with optional sign, [Infinity], digits, fraction and exponent,
    or an unsigned [0b]/[0o]/[0x] integer; anything else is NaN.  The
    mathematical value is rounded once with [round_binary64] (correct
    rounding, as V8 and SpiderMonkey do; ECMA-262 lets an engine first cut a
    literal of more than 20 significant digits at its 20th digit). *)

From S2P Require Import Prelude JsString.
From Stdlib Require Import Ascii String QArith Qcanon.
Close Scope Q_scope.
Close Scope Qc_scope.
Open Scope Z_scope.

Inductive jsnum : Type :=
  | JNaN
  | JInf (neg : bool)
  | JFin (q : Q).

(** ** Rounding to binary64 *)

(** [2^e <= a / d] for [d > 0]. *)
Definition pow2_le (e a d : Z) : bool :=
  if 0 <=? e then d * 2 ^ e <=? a else d <=? a * 2 ^ (- e).

(** [floor (log2 (a / d))] for [a, d > 0]. *)
Definition flog2 (a d : Z) : Z :=
  let e0 := Z.log2 a - Z.log2 d in
  if pow2_le e0 a d then e0 else e0 - 1.

(** [N / D] rounded to the nearest integer, ties to even, for [D > 0]. *)
Definition round_ne (N D : Z) : Z :=
  let m := N / D in
  let r := N mod D in
  match Z.compare (2 * r) D with
  | Lt => m
  | Gt => m + 1
  | Eq => if Z.even m then m else m + 1
  end.

(** The rational [m * 2^e], in lowest terms. *)
Definition dyadic (m e : Z) : Q :=
  if 0 <=? e then inject_Z (m * 2 ^ e) else Qred (m # Z.to_pos (2 ^ (- e))).

(** Round the positive rational [a / d]: [None] on overflow. *)
Definition round_pos (a d : Z) : option Q :=
  let e := flog2 a d in
  let qe := Z.max (e - 52) (-1074) in
  let m := if 0 <=? qe then round_ne a (d * 2 ^ qe) else round_ne (a * 2 ^ (- qe)) d in
  if (0 <=? qe) && (2 ^ 1024 <=? m * 2 ^ qe) then None else Some (dyadic m qe).

Definition round_binary64 (q : Q) : jsnum :=
  let q' := Qred q in
  match Qnum q' with
  | Z0 => JFin 0
  | Zpos p =>
      match round_pos (Zpos p) (Zpos (Qden q')) with
      | Some v => JFin v | None => JInf false end
  | Zneg p =>
      match round_pos (Zpos p) (Zpos (Qden q')) with
      | Some v => JFin (- v)%Q | None => JInf true end
  end.

(** An integer literal of the source ([1], [120], [100]): exact. *)
Definition num_lit (z : Z) : jsnum := JFin (inject_Z z).

(** An array length as a Number: lengths are below 2^32, hence exact. *)
Definition num_of_nat (n : nat) : jsnum := JFin (inject_Z (Z.of_nat n)).

(** ** [StringToNumber] *)

(** The value of a digit in [base] (2, 8, 10 or 16). *)
Definition digit_val (base : Z) (c : ascii) : option Z :=
  let n := Z.of_nat (code c) in
  let v :=
    if (48 <=? n) && (n <=? 57) then Some (n - 48)
    else if (97 <=? n) && (n <=? 102) then Some (n - 87)
    else if (65 <=? n) && (n <=? 70) then Some (n - 55)
    else None in
  match v with
  | Some x => if x <? base then Some x else None
  | None => None
  end.

(** The longest prefix of digits: accumulated value, digit count, rest. *)
Fixpoint span_digits (base : Z) (l : list ascii) (acc : Z) (cnt : nat)
  : Z * nat * list ascii :=
  match l with
  | c :: l' =>
      match digit_val base c with
      | Some v => span_digits base l' (acc * base + v) (S cnt)
      | None => (acc, cnt, l)
      end
  | [] => (acc, cnt, [])
  end.

(** The mathematical value of a literal: infinite or an exact rational. *)
Inductive mv : Type :=
  | MVInf (neg : bool)
  | MVFin (q : Q).

(** [m * 10^e]. *)
Definition dec_value (m e : Z) : Q :=
  if 0 <=? e then inject_Z (m * 10 ^ e) else m # Z.to_pos (10 ^ (- e)).

(** [SignedInteger] of an [ExponentPart], consuming the whole rest. *)
Definition parse_exponent (l : list ascii) : option Z :=
  let '(sg, l1) :=
    match l with
    | "+"%char :: r => (1, r)
    | "-"%char :: r => (-1, r)
    | _ => (1, l)
    end in
  match span_digits 10 l1 0 0 with
  | (_, O, _) => None
  | (v, _, []) => Some (sg * v)
  | _ => None
  end.

Definition is_exp_indicator (c : ascii) : bool :=
  match c with "e"%char | "E"%char => true | _ => false end.

Definition infinity_chars : list ascii := list_ascii_of_string "Infinity".

(** [StrUnsignedDecimalLiteral], consuming the whole input. *)
Definition parse_unsigned_decimal (l : list ascii) : option mv :=
  if bool_decide (l = infinity_chars) then Some (MVInf false) else
  let '(iv, ni, l1) := span_digits 10 l 0 0 in
  let '(fv, nf, l2) :=
    match l1 with
    | "."%char :: r => span_digits 10 r iv 0
    | _ => (iv, O, l1)
    end in
  if (ni + nf =? 0)%nat then None else
  match l2 with
  | [] => Some (MVFin (dec_value fv (- Z.of_nat nf)))
  | c :: r =>
      if is_exp_indicator c then
        match parse_exponent r with
        | Some x => Some (MVFin (dec_value fv (x - Z.of_nat nf)))
        | None => None
        end
      else None
  end.

Definition mv_neg (v : mv) : mv :=
  match v with
  | MVInf b => MVInf (negb b)
  | MVFin q => MVFin (- q)%Q
  end.

(** [NonDecimalIntegerLiteral] after its prefix: at least one digit, all
    of the input. *)
Definition parse_radix (base : Z) (l : list ascii) : option mv :=
  match span_digits base l 0 0 with
  | (_, O, _) => None
  | (v, _, []) => Some (MVFin (inject_Z v))
  | _ => None
  end.

Definition radix_of (c : ascii) : option Z :=
  match c with
  | "b"%char | "B"%char => Some 2
  | "o"%char | "O"%char => Some 8
  | "x"%char | "X"%char => Some 16
  | _ => None
  end.

(** [StrNumericLiteral]. *)
Definition parse_numeric_literal (l : list ascii) : option mv :=
  match l with
  | "0"%char :: c :: r =>
      match radix_of c with
      | Some b => parse_radix b r
      | None => parse_unsigned_decimal l
      end
  | "+"%char :: r => parse_unsigned_decimal r
  | "-"%char :: r => mv_neg <$> parse_unsigned_decimal r
  | _ => parse_unsigned_decimal l
  end.

Definition string_to_number (s : string) : jsnum :=
  match list_ascii_of_string (js_trim s) with
  | [] => JFin 0
  | l =>
      match parse_numeric_literal l with
      | None => JNaN
      | Some (MVInf b) => JInf b
      | Some (MVFin q) => round_binary64 q
      end
  end.

(** ** Relational comparison and arithmetic *)

Definition Qlt_bool (a b : Q) : bool := negb (Qle_bool b a).

(** [Number::lessThan]: [None] is [undefined]. *)
Definition is_less_than (x y : jsnum) : option bool :=
  match x, y with
  | JNaN, _ | _, JNaN => None
  | JInf false, _ => Some false
  | _, JInf false => Some true
  | _, JInf true => Some false
  | JInf true, _ => Some true
  | JFin a, JFin b => Some (Qlt_bool a b)
  end.

(** [x < y], [x > y], [x <= y] (ECMA-262, 13.10.1). *)
Definition js_lt (x y : jsnum) : bool :=
  match is_less_than x y with Some b => b | None => false end.
Definition js_gt (x y : jsnum) : bool :=
  match is_less_than y x with Some b => b | None => false end.
Definition js_le (x y : jsnum) : bool :=
  match is_less_than y x with Some false => true | _ => false end.

Definition q_neg (q : Q) : bool := Qlt_bool q 0.

(** [Number::divide]. *)
Definition js_div (x y : jsnum) : jsnum :=
  match x, y with
  | JNaN, _ | _, JNaN => JNaN
  | JInf _, JInf _ => JNaN
  | JInf a, JFin b => JInf (xorb a (q_neg b))
  | JFin _, JInf _ => JFin 0
  | JFin a, JFin b =>
      if Qeq_bool b 0 then (if Qeq_bool a 0 then JNaN else JInf (q_neg a))
      else round_binary64 (a / b)%Q
  end.

(** [Number::multiply]. *)
Definition js_mul (x y : jsnum) : jsnum :=
  match x, y with
  | JNaN, _ | _, JNaN => JNaN
  | JInf a, JInf b => JInf (xorb a b)
  | JInf a, JFin b | JFin b, JInf a =>
      if Qeq_bool b 0 then JNaN else JInf (xorb a (q_neg b))
  | JFin a, JFin b => round_binary64 (a * b)%Q
  end.

(** The value of a string of decimal digits, most significant first. *)
Fixpoint digits_acc (l : list ascii) (acc : Z) : Z :=
  match l with
  | [] => acc
  | c :: l' => digits_acc l' (acc * 10 + (Z.of_nat (code c) - 48))
  end.

Definition decimal_value (s : string) : Z := digits_acc (list_ascii_of_string s) 0.

(** ** Lemmas *)

Lemma Qred_inject_Z (n : Z) : Qred (inject_Z n) = inject_Z n.
Proof. apply Qred_identity. simpl. apply Z.gcd_1_r. Qed.

(** Rounding depends on the rational value only. *)
Lemma round_binary64_Qeq (q q' : Q) : (q == q')%Q -> round_binary64 q = round_binary64 q'.
Proof. intros Hq. unfold round_binary64. by rewrite (Qred_complete q q' Hq). Qed.

Lemma round_ne_div (N D : Z) : 0 < D -> N mod D = 0 -> round_ne N D = N / D.
Proof.
  intros HD Hm. unfold round_ne. rewrite Hm. simpl.
  destruct D; [lia| reflexivity | lia].
Qed.

(** A positive integer below 2^53 is a double. *)
Lemma round_pos_int (a : Z) : 0 < a < 2 ^ 53 -> round_pos a 1 = Some (inject_Z a).
Proof.
  intros Ha. unfold round_pos, flog2, pow2_le.
  pose proof (Z.log2_spec a ltac:(lia)) as [Hlo Hhi].
  assert (Hle : Z.log2 a < 53).
  { apply Z.log2_lt_pow2; lia. }
  pose proof (Z.log2_nonneg a).
  replace (Z.log2 a - Z.log2 1) with (Z.log2 a) by (simpl; lia).
  rewrite (proj2 (Z.leb_le 0 (Z.log2 a))) by lia.
  rewrite (proj2 (Z.leb_le (1 * 2 ^ Z.log2 a) a)) by lia.
  replace (Z.max (Z.log2 a - 52) (-1074)) with (Z.log2 a - 52) by lia.
  destruct (Z.leb_spec 0 (Z.log2 a - 52)) as [H0|H0]; simpl.
  - assert (Heq : Z.log2 a - 52 = 0) by lia. rewrite Heq. simpl.
    rewrite round_ne_div, Z.div_1_r by (try apply Z.mod_1_r; lia).
    change (2 ^ 0) with 1. rewrite Z.mul_1_r.
    destruct (Z.leb_spec (2 ^ 1024) a) as [Hb|Hb].
    + exfalso. assert (2 ^ 53 <= 2 ^ 1024) by (apply Z.pow_le_mono_r; lia). lia.
    + unfold dyadic. simpl. by rewrite Z.mul_1_r.
  - set (k := - (Z.log2 a - 52)).
    assert (Hk : 0 < k) by lia.
    rewrite round_ne_div, Z.div_1_r by (try apply Z.mod_1_r; lia).
    unfold dyadic. rewrite (proj2 (Z.leb_gt 0 (Z.log2 a - 52))) by lia.
    fold k. rewrite <- Qred_inject_Z. f_equal. apply Qred_complete.
    unfold Qeq, inject_Z. simpl.
    rewrite Z2Pos.id by (apply Z.pow_pos_nonneg; lia). lia.
Qed.

(** Integers of magnitude below 2^53 are exact: [𝔽(n) = n]. *)
Theorem round_binary64_int (n : Z) :
  Z.abs n < 2 ^ 53 -> round_binary64 (inject_Z n) = JFin (inject_Z n).
Proof.
  intros Hn. unfold round_binary64. rewrite Qred_inject_Z.
  destruct n as [|p|p]; simpl; [done| |].
  - rewrite round_pos_int by (simpl in Hn; lia). done.
  - rewrite round_pos_int by (simpl in Hn; lia). done.
Qed.

Lemma js_lt_int (a b : Z) : js_lt (num_lit a) (num_lit b) = (a <? b).
Proof.
  unfold js_lt, num_lit, is_less_than, Qlt_bool, Qle_bool. simpl.
  rewrite !Z.mul_1_r. by rewrite Z.ltb_antisym.
Qed.

Lemma js_gt_int (a b : Z) : js_gt (num_lit a) (num_lit b) = (b <? a).
Proof. unfold js_gt. apply js_lt_int. Qed.

Lemma js_lt_nan (y : jsnum) : js_lt JNaN y = false.
Proof. done. Qed.

Lemma js_gt_nan (y : jsnum) : js_gt JNaN y = false.
Proof. by destruct y as [|[]|]. Qed.

Lemma num_of_nat_lit (n : nat) : num_of_nat n = num_lit (Z.of_nat n).
Proof. reflexivity. Qed.

(** [n / n] is 1 and [0 / n] is 0 for a positive count [n]; [0 / 0] is NaN. *)
Lemma js_div_self (n : nat) : (0 < n)%nat -> js_div (num_of_nat n) (num_of_nat n) = num_lit 1.
Proof.
  intros Hn. unfold js_div, num_of_nat.
  assert (Hb : Qeq_bool (inject_Z (Z.of_nat n)) 0 = false).
  { apply not_true_is_false. intros Hq. apply Qeq_bool_eq in Hq.
    unfold Qeq in Hq. simpl in Hq. lia. }
  rewrite Hb. rewrite (round_binary64_Qeq _ (inject_Z 1)).
  - apply round_binary64_int. simpl. lia.
  - unfold Qeq, Qdiv, Qmult, Qinv. simpl.
    destruct (Z.of_nat n) eqn:E; simpl; lia.
Qed.

Lemma js_div_zero_l (n : nat) : (0 < n)%nat -> js_div (num_of_nat 0) (num_of_nat n) = num_lit 0.
Proof.
  intros Hn. unfold js_div, num_of_nat.
  assert (Hb : Qeq_bool (inject_Z (Z.of_nat n)) 0 = false).
  { apply not_true_is_false. intros Hq. apply Qeq_bool_eq in Hq.
    unfold Qeq in Hq. simpl in Hq. lia. }
  rewrite Hb. rewrite (round_binary64_Qeq _ (inject_Z 0)); [done|].
  unfold Qeq, Qdiv, Qmult, Qinv. simpl. lia.
Qed.

Lemma js_div_zero_zero : js_div (num_of_nat 0) (num_of_nat 0) = JNaN.
Proof. reflexivity. Qed.

(** [k * z] for small integer literals is exact. *)
Lemma js_mul_lit (a b : Z) : Z.abs (a * b) < 2 ^ 53 -> js_mul (num_lit a) (num_lit b) = num_lit (a * b).
Proof.
  intros Hab. unfold js_mul, num_lit.
  rewrite (round_binary64_Qeq _ (inject_Z (a * b))).
  - by apply round_binary64_int.
  - unfold Qeq, Qmult. simpl. lia.
Qed.

Lemma js_mul_nan_l (y : jsnum) : js_mul JNaN y = JNaN.
Proof. reflexivity. Qed.

(** Rounding never produces NaN. *)
Lemma round_binary64_not_nan (q : Q) : round_binary64 q <> JNaN.
Proof. unfold round_binary64. repeat case_match; discriminate. Qed.

Lemma js_div_not_nan (a r : nat) : (0 < r)%nat -> js_div (num_of_nat a) (num_of_nat r) <> JNaN.
Proof.
  intros Hr. unfold js_div, num_of_nat.
  assert (Hb : Qeq_bool (inject_Z (Z.of_nat r)) 0 = false).
  { apply not_true_is_false. intros Hq. apply Qeq_bool_eq in Hq.
    unfold Qeq in Hq. simpl in Hq. lia. }
  rewrite Hb. apply round_binary64_not_nan.
Qed.

Lemma js_mul_lit_not_nan (x : jsnum) (z : Z) :
  z <> 0 -> x <> JNaN -> js_mul x (num_lit z) <> JNaN.
Proof.
  intros Hz Hx. unfold js_mul, num_lit. destruct x as [|b|q]; [done| |].
  - assert (Hb : Qeq_bool (inject_Z z) 0 = false).
    { apply not_true_is_false. intros Hq. apply Qeq_bool_eq in Hq.
      unfold Qeq in Hq. simpl in Hq. lia. }
    by rewrite Hb.
  - apply round_binary64_not_nan.
Qed.

#[export] Hint Rewrite round_binary64_int using (simpl; lia) : jsrw.
#[export] Hint Rewrite js_lt_int js_gt_int js_lt_nan js_gt_nan : jsrw.

Lemma digit_val_10 (c : ascii) :
  is_ascii_digit c = true -> digit_val 10 c = Some (Z.of_nat (code c) - 48).
Proof.
  unfold is_ascii_digit, digit_val. intros H.
  apply andb_prop in H as [H1 H2]. apply Nat.leb_le in H1, H2.
  cbv beta zeta.
  rewrite (proj2 (Z.leb_le 48 _)), (proj2 (Z.leb_le _ 57)) by lia. simpl.
  by rewrite (proj2 (Z.ltb_lt _ 10)) by lia.
Qed.

Lemma span_digits_all (l : list ascii) (acc : Z) (cnt : nat) :
  forallb is_ascii_digit l = true ->
  span_digits 10 l acc cnt = (digits_acc l acc, (cnt + List.length l)%nat, []).
Proof.
  revert acc cnt. induction l as [|c l IH]; intros acc cnt H; simpl.
  - by rewrite Nat.add_0_r.
  - apply andb_prop in H as [Hc Hl]. rewrite digit_val_10 by done.
    rewrite IH by done. do 2 f_equal. lia.
Qed.

Lemma radix_of_digit (c : ascii) : is_ascii_digit c = true -> radix_of c = None.
Proof.
  intros H. destruct c as [[] [] [] [] [] [] [] []];
    try (vm_compute in H; discriminate); reflexivity.
Qed.

(** A literal that starts with a digit is not signed, and a digit after a
    leading 0 is no radix prefix. *)
Lemma parse_numeric_literal_digits (l : list ascii) :
  forallb is_ascii_digit l = true -> parse_numeric_literal l = parse_unsigned_decimal l.
Proof.
  destruct l as [|c l]; [done|]. simpl. intros H.
  apply andb_prop in H as [Hc Hl].
  destruct c as [[] [] [] [] [] [] [] []];
    try (vm_compute in Hc; discriminate); try reflexivity.
  destruct l as [|c2 l]; [reflexivity|]. simpl in Hl.
  apply andb_prop in Hl as [Hc2 _]. simpl. by rewrite radix_of_digit.
Qed.

(** [StringToNumber] of a non-empty string of decimal digits is the
    rounding of its decimal value. *)
Lemma string_to_number_digits (s : string) :
  s <> EmptyString -> forallb is_ascii_digit (list_ascii_of_string s) = true ->
  string_to_number s = round_binary64 (inject_Z (decimal_value s)).
Proof.
  intros Hne Hd. unfold string_to_number, decimal_value.
  rewrite js_trim_no_ws.
  2:{ apply forallb_forall. intros c Hc. apply forallb_forall with (x := c) in Hd; [|done].
      by rewrite digit_not_ws. }
  destruct (list_ascii_of_string s) as [|c l] eqn:Hl.
  { destruct s; simpl in Hl; congruence. }
  rewrite <- Hl. rewrite parse_numeric_literal_digits by (by rewrite Hl).
  rewrite Hl. unfold parse_unsigned_decimal.
  rewrite bool_decide_false.
  2:{ intros Heq. rewrite Heq in Hd. vm_compute in Hd. discriminate. }
  rewrite span_digits_all by done. simpl.
  unfold dec_value. simpl. by rewrite Z.mul_1_r.
Qed.

Lemma digits_acc_nonneg (l : list ascii) (acc : Z) :
  0 <= acc -> forallb is_ascii_digit l = true -> 0 <= digits_acc l acc.
Proof.
  revert acc. induction l as [|c l IH]; intros acc Hacc H; simpl; [done|].
  apply andb_prop in H as [Hc Hl]. apply IH; [|done].
  unfold is_ascii_digit in Hc. apply andb_prop in Hc as [H1 _].
  apply Nat.leb_le in H1. lia.
Qed.

(** A decimal digit string of value below 2^53 converts exactly. *)
Theorem string_to_number_digits_exact (s : string) :
  s <> EmptyString -> forallb is_ascii_digit (list_ascii_of_string s) = true ->
  decimal_value s < 2 ^ 53 ->
  string_to_number s = JFin (inject_Z (decimal_value s)).
Proof.
  intros Hne Hd Hb. rewrite string_to_number_digits by done.
  apply round_binary64_int.
  pose proof (digits_acc_nonneg (list_ascii_of_string s) 0 ltac:(lia) Hd).
  unfold decimal_value in *. lia.
Qed.
