(* ===== verification/JsDate.v ===== *)
(** * JsDate: [new Date(value) <= new Date()] for the [expiryDate] rule

    [validateField] (DynamicForm.jsx lines 20-26) builds [new Date()] (the
    clock, a time value in milliseconds since the epoch) and
    [new Date(value)], and rejects when [inputDate <= currentDate].  Dates
    compare through [valueOf], so the comparison is [IsLessThan] on time
    values, and an Invalid Date (time value NaN) makes it [undefined], i.e.
    false: the rule then accepts.

    [new Date(string)] applies [TimeClip] to [Date.parse].  ECMA-262 fixes
    [Date.parse] on the Date Time String Format and leaves other strings to
    the engine.  This file models the date-only forms exactly: [YYYY],
    [YYYY-MM], [YYYY-MM-DD], and the expanded years [+YYYYYY] / [-YYYYYY]
    ([-000000] is illegal), read as UTC midnight with [MakeDay] and
    [MakeDate]; a string of that shape with a month outside 01..12 or a day
    outside 01..31 is NaN.  Every other string (the date-time forms, which
    need the host time zone, and the engine's own formats) goes to the
    [DateEngine] class: its single method is the engine's [Date.parse] on
    those strings, and every theorem holds for any instance.  The
    [<input type="date">] of the payment form only produces ["YYYY-MM-DD"]
    or [""]. *)

From S2P Require Import Prelude JsString JsNumber.
From Stdlib Require Import Ascii String QArith.
Close Scope Q_scope.
Open Scope Z_scope.

(** ** Day and time arithmetic (ECMA-262, 21.4.1) *)

Definition msPerDay : Z := 86400000.

Definition day_from_year (y : Z) : Z :=
  365 * (y - 1970) + (y - 1969) / 4 - (y - 1901) / 100 + (y - 1601) / 400.

Definition in_leap_year (y : Z) : bool :=
  (y mod 4 =? 0) && (negb (y mod 100 =? 0) || (y mod 400 =? 0)).

Definition days_in_year (y : Z) : Z := if in_leap_year y then 366 else 365.

(** Days of the year before the first day of month [mn] (0-based). *)
Definition month_start (leap : bool) (mn : Z) : Z :=
  let l := if leap then 1 else 0 in
  match mn with
  | 0 => 0 | 1 => 31 | 2 => 59 + l | 3 => 90 + l | 4 => 120 + l
  | 5 => 151 + l | 6 => 181 + l | 7 => 212 + l | 8 => 243 + l
  | 9 => 273 + l | 10 => 304 + l | _ => 334 + l
  end.

(** [MakeDay(year, month, date)], month 0-based. *)
Definition make_day (year month date : Z) : Z :=
  let ym := year + month / 12 in
  let mn := month mod 12 in
  day_from_year ym + month_start (in_leap_year ym) mn + date - 1.

(** [MakeDate(day, time)]. *)
Definition make_date (day time : Z) : Z := day * msPerDay + time.

(** [TimeClip]: [None] is NaN. *)
Definition time_clip (t : Z) : option Z :=
  if Z.abs t <=? 8640000000000000 then Some t else None.

(** The time value of UTC midnight of [y-m-d], [m] 1-based as written. *)
Definition date_value (y m d : Z) : Z := make_date (make_day y (m - 1) d) 0.

(** ** The date-only forms *)

(** Exactly [k] decimal digits. *)
Definition read_fixed (k : nat) (l : list ascii) : option (Z * list ascii) :=
  if (k <=? List.length l)%nat && forallb is_ascii_digit (take k l)
  then Some (digits_acc (take k l) 0, drop k l) else None.

(** The year: [Some (legal, y, rest)]; [-000000] is syntactically a year
    but illegal. *)
Definition parse_year (l : list ascii) : option (bool * Z * list ascii) :=
  match l with
  | "+"%char :: r =>
      match read_fixed 6 r with Some (y, r') => Some (true, y, r') | None => None end
  | "-"%char :: r =>
      match read_fixed 6 r with
      | Some (y, r') => Some (negb (y =? 0), - y, r')
      | None => None
      end
  | _ => match read_fixed 4 l with Some (y, r') => Some (true, y, r') | None => None end
  end.

Inductive iso_parse : Type :=
  | IsoDate (y m d : Z)  (** a legal date-only string *)
  | IsoIllegal           (** date-only shape, illegal element value: NaN *)
  | IsoOther.            (** not a date-only string *)

Definition iso_check (legal : bool) (y m d : Z) : iso_parse :=
  if legal && (1 <=? m) && (m <=? 12) && (1 <=? d) && (d <=? 31)
  then IsoDate y m d else IsoIllegal.

Definition parse_iso_date (s : string) : iso_parse :=
  match parse_year (list_ascii_of_string s) with
  | None => IsoOther
  | Some (ok, y, r) =>
      match r with
      | [] => iso_check ok y 1 1
      | "-"%char :: r1 =>
          match read_fixed 2 r1 with
          | Some (m, []) => iso_check ok y m 1
          | Some (m, "-"%char :: r2) =>
              match read_fixed 2 r2 with
              | Some (d, []) => iso_check ok y m d
              | _ => IsoOther
              end
          | _ => IsoOther
          end
      | _ => IsoOther
      end
  end.

(** The engine's [Date.parse] outside the date-only forms ([None]: NaN). *)
Class DateEngine := { date_parse_other : string -> option Z }.

Definition date_parse `{DateEngine} (s : string) : option Z :=
  match parse_iso_date s with
  | IsoDate y m d => Some (date_value y m d)
  | IsoIllegal => None
  | IsoOther => date_parse_other s
  end.

(** [new Date(s)] and [new Date()] at clock reading [now]. *)
Definition new_date_string `{DateEngine} (s : string) : option Z :=
  match date_parse s with Some t => time_clip t | None => None end.
Definition new_date_now (now : Z) : option Z := time_clip now.

(** [valueOf] of a Date, and [a <= b] on Dates. *)
Definition time_num (t : option Z) : jsnum :=
  match t with Some x => JFin (inject_Z x) | None => JNaN end.
Definition date_le (a b : option Z) : bool := js_le (time_num a) (time_num b).

(** The engine that recognises no string beyond the date-only forms (its
    [Date.parse] is NaN on every other string): an instance used by the
    concrete witnesses. *)
Definition strict_engine : DateEngine := {| date_parse_other := fun _ => None |}.

(** ** Printing a date as ["YYYY-MM-DD"] *)

Definition digit_char (n : Z) : ascii := ascii_of_nat (Z.to_nat (48 + n)).

(** The last [k] decimal digits of [n], zero-padded, most significant first. *)
Fixpoint pad_digits (k : nat) (n : Z) : list ascii :=
  match k with
  | O => []
  | S k' => pad_digits k' (n / 10) ++ [digit_char (n mod 10)]
  end.

Definition iso_date_string (y m d : Z) : string :=
  string_of_list_ascii
    (pad_digits 4 y ++ ["-"%char] ++ pad_digits 2 m ++ ["-"%char] ++ pad_digits 2 d).

(** ** Lemmas *)

(** [DayFromYear] advances by the length of the year. *)
Theorem day_from_year_succ (y : Z) :
  day_from_year (y + 1) = day_from_year y + days_in_year y.
Proof.
  unfold day_from_year, days_in_year, in_leap_year.
  destruct (Z.eqb_spec (y mod 4) 0), (Z.eqb_spec (y mod 100) 0),
    (Z.eqb_spec (y mod 400) 0); simpl;
    zdivmod (y + 1 - 1969) 4; zdivmod (y - 1969) 4; zdivmod (y + 1 - 1901) 100;
    zdivmod (y - 1901) 100; zdivmod (y + 1 - 1601) 400; zdivmod (y - 1601) 400;
    zdivmod y 4; zdivmod y 100; zdivmod y 400; lia.
Qed.

(** Comparing Dates compares time values; an Invalid Date is never [<=]. *)
Lemma date_le_some (a b : Z) : date_le (Some a) (Some b) = (a <=? b).
Proof.
  unfold date_le, js_le, is_less_than, time_num, Qlt_bool, Qle_bool. simpl.
  rewrite !Z.mul_1_r. by destruct (a <=? b).
Qed.

Lemma date_le_none_l (b : option Z) : date_le None b = false.
Proof. by destruct b as [b|]. Qed.

Lemma date_le_none_r (a : option Z) : date_le a None = false.
Proof. by destruct a as [a|]. Qed.

Lemma digits_acc_app (l1 l2 : list ascii) (acc : Z) :
  digits_acc (l1 ++ l2) acc = digits_acc l2 (digits_acc l1 acc).
Proof. revert acc. induction l1 as [|c l1 IH]; intros acc; simpl; auto. Qed.

Lemma code_digit_char (r : Z) : 0 <= r < 10 -> Z.of_nat (code (digit_char r)) = 48 + r.
Proof.
  intros Hr. unfold code, digit_char. rewrite nat_ascii_embedding by lia. lia.
Qed.

Lemma digit_char_digit (r : Z) : 0 <= r < 10 -> is_ascii_digit (digit_char r) = true.
Proof.
  intros Hr. unfold is_ascii_digit. pose proof (code_digit_char r Hr).
  apply andb_true_intro. split; apply Nat.leb_le; lia.
Qed.

Lemma pad_digits_length (k : nat) (n : Z) : List.length (pad_digits k n) = k.
Proof.
  revert n. induction k as [|k IH]; intros n; simpl; [done|].
  rewrite length_app, IH. simpl. lia.
Qed.

Lemma pad_digits_digits (k : nat) (n : Z) : forallb is_ascii_digit (pad_digits k n) = true.
Proof.
  revert n. induction k as [|k IH]; intros n; simpl; [done|].
  rewrite forallb_app, IH. simpl. rewrite digit_char_digit; [done|].
  apply Z.mod_pos_bound. lia.
Qed.

Lemma pad_digits_value (k : nat) (n acc : Z) :
  digits_acc (pad_digits k n) acc = acc * 10 ^ Z.of_nat k + n mod 10 ^ Z.of_nat k.
Proof.
  revert n acc. induction k as [|k IH]; intros n acc; simpl.
  - rewrite Z.mod_1_r. lia.
  - rewrite digits_acc_app, IH. simpl.
    pose proof (Z.mod_pos_bound n 10 ltac:(lia)) as Hb.
    rewrite code_digit_char by done.
    rewrite Nat2Z.inj_succ, Z.pow_succ_r by lia.
    rewrite Z.rem_mul_r by (try apply Z.pow_pos_nonneg; lia).
    lia.
Qed.

(** Reading back [k] printed digits. *)
Lemma read_fixed_pad (k : nat) (n : Z) (rest : list ascii) :
  0 <= n < 10 ^ Z.of_nat k -> read_fixed k (pad_digits k n ++ rest) = Some (n, rest).
Proof.
  intros Hn. unfold read_fixed.
  rewrite take_app_length' by (symmetry; apply pad_digits_length).
  rewrite drop_app_length' by (symmetry; apply pad_digits_length).
  rewrite length_app, pad_digits_length, pad_digits_digits.
  rewrite (proj2 (Nat.leb_le _ _)) by lia. simpl.
  rewrite pad_digits_value, Z.mod_small by done. done.
Qed.

(** A digit is no sign: [parse_year] reads four digits. *)
Lemma parse_year_digit (c : ascii) (l : list ascii) :
  is_ascii_digit c = true ->
  parse_year (c :: l) =
  match read_fixed 4 (c :: l) with Some (y, r') => Some (true, y, r') | None => None end.
Proof.
  intros Hc. destruct c as [[] [] [] [] [] [] [] []];
    try (vm_compute in Hc; discriminate); reflexivity.
Qed.

(** Parsing a date printed as ["YYYY-MM-DD"]. *)
Lemma parse_iso_date_string (y m d : Z) :
  0 <= y <= 9999 -> 1 <= m <= 12 -> 1 <= d <= 31 ->
  parse_iso_date (iso_date_string y m d) = IsoDate y m d.
Proof.
  intros Hy Hm Hd. unfold parse_iso_date, iso_date_string.
  rewrite list_ascii_of_string_of_list_ascii.
  destruct (pad_digits 4 y) as [|c l] eqn:Hp.
  { pose proof (pad_digits_length 4 y) as Hl. rewrite Hp in Hl. discriminate. }
  rewrite <- app_comm_cons, parse_year_digit.
  2:{ pose proof (pad_digits_digits 4 y) as Hdg. rewrite Hp in Hdg. simpl in Hdg.
      by apply andb_prop in Hdg as [? _]. }
  rewrite app_comm_cons, <- Hp.
  rewrite read_fixed_pad by (simpl; lia). cbn [app].
  rewrite read_fixed_pad by (simpl; lia). cbn [app].
  rewrite <- (app_nil_r (pad_digits 2 d)), read_fixed_pad by (simpl; lia).
  unfold iso_check. simpl.
  rewrite (proj2 (Z.leb_le 1 m)), (proj2 (Z.leb_le m 12)),
    (proj2 (Z.leb_le 1 d)), (proj2 (Z.leb_le d 31)) by lia. done.
Qed.

Lemma month_start_bounds (leap : bool) (mn : Z) : 0 <= month_start leap mn <= 335.
Proof. unfold month_start. destruct leap; repeat case_match; lia. Qed.

(** Dates of the years 0000..9999 are within the [TimeClip] range. *)
Lemma date_value_clip (y m d : Z) :
  0 <= y <= 9999 -> 1 <= m <= 12 -> 1 <= d <= 31 ->
  time_clip (date_value y m d) = Some (date_value y m d).
Proof.
  intros Hy Hm Hd. unfold time_clip, date_value, make_date, make_day, msPerDay.
  rewrite (Z.div_small (m - 1) 12), (Z.mod_small (m - 1) 12) by lia.
  rewrite !Z.add_0_r.
  pose proof (month_start_bounds (in_leap_year y) (m - 1)).
  generalize dependent (month_start (in_leap_year y) (m - 1)).
  intros ms Hms. unfold day_from_year.
  zdivmod (y - 1969) 4; zdivmod (y - 1901) 100; zdivmod (y - 1601) 400.
  rewrite (proj2 (Z.leb_le _ _)) by lia. done.
Qed.

(** [new Date("YYYY-MM-DD")] is UTC midnight of that day. *)
Theorem new_date_iso `{DateEngine} (y m d : Z) :
  0 <= y <= 9999 -> 1 <= m <= 12 -> 1 <= d <= 31 ->
  new_date_string (iso_date_string y m d) = Some (date_value y m d).
Proof.
  intros Hy Hm Hd. unfold new_date_string, date_parse.
  rewrite parse_iso_date_string by done. by apply date_value_clip.
Qed.

(** Printing a date as ["YYYY-MM-DD"] and parsing it gives the date back,
    and [Date.parse] maps it to UTC midnight of that day whatever the
    engine: the engine-defined fallback is never consulted. *)
Theorem iso_date_roundtrip (y m d : Z) :
  0 <= y <= 9999 -> 1 <= m <= 12 -> 1 <= d <= 31 ->
  parse_iso_date (iso_date_string y m d) = IsoDate y m d /\
  forall E : DateEngine, @date_parse E (iso_date_string y m d) = Some (date_value y m d).
Proof.
  intros Hy Hm Hd. pose proof (parse_iso_date_string y m d Hy Hm Hd) as Hp.
  split; [done|]. intros E. unfold date_parse. by rewrite Hp.
Qed.

Lemma iso_date_string_nonempty (y m d : Z) : iso_date_string y m d <> EmptyString.
Proof.
  intros He. apply (f_equal list_ascii_of_string) in He.
  unfold iso_date_string in He. rewrite list_ascii_of_string_of_list_ascii in He.
  apply (f_equal List.length) in He. rewrite !length_app, !pad_digits_length in He.
  discriminate.
Qed.

Lemma time_clip_some (t : Z) : Z.abs t <= 8640000000000000 -> time_clip t = Some t.
Proof. intros Ht. unfold time_clip. by rewrite (proj2 (Z.leb_le _ _)). Qed.

Lemma time_clip_inv (t t' : Z) : time_clip t = Some t' -> t' = t /\ Z.abs t <= 8640000000000000.
Proof. unfold time_clip. case_match; [|done]. intros [= ->]. split; [done|]. lia. Qed.

(** [x <= new Date()] at clock [now] stays true at a later clock reading. *)
Lemma date_le_clock_mono (x : option Z) (now now' : Z) :
  now <= now' -> Z.abs now' <= 8640000000000000 ->
  date_le x (new_date_now now) = true -> date_le x (new_date_now now') = true.
Proof.
  unfold new_date_now. intros Hle Hb Hx.
  destruct (time_clip now) as [c|] eqn:Hc; [|by rewrite date_le_none_r in Hx].
  apply time_clip_inv in Hc as [-> _].
  destruct x as [t|]; [|by rewrite date_le_none_l in Hx].
  rewrite time_clip_some by done. rewrite date_le_some in *. lia.
Qed.

#[export] Hint Rewrite date_le_some date_le_none_l date_le_none_r : jsrw.

(** ** Witnesses *)

Lemma iso_date_roundtrip_witness :
  parse_iso_date (iso_date_string 2030 1 1) = IsoDate 2030 1 1 /\
  forall E : DateEngine, @date_parse E (iso_date_string 2030 1 1) = Some (date_value 2030 1 1).
Proof. apply iso_date_roundtrip; lia. Defined.
