(* ===== verification/JsNumberString.v ===== *)
(** * JsNumberString: [Number::toString] (radix 10)

    The progress bar is drawn with [style={{ width: `${progress}%` }}]
    (DynamicForm.jsx line 179): the template literal converts the Number
    [progress] with [Number::toString].  For a finite non-zero [x] the
    algorithm of ECMA-262 picks integers [n], [k], [e] with [k >= 1],
    [10^(k-1) <= n < 10^k], [n * 10^(e-k)] rounding to [x] and [k] as
    small as possible; among the [n] that qualify it takes the one closest
    to [x], the even one on a tie.  The digits are then laid out as an
    integer, a decimal fraction or an exponential form by the size of [e].

    [digits_for k] tries the [k]-digit candidates: the two integers around
    [x / 10^(e-k)] (one when the quotient is exact).  [digits_search]
    tries [k = 1 .. 17]; seventeen significant digits determine every
    binary64 value, so the search succeeds on every value a Number holds,
    and [number_to_string] returns [None] only for a rational that is no
    double.  [number_to_string_reads_back] shows that what is printed
    parses back ([StringToNumber]) to the same Number; [JsNumberTotal]
    shows that the search indeed succeeds on every Number. *)

From S2P Require Import Prelude JsString JsNumber JsDate.
From Stdlib Require Import Ascii String QArith.
Close Scope Q_scope.
Open Scope Z_scope.

(** The decimal digits of [z >= 0], most significant first (the fuel
    [log2 z + 1] exceeds the number of divisions by 10). *)
Fixpoint dec_digits (fuel : nat) (z : Z) : list ascii :=
  match fuel with
  | O => []
  | S f => if z <? 10 then [digit_char z] else dec_digits f (z / 10) ++ [digit_char (z mod 10)]
  end.

Definition z_digits (z : Z) : list ascii := dec_digits (S (Z.to_nat (Z.log2 z))) z.

(** [floor (log10 z)] for [z > 0]: one less than the number of digits. *)
Definition zlog10 (z : Z) : Z := Z.of_nat (List.length (z_digits z)) - 1.

(** [10^e <= a / d] for [d > 0]. *)
Definition pow10_le (e a d : Z) : bool :=
  if 0 <=? e then d * 10 ^ e <=? a else d <=? a * 10 ^ (- e).

(** [floor (log10 (a / d))] for [a, d > 0]. *)
Definition flog10 (a d : Z) : Z :=
  let e0 := zlog10 a - zlog10 d in
  if pow10_le e0 a d then e0 else e0 - 1.

(** [n * 10^t] rounds to the double [a / d]. *)
Definition rounds_to (n t a d : Z) : bool :=
  match round_binary64 (dec_value n t) with
  | JFin y => Qeq_bool y (a # Z.to_pos d)
  | _ => false
  end.

(** A [k]-digit candidate [n] with exponent [e]: a quotient rounded up to
    [10^k] is the [k]-digit [10^(k-1)] with the next exponent; the range
    condition [10^(k-1) <= n < 10^k] of the specification is checked as
    written. *)
Definition pick_candidate (k : nat) (e n : Z) : option (Z * Z) :=
  let '(n', e') := if n =? 10 ^ Z.of_nat k then (n / 10, e + 1) else (n, e) in
  if (10 ^ (Z.of_nat k - 1) <=? n') && (n' <? 10 ^ Z.of_nat k) then Some (n', e') else None.

(** The [k]-digit choice for [a / d]: [(n, e)] with the exponent [e] of the
    layout ([x = n * 10^(e-k)]); the nearer of the two candidates when both
    round to [x], the even one on a tie. *)
Definition digits_for (k : nat) (a d : Z) : option (Z * Z) :=
  let e := flog10 a d + 1 in
  let t := e - Z.of_nat k in
  let num := if 0 <=? t then a else a * 10 ^ (- t) in
  let den := if 0 <=? t then d * 10 ^ t else d in
  let lo := num / den in
  let exact := (num mod den =? 0) in
  match rounds_to lo t a d, negb exact && rounds_to (lo + 1) t a d with
  | true, false => pick_candidate k e lo
  | false, true => pick_candidate k e (lo + 1)
  | true, true =>
      (* [num/den - lo] against [lo + 1 - num/den]: [2 (num mod den)] against [den] *)
      match Z.compare (2 * (num mod den)) den with
      | Lt => pick_candidate k e lo
      | Gt => pick_candidate k e (lo + 1)
      | Eq => if Z.even lo then pick_candidate k e lo else pick_candidate k e (lo + 1)
      end
  | false, false => None
  end.

(** The smallest [k] in [1..17] with a candidate. *)
Fixpoint digits_search_from (fuel k : nat) (a d : Z) : option (Z * nat * Z) :=
  match fuel with
  | O => None
  | S fuel' =>
      match digits_for k a d with
      | Some (n, e) => Some (n, k, e)
      | None => digits_search_from fuel' (S k) a d
      end
  end.

Definition digits_search (a d : Z) : option (Z * nat * Z) := digits_search_from 17 1 a d.

(** Steps 6-10 of [Number::toString]: the layout of [n], [k], [e]. *)
Definition layout (n : Z) (k : nat) (e : Z) : list ascii :=
  let ds := pad_digits k n in
  let kz := Z.of_nat k in
  if (kz <=? e) && (e <=? 21) then ds ++ repeat "0"%char (Z.to_nat (e - kz))
  else if (0 <? e) && (e <=? 21) then
    take (Z.to_nat e) ds ++ ["."%char] ++ drop (Z.to_nat e) ds
  else if (-6 <? e) && (e <=? 0) then
    ["0"%char; "."%char] ++ repeat "0"%char (Z.to_nat (- e)) ++ ds
  else
    let sgn := if 0 <=? e - 1 then "+"%char else "-"%char in
    let ex := z_digits (Z.abs (e - 1)) in
    match ds with
    | [d1] => [d1; "e"%char; sgn] ++ ex
    | d1 :: rest => [d1; "."%char] ++ rest ++ ["e"%char; sgn] ++ ex
    | [] => []
    end.

(** The positive double [a / d]. *)
Definition pos_to_string (a d : Z) : option (list ascii) :=
  match digits_search a d with
  | Some (n, k, e) => Some (layout n k e)
  | None => None
  end.

Definition number_to_string (x : jsnum) : option string :=
  match x with
  | JNaN => Some "NaN"%string
  | JInf false => Some "Infinity"%string
  | JInf true => Some "-Infinity"%string
  | JFin q =>
      let q' := Qred q in
      match Qnum q' with
      | Z0 => Some "0"%string
      | Zpos p => string_of_list_ascii <$> pos_to_string (Zpos p) (Zpos (Qden q'))
      | Zneg p =>
          (fun l => string_of_list_ascii ("-"%char :: l)) <$>
            pos_to_string (Zpos p) (Zpos (Qden q'))
      end
  end.

(** Equality of Numbers, rationals compared by value. *)
Definition jsnum_equiv (x y : jsnum) : Prop :=
  match x, y with
  | JNaN, JNaN => True
  | JInf a, JInf b => a = b
  | JFin a, JFin b => (a == b)%Q
  | _, _ => False
  end.

(** ** Lemmas: reading back the printed digits *)

Lemma digits_acc_repeat0 (m : nat) (acc : Z) :
  digits_acc (repeat "0"%char m) acc = acc * 10 ^ Z.of_nat m.
Proof.
  revert acc. induction m as [|m IH]; intros acc; cbn [repeat digits_acc].
  - change (10 ^ Z.of_nat 0) with 1. lia.
  - rewrite IH, Nat2Z.inj_succ, Z.pow_succ_r by lia.
    change (Z.of_nat (code "0"%char)) with 48. lia.
Qed.

Lemma repeat0_digits (m : nat) : forallb is_ascii_digit (repeat "0"%char m) = true.
Proof. induction m; simpl; auto. Qed.

(** [dec_digits] prints the value of [z] when the fuel bounds its length. *)
Lemma dec_digits_spec (fuel : nat) (z : Z) :
  (1 <= fuel)%nat -> 0 <= z < 10 ^ Z.of_nat fuel ->
  dec_digits fuel z <> [] /\ forallb is_ascii_digit (dec_digits fuel z) = true /\
  forall acc, digits_acc (dec_digits fuel z) acc =
              acc * 10 ^ Z.of_nat (List.length (dec_digits fuel z)) + z.
Proof.
  revert z. induction fuel as [|f IH]; intros z Hf Hz; [lia|]. cbn [dec_digits].
  destruct (Z.ltb_spec z 10).
  - split_and!; [done|simpl; rewrite digit_char_digit by lia; done|].
    intros acc. simpl. rewrite code_digit_char by lia. lia.
  - assert (Hf1 : (1 <= f)%nat).
    { destruct f; [|lia]. simpl in Hz. lia. }
    rewrite Nat2Z.inj_succ, Z.pow_succ_r in Hz by lia.
    destruct (IH (z / 10) Hf1) as (Hne & Hd & Hv).
    { split; [apply Z.div_pos; lia|]. apply Z.div_lt_upper_bound; lia. }
    pose proof (Z.mod_pos_bound z 10 ltac:(lia)).
    split_and!.
    + by destruct (dec_digits f (z / 10)).
    + rewrite forallb_app, Hd. simpl. rewrite digit_char_digit by lia. done.
    + intros acc. rewrite digits_acc_app, Hv. simpl. rewrite code_digit_char by lia.
      rewrite length_app. simpl. rewrite Nat2Z.inj_add, Z.pow_add_r by lia.
      pose proof (Z.div_mod z 10 ltac:(lia)). lia.
Qed.

Lemma z_digits_spec (z : Z) :
  0 <= z ->
  z_digits z <> [] /\ forallb is_ascii_digit (z_digits z) = true /\
  digits_acc (z_digits z) 0 = z.
Proof.
  intros Hz. unfold z_digits.
  destruct (dec_digits_spec (S (Z.to_nat (Z.log2 z))) z) as (Hne & Hd & Hv); [lia| |].
  - split; [done|]. rewrite Nat2Z.inj_succ, Z2Nat.id by apply Z.log2_nonneg.
    destruct (Z.eq_dec z 0) as [->|Hz0]; [simpl; lia|].
    destruct (Z.log2_spec z) as [_ Hlt]; [lia|].
    eapply Z.lt_le_trans; [exact Hlt|].
    apply Z.pow_le_mono_l. split; [lia|lia].
  - split_and!; [done|done|]. rewrite Hv. lia.
Qed.

(** A run of digits stops at the first non-digit. *)
Lemma span_digits_stop (l : list ascii) (c : ascii) (r : list ascii) (acc : Z) (cnt : nat) :
  forallb is_ascii_digit l = true -> digit_val 10 c = None ->
  span_digits 10 (l ++ c :: r) acc cnt = (digits_acc l acc, (cnt + List.length l)%nat, c :: r).
Proof.
  revert acc cnt. induction l as [|d l IH]; intros acc cnt Hl Hc; simpl.
  - rewrite Hc. by rewrite Nat.add_0_r.
  - apply andb_prop in Hl as [Hd Hl]. rewrite digit_val_10 by done.
    rewrite IH by done. do 2 f_equal. lia.
Qed.

(** The printed value of [pad_digits k n] for [0 <= n < 10^k]. *)
Lemma pad_digits_exact (k : nat) (n : Z) :
  0 <= n < 10 ^ Z.of_nat k -> digits_acc (pad_digits k n) 0 = n.
Proof. intros Hn. rewrite pad_digits_value, Z.mod_small by done. lia. Qed.

(** A signed exponent [e+d..d] or [e-d..d]. *)
Lemma parse_exponent_digits (neg : bool) (z : Z) :
  0 <= z ->
  parse_exponent ((if neg then "-"%char else "+"%char) :: z_digits z) =
    Some (if neg then - z else z).
Proof.
  intros Hz. destruct (z_digits_spec z Hz) as (Hne & Hd & Hv).
  unfold parse_exponent.
  destruct neg; simpl; rewrite span_digits_all by done;
    destruct (z_digits z) eqn:Hzd; try done; simpl in *; rewrite Hv; f_equal; lia.
Qed.

(** The code units a layout is made of. *)
Definition layout_char (c : ascii) : bool :=
  is_ascii_digit c || bool_decide (c ∈ ["."%char; "e"%char; "+"%char; "-"%char]).

(** A literal that starts with a digit not followed by a radix letter. *)
Definition digit_head (l : list ascii) : bool :=
  match l with
  | c :: l' =>
      is_ascii_digit c &&
      match l' with
      | c2 :: _ => match radix_of c2 with None => true | Some _ => false end
      | [] => true
      end
  | [] => false
  end.

(** What the parser must find in a layout of [n], [k], [e]. *)
Definition printed (n : Z) (k : nat) (e : Z) (l : list ascii) : Prop :=
  digit_head l = true /\ forallb layout_char l = true /\
  parse_unsigned_decimal l = Some (MVFin (dec_value n (e - Z.of_nat k))).

Lemma layout_char_no_ws (l : list ascii) :
  forallb layout_char l = true -> forallb (fun c => negb (is_js_ws c)) l = true.
Proof.
  rewrite !forallb_forall. intros H c Hc. specialize (H c Hc). unfold layout_char in H.
  apply orb_prop in H as [H|H]; [by rewrite digit_not_ws|].
  apply bool_decide_eq_true, list_elem_of_In in H. simpl in H.
  destruct_or! H; subst; try done; reflexivity.
Qed.

Lemma layout_char_radix (c : ascii) : layout_char c = true -> radix_of c = None.
Proof.
  unfold layout_char. intros H. apply orb_prop in H as [H|H]; [by apply radix_of_digit|].
  apply bool_decide_eq_true, list_elem_of_In in H. simpl in H.
  destruct_or! H; subst; try done; reflexivity.
Qed.

(** A layout led by a digit is read as an unsigned decimal. *)
Lemma digit_head_layout (c : ascii) (l : list ascii) :
  is_ascii_digit c = true -> forallb layout_char (c :: l) = true -> digit_head (c :: l) = true.
Proof.
  intros Hc Hl. simpl. rewrite Hc. simpl in Hl. apply andb_prop in Hl as [_ Hl].
  destruct l as [|c2 l]; [done|]. simpl in Hl. apply andb_prop in Hl as [Hc2 _].
  by rewrite layout_char_radix.
Qed.

Lemma digits_layout_char (l : list ascii) :
  forallb is_ascii_digit l = true -> forallb layout_char l = true.
Proof.
  rewrite !forallb_forall. intros H c Hc. unfold layout_char. by rewrite H.
Qed.

(** The parser reads a digit-led literal as an unsigned decimal. *)
Lemma parse_numeric_literal_head (l : list ascii) :
  digit_head l = true -> parse_numeric_literal l = parse_unsigned_decimal l.
Proof.
  destruct l as [|c l]; [done|]. simpl. intros H. apply andb_prop in H as [Hc Hl].
  destruct c as [[] [] [] [] [] [] [] []];
    try (vm_compute in Hc; discriminate); try reflexivity.
  destruct l as [|c2 l]; [reflexivity|]. simpl.
  destruct (radix_of c2); [discriminate|reflexivity].
Qed.

Lemma digit_not_infinity (c : ascii) (l : list ascii) :
  is_ascii_digit c = true -> bool_decide (c :: l = infinity_chars) = false.
Proof.
  intros Hc. apply bool_decide_false. intros [= -> _]. vm_compute in Hc. discriminate.
Qed.

Lemma digit_head_not_infinity (l : list ascii) :
  digit_head l = true -> bool_decide (l = infinity_chars) = false.
Proof.
  destruct l as [|c l]; [done|]. simpl. intros H. apply andb_prop in H as [Hc _].
  by apply digit_not_infinity.
Qed.

Lemma digit_val_dot : digit_val 10 "."%char = None.
Proof. reflexivity. Qed.

Lemma digit_val_e : digit_val 10 "e"%char = None.
Proof. reflexivity. Qed.

Lemma forallb_take_drop {A} (p : A -> bool) (j : nat) (l : list A) :
  forallb p l = true -> forallb p (take j l) = true /\ forallb p (drop j l) = true.
Proof. rewrite <- (take_drop j l) at 1. rewrite forallb_app. apply andb_prop. Qed.

Lemma sign_char_layout (b : bool) : layout_char (if b then "+"%char else "-"%char) = true.
Proof. by destruct b. Qed.

Section Layout.
Variables (n : Z) (k : nat).
Hypothesis (Hk : (1 <= k)%nat) (Hn : 0 <= n < 10 ^ Z.of_nat k).

Let ds := pad_digits k n.

Lemma ds_facts :
  List.length ds = k /\ forallb is_ascii_digit ds = true /\ digits_acc ds 0 = n.
Proof using Hn.
  subst ds. split_and!; [apply pad_digits_length|apply pad_digits_digits|].
  by apply pad_digits_exact.
Qed.

Lemma ds_head : exists d1 rest, ds = d1 :: rest /\ is_ascii_digit d1 = true.
Proof using Hk Hn.
  destruct ds_facts as (Hl & Hd & _). destruct ds as [|d1 rest]; simpl in Hl; [lia|].
  simpl in Hd. apply andb_prop in Hd as [Hd1 _]. eauto.
Qed.

(** An integer: the digits then [e - k] zeros. *)
Lemma printed_int (e : Z) :
  Z.of_nat k <= e -> printed n k e (ds ++ repeat "0"%char (Z.to_nat (e - Z.of_nat k))).
Proof using Hk Hn.
  intros He. destruct ds_facts as (Hl & Hd & Hv).
  destruct ds_head as (d1 & rest & Hds & Hd1).
  assert (Hall : forallb is_ascii_digit (ds ++ repeat "0"%char (Z.to_nat (e - Z.of_nat k))) = true)
    by (rewrite forallb_app, Hd; apply repeat0_digits).
  assert (Hh : digit_head (ds ++ repeat "0"%char (Z.to_nat (e - Z.of_nat k))) = true).
  { rewrite Hds. simpl. rewrite Hd1. simpl.
    destruct rest as [|c2 rest]; simpl.
    - destruct (Z.to_nat (e - Z.of_nat k)); [done|reflexivity].
    - rewrite Hds in Hd. simpl in Hd. apply andb_prop in Hd as [_ Hd].
      simpl in Hd. apply andb_prop in Hd as [Hc2 _]. by rewrite radix_of_digit. }
  split_and!; [done|by apply digits_layout_char|].
  unfold parse_unsigned_decimal. rewrite digit_head_not_infinity by done.
  rewrite span_digits_all by done.
  rewrite length_app, Hl. simpl.
  rewrite (proj2 (Nat.eqb_neq _ _)) by lia.
  rewrite digits_acc_app, Hv, digits_acc_repeat0, Z2Nat.id by lia.
  unfold dec_value. rewrite (proj2 (Z.leb_le 0 (e - Z.of_nat k))) by lia. simpl.
  change (- Z.of_nat 0) with 0. by rewrite Z.pow_0_r, Z.mul_1_r.
Qed.
(** A decimal fraction: [e] digits, the point, the other [k - e]. *)
Lemma printed_frac (e : Z) :
  0 < e < Z.of_nat k ->
  printed n k e (take (Z.to_nat e) ds ++ ["."%char] ++ drop (Z.to_nat e) ds).
Proof using Hk Hn.
  intros He. destruct ds_facts as (Hl & Hd & Hv).
  destruct ds_head as (d1 & rest & Hds & Hd1).
  change (["."%char] ++ drop (Z.to_nat e) ds)%list with ("."%char :: drop (Z.to_nat e) ds).
  destruct (forallb_take_drop is_ascii_digit (Z.to_nat e) ds Hd) as [Ht Hdr].
  assert (Hlc : forallb layout_char (take (Z.to_nat e) ds ++ "."%char :: drop (Z.to_nat e) ds) = true).
  { rewrite forallb_app, (digits_layout_char _ Ht). simpl. by rewrite (digits_layout_char _ Hdr). }
  destruct (Z.to_nat e) as [|e'] eqn:Hez; [lia|].
  split_and!; [|done|].
  - rewrite Hds in Hlc |- *. simpl in Hlc |- *. apply digit_head_layout; [done|]. exact Hlc.
  - unfold parse_unsigned_decimal. rewrite digit_head_not_infinity.
    2:{ rewrite Hds in Hlc |- *. apply digit_head_layout; [done|exact Hlc]. }
    rewrite span_digits_stop by done. cbn [app].
    rewrite span_digits_all by done.
    rewrite length_take, length_drop, Hl.
    rewrite (proj2 (Nat.eqb_neq _ _)) by lia.
    rewrite <- digits_acc_app, take_drop, Hv.
    f_equal. f_equal. f_equal. lia.
Qed.

(** A small number: ["0."], [-e] zeros, the digits. *)
Lemma printed_small (e : Z) :
  -6 < e <= 0 ->
  printed n k e (["0"%char; "."%char] ++ repeat "0"%char (Z.to_nat (- e)) ++ ds).
Proof using Hk Hn.
  intros He. destruct ds_facts as (Hl & Hd & Hv). unfold ds in *.
  assert (Hz : forallb is_ascii_digit (repeat "0"%char (Z.to_nat (- e)) ++ ds) = true)
    by (rewrite forallb_app, repeat0_digits; exact Hd).
  assert (Hlc : forallb layout_char (["0"%char; "."%char] ++ repeat "0"%char (Z.to_nat (- e)) ++ ds) = true).
  { cbn [app forallb]. rewrite digits_layout_char by done. reflexivity. }
  split_and!; [by apply digit_head_layout| done |].
  unfold parse_unsigned_decimal. rewrite digit_head_not_infinity by (by apply digit_head_layout).
  change (["0"%char; "."%char] ++ repeat "0"%char (Z.to_nat (- e)) ++ pad_digits k n)%list
    with (["0"%char] ++ "."%char :: (repeat "0"%char (Z.to_nat (- e)) ++ pad_digits k n))%list.
  rewrite span_digits_stop by done. cbn [app].
  rewrite span_digits_all by done.
  rewrite length_app, repeat_length, Hl. simpl.
  change (0 * 10 + (Z.of_nat (code "0"%char) - 48)) with 0.
  rewrite digits_acc_app, digits_acc_repeat0, Z.mul_0_l, Hv.
  f_equal. f_equal. f_equal. lia.
Qed.

(** The exponential form: the first digit, the point and the others when
    there are more, then [e], the sign and [|e - 1|]. *)
Lemma printed_exp (e : Z) :
  let sgn := if 0 <=? e - 1 then "+"%char else "-"%char in
  let ex := z_digits (Z.abs (e - 1)) in
  printed n k e
    match ds with
    | [d1] => [d1; "e"%char; sgn] ++ ex
    | d1 :: rest => [d1; "."%char] ++ rest ++ ["e"%char; sgn] ++ ex
    | [] => []
    end%list.
Proof using Hk Hn.
  intros sgn ex. destruct ds_facts as (Hl & Hd & Hv).
  destruct ds_head as (d1 & rest & Hds & Hd1). rewrite Hds.
  destruct (z_digits_spec (Z.abs (e - 1)) ltac:(lia)) as (Hexn & Hexd & Hexv).
  assert (Hexp : parse_exponent (sgn :: ex) = Some (e - 1)).
  { subst sgn ex. destruct (Z.leb_spec 0 (e - 1)).
    - rewrite (parse_exponent_digits false) by lia. f_equal. lia.
    - rewrite (parse_exponent_digits true) by lia. f_equal. lia. }
  assert (Hsl : layout_char sgn = true) by (subst sgn; by destruct (0 <=? e - 1)).
  change (z_digits (Z.abs (e - 1))) with ex in Hexn, Hexd.
  clearbody sgn ex.
  rewrite Hds in Hd, Hv, Hl. simpl in Hd. apply andb_prop in Hd as [_ Hrest].
  destruct rest as [|d2 rest].
  - assert (Hlc : forallb layout_char ([d1; "e"%char; sgn] ++ ex) = true).
    { cbn [app forallb]. rewrite Hsl, digits_layout_char by done.
      unfold layout_char. by rewrite Hd1. }
    split_and!; [by apply digit_head_layout|done|].
    unfold parse_unsigned_decimal. rewrite digit_head_not_infinity by (by apply digit_head_layout).
    change ([d1; "e"%char; sgn] ++ ex)%list with ([d1] ++ "e"%char :: sgn :: ex)%list.
    rewrite span_digits_stop by (first [apply digit_val_e | simpl; rewrite Hd1; done]).
    cbn [app]. simpl in Hl. rewrite <- Hl. simpl. rewrite Hexp. simpl in Hv. rewrite Hv.
    f_equal. f_equal. f_equal. lia.
  - assert (Hlc : forallb layout_char ([d1; "."%char] ++ (d2 :: rest) ++ ["e"%char; sgn] ++ ex) = true).
    { pose proof (digits_layout_char _ Hrest) as Hr'. pose proof (digits_layout_char _ Hexd) as He'.
      rewrite !forallb_app. simpl in Hr' |- *. rewrite Hr', Hsl, He'.
      unfold layout_char at 1. by rewrite Hd1. }
    split_and!; [by apply digit_head_layout|done|].
    unfold parse_unsigned_decimal. rewrite digit_head_not_infinity by (by apply digit_head_layout).
    change ([d1; "."%char] ++ (d2 :: rest) ++ ["e"%char; sgn] ++ ex)%list
      with ([d1] ++ "."%char :: ((d2 :: rest) ++ "e"%char :: sgn :: ex))%list.
    rewrite span_digits_stop by (first [apply digit_val_dot | simpl; rewrite Hd1; done]).
    cbn [app]. rewrite app_comm_cons, span_digits_stop by (first [apply digit_val_e | done]).
    simpl in Hl. rewrite <- Hl. simpl. rewrite Hexp.
    simpl in Hv. rewrite Hv. f_equal. f_equal. f_equal. lia.
Qed.

(** Every layout is read back as [n * 10^(e-k)]. *)
Lemma printed_layout (e : Z) : printed n k e (layout n k e).
Proof using Hk Hn.
  unfold layout. fold ds.
  destruct (Z.leb_spec (Z.of_nat k) e), (Z.leb_spec e 21); simpl;
    [by apply printed_int| | |].
  all: destruct (Z.ltb_spec 0 e); simpl; [try (apply printed_frac; lia)|];
       destruct (Z.ltb_spec (-6) e), (Z.leb_spec e 0); simpl;
       try (apply printed_small; lia); try apply printed_exp; lia.
Qed.
End Layout.

(** ** Lemmas: the digit search *)

Lemma dec_value_shift (q t : Z) : (dec_value (10 * q) t == dec_value q (t + 1))%Q.
Proof.
  unfold dec_value, Qeq. destruct (Z.leb_spec 0 t), (Z.leb_spec 0 (t + 1)); try lia; simpl.
  - rewrite Z.pow_add_r by lia. change (10 ^ 1) with 10. lia.
  - replace t with (-1) by lia. simpl. lia.
  - rewrite !Z2Pos.id by (apply Z.pow_pos_nonneg; lia).
    replace (- t) with (- (t + 1) + 1) by lia. rewrite Z.pow_add_r by lia.
    change (10 ^ 1) with 10. lia.
Qed.

Lemma rounds_to_spec (m t a d : Z) :
  rounds_to m t a d = true ->
  exists y, round_binary64 (dec_value m t) = JFin y /\ (y == a # Z.to_pos d)%Q.
Proof.
  unfold rounds_to. destruct (round_binary64 (dec_value m t)) as [| |y]; try done.
  intros Hy. apply Qeq_bool_eq in Hy. eauto.
Qed.

(** What a candidate that passes the checks satisfies. *)
Definition candidate_ok (k : nat) (a d n e : Z) : Prop :=
  10 ^ (Z.of_nat k - 1) <= n < 10 ^ Z.of_nat k /\
  exists y, round_binary64 (dec_value n (e - Z.of_nat k)) = JFin y /\ (y == a # Z.to_pos d)%Q.

Lemma pick_ok (k : nat) (m e a d n' e' : Z) :
  (1 <= k)%nat -> rounds_to m (e - Z.of_nat k) a d = true ->
  pick_candidate k e m = Some (n', e') ->
  candidate_ok k a d n' e'.
Proof.
  intros Hk Hr. unfold pick_candidate. apply rounds_to_spec in Hr as (y & Hy & Hyq).
  destruct (Z.eqb_spec m (10 ^ Z.of_nat k)) as [Hm|Hm];
    destruct (_ && _) eqn:Hb; try discriminate; intros [= <- <-];
    apply andb_prop in Hb as [H1 H2]; apply Z.leb_le in H1; apply Z.ltb_lt in H2;
    (split; [lia|]); exists y; split; try done.
  (* the carried candidate: [10^k] read as [10^(k-1)] at the next exponent *)
  all: rewrite <- Hy; apply round_binary64_Qeq;
    replace (e + 1 - Z.of_nat k) with (e - Z.of_nat k + 1) by lia;
    rewrite <- dec_value_shift; subst m;
    replace (10 * (10 ^ Z.of_nat k / 10)) with (10 ^ Z.of_nat k); [reflexivity|];
    replace (Z.of_nat k) with (Z.of_nat k - 1 + 1) at 1 2 by lia;
    rewrite Z.pow_add_r by lia; change (10 ^ 1) with 10;
    rewrite Z.div_mul by lia; lia.
Qed.

Lemma digits_for_spec (k : nat) (a d n e : Z) :
  (1 <= k)%nat -> digits_for k a d = Some (n, e) -> candidate_ok k a d n e.
Proof.
  intros Hk. unfold digits_for. cbv zeta.
  destruct (rounds_to _ _ a d) eqn:Hlo, (negb _ && rounds_to _ _ a d) eqn:Hhi;
    try discriminate;
    try (apply andb_prop in Hhi as [_ Hhi]);
    repeat case_match; intros Hp; (eapply pick_ok; [exact Hk| |exact Hp]); assumption.
Qed.

Lemma digits_search_from_spec (fuel k : nat) (a d n : Z) (k' : nat) (e : Z) :
  (1 <= k)%nat -> digits_search_from fuel k a d = Some (n, k', e) ->
  (1 <= k')%nat /\ candidate_ok k' a d n e.
Proof.
  revert k. induction fuel as [|fuel IH]; intros k Hk; simpl; [done|].
  destruct (digits_for k a d) as [[n0 e0]|] eqn:Hd.
  - intros [= -> <- ->]. split; [done|]. by apply digits_for_spec.
  - apply IH. lia.
Qed.

(** ** The round trip *)

Lemma pos_to_string_spec (a d : Z) (l : list ascii) :
  pos_to_string a d = Some l ->
  exists n k e, l = layout n k e /\ (1 <= k)%nat /\ 0 <= n < 10 ^ Z.of_nat k /\
    exists y, round_binary64 (dec_value n (e - Z.of_nat k)) = JFin y /\ (y == a # Z.to_pos d)%Q.
Proof.
  unfold pos_to_string, digits_search.
  destruct (digits_search_from _ 1 a d) as [[[n k] e]|] eqn:Hs; [|done].
  intros [= <-]. apply digits_search_from_spec in Hs as (Hk & Hr & Hy); [|lia].
  pose proof (Z.pow_pos_nonneg 10 (Z.of_nat k - 1) ltac:(lia) ltac:(lia)).
  exists n, k, e. split_and!; try done; lia.
Qed.

(** [StringToNumber] of a printed layout is the rounding of its value. *)
Lemma string_to_number_printed (n : Z) (k : nat) (e : Z) (l : list ascii) :
  printed n k e l ->
  string_to_number (string_of_list_ascii l) = round_binary64 (dec_value n (e - Z.of_nat k)) /\
  string_to_number (string_of_list_ascii ("-"%char :: l)) =
    round_binary64 (- dec_value n (e - Z.of_nat k))%Q.
Proof.
  intros (Hh & Hc & Hp). pose proof (layout_char_no_ws l Hc) as Hw. unfold string_to_number.
  destruct l as [|c l]; [done|]. split.
  - rewrite js_trim_no_ws by (by rewrite list_ascii_of_string_of_list_ascii).
    rewrite list_ascii_of_string_of_list_ascii.
    rewrite parse_numeric_literal_head, Hp by done. done.
  - rewrite js_trim_no_ws.
    2:{ rewrite list_ascii_of_string_of_list_ascii.
        apply (andb_true_intro (conj (eq_refl true) Hw)). }
    rewrite list_ascii_of_string_of_list_ascii.
    cbn [parse_numeric_literal]. rewrite Hp. done.
Qed.

Lemma round_binary64_opp (q y : Q) :
  round_binary64 q = JFin y -> exists y', round_binary64 (- q)%Q = JFin y' /\ (y' == - y)%Q.
Proof.
  unfold round_binary64. rewrite Qred_opp. destruct (Qred q) as [[|p|p] den]; simpl.
  - intros [= <-]. eexists. split; [reflexivity|]. reflexivity.
  - destruct (round_pos _ _) as [v|]; [|done]. intros [= <-]. eexists. split; [reflexivity|].
    reflexivity.
  - destruct (round_pos _ _) as [v|]; [|done]. intros [= <-]. eexists. split; [reflexivity|].
    by rewrite Qopp_involutive.
Qed.

(** What [number_to_string] prints parses back to the same Number, NaN
    and the infinities included. *)
Lemma number_to_string_reads_back (x : jsnum) (s : string) :
  number_to_string x = Some s -> jsnum_equiv (string_to_number s) x.
Proof.
  destruct x as [|[]|q]; simpl; try (intros [= <-]; done).
  pose proof (Qred_correct q) as Hq.
  destruct (Qred q) as [[|p|p] den] eqn:Hr; simpl.
  - intros [= <-]. simpl. rewrite <- Hq. reflexivity.
  - destruct (pos_to_string _ _) as [l|] eqn:Hl; [|done]. intros [= <-].
    apply pos_to_string_spec in Hl as (n & k & e & -> & Hk & Hn & y & Hy & Hyq).
    destruct (string_to_number_printed n k e _ (printed_layout n k Hk Hn e)) as [-> _].
    rewrite Hy. simpl. rewrite Hyq, <- Hq. reflexivity.
  - destruct (pos_to_string _ _) as [l|] eqn:Hl; [|done]. intros [= <-].
    apply pos_to_string_spec in Hl as (n & k & e & -> & Hk & Hn & y & Hy & Hyq).
    change (String "-"%char (string_of_list_ascii (layout n k e))) with (string_of_list_ascii ("-"%char :: layout n k e)).
    destruct (string_to_number_printed n k e _ (printed_layout n k Hk Hn e)) as [_ ->].
    destruct (round_binary64_opp _ _ Hy) as (y' & -> & Hy'). simpl.
    rewrite Hy', Hyq, <- Hq. reflexivity.
Qed.
