(* ===== verification/Rounding.v ===== *)
(** * Rounding: the error of binary64 rounding

    [JsNumber.round_binary64] rounds a rational to the nearest double,
    ties to even.  This file bounds its error: on the normal range
    ([2^-1022 <= |q|]) the result is within a relative [u = 2^-53] of [q]
    ([round_binary64_rel]), the unit roundoff of binary64.  The bound
    composes: [(a / r) * 100], the progress of DynamicForm.jsx line 86,
    rounds twice and is within the relative [(1 + u)^2 - 1] of the exact
    percentage [100 a / r] ([percent_rel]), the two-operation error factor
    of floating-point accuracy proofs, which [FormSpec] uses to relate the
    code's progress to the spec's exact one. *)

From S2P Require Import Prelude JsString JsNumber.
From Stdlib Require Import QArith Qabs Lqa.
Close Scope Q_scope.
Open Scope Z_scope.

(** The unit roundoff [2^-53] and the factor [(1 + u)^2 - 1] of two
    roundings. *)
Definition unit_roundoff : Q := 1 # 9007199254740992.
Definition two_round_factor : Q := (2 * unit_roundoff + unit_roundoff * unit_roundoff)%Q.

(** ** Integer lemmas *)

(** [round_ne N D] is within [D / 2] of [N / D], scaled by [D]. *)
Lemma round_ne_err (N D : Z) : 0 < D -> Z.abs (2 * (round_ne N D * D - N)) <= D.
Proof.
  intros HD. unfold round_ne.
  pose proof (Z.div_mod N D ltac:(lia)) as Hdm. pose proof (Z.mod_pos_bound N D HD) as Hb.
  set (m := N / D) in *. set (r := N mod D) in *.
  destruct (Z.compare_spec (2 * r) D); [destruct (Z.even m)|..]; lia.
Qed.

(** The lower bound of [flog2]: [2^(flog2 a d) <= a / d]. *)
Lemma flog2_lower (a d : Z) : 0 < a -> 0 < d -> pow2_le (flog2 a d) a d = true.
Proof.
  intros Ha Hd. unfold flog2. cbv zeta. destruct (pow2_le (Z.log2 a - Z.log2 d) a d) eqn:He; [done|].
  pose proof (Z.log2_spec a Ha) as [Ha1 Ha2]. pose proof (Z.log2_spec d Hd) as [Hd1 Hd2].
  pose proof (Z.log2_nonneg a). pose proof (Z.log2_nonneg d).
  set (la := Z.log2 a) in *. set (ld := Z.log2 d) in *.
  unfold pow2_le. destruct (Z.leb_spec 0 (la - ld - 1)) as [Hs|Hs]; apply Z.leb_le.
  - assert (Hp : 2 ^ Z.succ ld * 2 ^ (la - ld - 1) = 2 ^ la)
      by (rewrite <- Z.pow_add_r by lia; f_equal; lia).
    pose proof (Z.pow_pos_nonneg 2 (la - ld - 1) ltac:(lia) Hs). nia.
  - assert (Hp : 2 ^ la * 2 ^ (- (la - ld - 1)) = 2 ^ Z.succ ld)
      by (rewrite <- Z.pow_add_r by lia; f_equal; lia).
    pose proof (Z.pow_pos_nonneg 2 (- (la - ld - 1)) ltac:(lia) ltac:(lia)). nia.
Qed.

(** The upper bound: [a / d < 2^(flog2 a d + 1)]. *)
Lemma flog2_upper (a d : Z) : 0 < a -> 0 < d -> pow2_le (flog2 a d + 1) a d = false.
Proof.
  intros Ha Hd. unfold flog2. cbv zeta.
  destruct (pow2_le (Z.log2 a - Z.log2 d) a d) eqn:He;
    [|by replace (Z.log2 a - Z.log2 d - 1 + 1) with (Z.log2 a - Z.log2 d) by lia].
  pose proof (Z.log2_spec a Ha) as [Ha1 Ha2]. pose proof (Z.log2_spec d Hd) as [Hd1 Hd2].
  pose proof (Z.log2_nonneg a). pose proof (Z.log2_nonneg d).
  set (la := Z.log2 a) in *. set (ld := Z.log2 d) in *.
  unfold pow2_le. destruct (Z.leb_spec 0 (la - ld + 1)) as [Hs|Hs]; apply Z.leb_gt.
  - assert (Hp : 2 ^ ld * 2 ^ (la - ld + 1) = 2 ^ Z.succ la)
      by (rewrite <- Z.pow_add_r by lia; f_equal; lia).
    pose proof (Z.pow_pos_nonneg 2 (la - ld + 1) ltac:(lia) Hs). nia.
  - assert (Hp : 2 ^ Z.succ la * 2 ^ (- (la - ld + 1)) = 2 ^ ld)
      by (rewrite <- Z.pow_add_r by lia; f_equal; lia).
    pose proof (Z.pow_pos_nonneg 2 (- (la - ld + 1)) ltac:(lia) ltac:(lia)). nia.
Qed.

(** ** Rational lemmas *)

Lemma Qdiv_frac (a : Z) (D : positive) : (inject_Z a / inject_Z (Zpos D) == a # D)%Q.
Proof. unfold Qeq, Qdiv, Qmult, Qinv. simpl. lia. Qed.

(** [|n / p| <= c / q], cross-multiplied. *)
Lemma Qabs_frac_le (n c : Z) (p q : positive) :
  Z.abs n * Zpos q <= c * Zpos p -> (Qabs (n # p) <= c # q)%Q.
Proof. unfold Qle. simpl. done. Qed.

(** ** One rounding *)

(** On the normal range, [round_pos a d] is within [u * a / d] of [a / d]. *)
Lemma round_pos_rel (a : Z) (D : positive) (v : Q) :
  0 < a -> -1022 <= flog2 a (Zpos D) -> round_pos a (Zpos D) = Some v ->
  (Qabs (v - (a # D)) <= (a # D) * unit_roundoff)%Q.
Proof.
  intros Ha He Hr. unfold round_pos in Hr.
  pose proof (flog2_lower a (Zpos D) Ha ltac:(lia)) as Hlo.
  set (e := flog2 a (Zpos D)) in *.
  replace (Z.max (e - 52) (-1074)) with (e - 52) in Hr by lia.
  unfold pow2_le in Hlo. unfold unit_roundoff.
  change ((a # D) * (1 # 9007199254740992))%Q with (a * 1 # D * 9007199254740992)%Q.
  destruct (Z.leb_spec 0 (e - 52)) as [Hq|Hq]; simpl in Hr.
  - rewrite (proj2 (Z.leb_le 0 e)) in Hlo by lia. apply Z.leb_le in Hlo.
    set (m := round_ne a (Zpos D * 2 ^ (e - 52))) in *.
    destruct (2 ^ 1024 <=? m * 2 ^ (e - 52)); [discriminate|]. injection Hr as <-.
    unfold dyadic. rewrite (proj2 (Z.leb_le 0 (e - 52))) by lia.
    pose proof (round_ne_err a (Zpos D * 2 ^ (e - 52))
                  ltac:(pose proof (Z.pow_pos_nonneg 2 (e - 52)); lia)) as Herr. fold m in Herr.
    assert (Hp : 2 ^ e = 2 ^ (e - 52) * 2 ^ 52) by (rewrite <- Z.pow_add_r by lia; f_equal; lia).
    apply Qabs_frac_le. simpl. nia.
  -
    set (k := - (e - 52)) in *.
    set (m := round_ne (a * 2 ^ k) (Zpos D)) in *. injection Hr as <-.
    unfold dyadic. rewrite (proj2 (Z.leb_gt 0 (e - 52))) by lia. fold k.
    pose proof (Z.pow_pos_nonneg 2 k ltac:(lia) ltac:(lia)) as Hk.
    pose proof (round_ne_err (a * 2 ^ k) (Zpos D) ltac:(lia)) as Herr. fold m in Herr.
    assert (H53 : Zpos D * 2 ^ 53 <= 2 * a * 2 ^ k).
    { destruct (Z.leb_spec 0 e) as [He0|He0].
      - simpl in Hlo. apply Z.leb_le in Hlo.
        assert (2 ^ 53 = 2 ^ e * 2 ^ (k + 1)) by (rewrite <- Z.pow_add_r by lia; f_equal; lia).
        assert (2 * 2 ^ k = 2 ^ (k + 1)) by (rewrite Z.pow_add_r by lia; lia). nia.
      - simpl in Hlo. apply Z.leb_le in Hlo.
        assert (2 ^ k = 2 ^ (- e) * 2 ^ 52) by (rewrite <- Z.pow_add_r by lia; f_equal; lia).
        nia. }
    rewrite (Qred_correct (m # Z.to_pos (2 ^ k))).
    apply Qabs_frac_le. simpl. rewrite ?Pos2Z.inj_mul, ?Z2Pos.id by lia. nia.
Qed.

(** No overflow below [2^1023]: [round_pos] returns a value. *)
Lemma round_pos_some (a : Z) (D : positive) :
  0 < a -> pow2_le 1023 a (Zpos D) = false -> is_Some (round_pos a (Zpos D)).
Proof.
  intros Ha Hmax. unfold round_pos.
  pose proof (flog2_lower a (Zpos D) Ha ltac:(lia)) as Hlo.
  pose proof (flog2_upper a (Zpos D) Ha ltac:(lia)) as Hup.
  set (e := flog2 a (Zpos D)) in *.
  destruct (Z.leb_spec 0 (Z.max (e - 52) (-1074))) as [Hq|Hq]; simpl; [|by eexists].
  replace (Z.max (e - 52) (-1074)) with (e - 52) in * by lia.
  unfold pow2_le in Hlo, Hup, Hmax. simpl in Hmax.
  rewrite (proj2 (Z.leb_le 0 e)) in Hlo by lia. rewrite (proj2 (Z.leb_le 0 (e + 1))) in Hup by lia.
  apply Z.leb_le in Hlo. apply Z.leb_gt in Hup, Hmax.
  assert (He : e < 1023).
  { destruct (Z.ltb_spec e 1023) as [|Hge]; [done|].
    assert (2 ^ 1023 <= 2 ^ e) by (apply Z.pow_le_mono_r; lia). nia. }
  set (P := 2 ^ (e - 52)). pose proof (Z.pow_pos_nonneg 2 (e - 52) ltac:(lia) Hq) as HP. fold P in HP.
  assert (Hp1 : 2 ^ (e + 1) = 2 ^ 53 * P) by (unfold P; rewrite <- Z.pow_add_r by lia; f_equal; lia).
  assert (Hp2 : 2 ^ 1024 = 2 ^ (1023 - e) * 2 ^ (e + 1)) by (rewrite <- Z.pow_add_r by lia; f_equal; lia).
  pose proof (Z.pow_pos_nonneg 2 (1023 - e) ltac:(lia) ltac:(lia)).
  pose proof (round_ne_err a (Zpos D * P) ltac:(lia)) as Herr.
  set (m := round_ne a (Zpos D * P)) in *. set (X := Zpos D * P) in *.
  assert (Hm : m * X < (2 ^ 53 + 1) * X) by (unfold X in *; nia).
  assert (Hm' : m < 2 ^ 53 + 1) by (apply (Z.mul_lt_mono_pos_r X); unfold X; lia).
  rewrite (proj2 (Z.leb_gt _ _)); [by eexists|]. nia.
Qed.

(** The exact percentage [a / r * 100] of the spec. *)
Definition exact_percent (a r : nat) : Q :=
  (inject_Z (Z.of_nat a) / inject_Z (Z.of_nat r) * 100)%Q.

(** The least positive normal double [2^-1022] and [2^1023]. *)
Definition min_normal : Q := Eval vm_compute in (1 # Z.to_pos (2 ^ 1022)).
Definition pow2_1023 : Q := Eval vm_compute in inject_Z (2 ^ 1023).

(** ** Rounding a positive rational *)

(** On the normal range, [round_binary64 q] is a double within the
    relative unit roundoff [2^-53] of [q]. *)
Lemma round_binary64_rel (q : Q) :
  (0 < q)%Q -> (min_normal <= q)%Q -> (q < pow2_1023)%Q ->
  exists v, round_binary64 q = JFin v /\ (Qabs (v - q) <= q * unit_roundoff)%Q.
Proof.
  intros Hq Hmin Hmax. unfold round_binary64.
  destruct (Qred q) as [n D] eqn:Hred.
  pose proof (Qred_correct q) as Hqr. rewrite Hred in Hqr.
  assert (Hq' : (0 < n # D)%Q) by (eapply Qlt_le_trans; [exact Hq|]; rewrite Hqr; apply Qle_refl).
  assert (Hmin' : (min_normal <= n # D)%Q) by (eapply Qle_trans; [exact Hmin|]; rewrite Hqr; apply Qle_refl).
  assert (Hmax' : (n # D < pow2_1023)%Q) by (eapply Qle_lt_trans; [|exact Hmax]; rewrite Hqr; apply Qle_refl).
  enough (Hv : exists v, match n with
                        | 0 => JFin 0
                        | Z.pos p => match round_pos (Z.pos p) (Z.pos D) with Some v => JFin v | None => JInf false end
                        | Z.neg p => match round_pos (Z.pos p) (Z.pos D) with Some v => JFin (- v) | None => JInf true end
                        end = JFin v /\ (Qabs (v - (n # D)) <= (n # D) * unit_roundoff)%Q).
  { destruct Hv as (v & Hv & Hb). exists v. split; [exact Hv|]. rewrite <- Hqr. exact Hb. }
  clear Hq Hmin Hmax Hred Hqr q. rename Hq' into Hq, Hmin' into Hmin, Hmax' into Hmax.
  destruct n as [|p|p]; [unfold Qlt in Hq; simpl in Hq; lia| |unfold Qlt in Hq; simpl in Hq; lia].
  destruct (round_pos_some (Zpos p) D) as [v Hv]; [lia| |].
  { unfold pow2_le. simpl. apply Z.leb_gt. unfold pow2_1023, Qlt in Hmax. simpl in Hmax. lia. }
  rewrite Hv. exists v. split; [done|]. apply round_pos_rel; [lia| |done].
  destruct (Z.leb_spec (-1022) (flog2 (Zpos p) (Zpos D))) as [|Hlt]; [done|exfalso].
  pose proof (flog2_upper (Zpos p) (Zpos D) ltac:(lia) ltac:(lia)) as Hup.
  unfold pow2_le in Hup. rewrite (proj2 (Z.leb_gt 0 _)) in Hup by lia. apply Z.leb_gt in Hup.
  unfold min_normal, Qle in Hmin. simpl in Hmin.
  assert (2 ^ 1022 <= 2 ^ (- (flog2 (Zpos p) (Zpos D) + 1))) by (apply Z.pow_le_mono_r; lia).
  change (Z.pos 44942328371557897693232629769725618340449424473557664318357520289433168951375240783177119330601884005280028469967848339414697442203604155623211857659868531094441973356216371319075554900311523529863270738021251442209537670585615720368478277635206809290837627671146574559986811484619929076208839082406056034304) with (2 ^ 1022) in Hmin.
  nia.
Qed.

(** ** The progress expression *)

Lemma js_div_nat (a r : nat) :
  (0 < r)%nat ->
  js_div (num_of_nat a) (num_of_nat r) = round_binary64 (inject_Z (Z.of_nat a) / inject_Z (Z.of_nat r)).
Proof.
  intros Hr. unfold js_div, num_of_nat.
  assert (Hb : Qeq_bool (inject_Z (Z.of_nat r)) 0 = false).
  { apply not_true_is_false. intros Hq. apply Qeq_bool_eq in Hq. unfold Qeq in Hq. simpl in Hq. lia. }
  by rewrite Hb.
Qed.

(** The progress [(a / r) * 100] is within [(1 + u)^2 - 1] of the exact
    percentage. *)
Lemma percent_rel (a r : nat) :
  (0 < r)%nat -> (a <= r)%nat -> Z.of_nat r < 2 ^ 53 ->
  exists x, js_mul (js_div (num_of_nat a) (num_of_nat r)) (num_lit 100) = JFin x /\
    (Qabs (x - exact_percent a r) <= exact_percent a r * two_round_factor)%Q.
Proof.
  intros Hr Har Hr53.
  rewrite js_div_nat by done. unfold exact_percent.
  destruct (Z.of_nat r) as [|R|R] eqn:HR; [lia| |lia].
  pose proof (Qdiv_frac (Z.of_nat a) R) as Hq. rewrite (round_binary64_Qeq _ _ Hq).
  destruct a as [|a'].
  { exists 0%Q. split; [reflexivity|]. unfold two_round_factor, unit_roundoff.
    assert (Hz : (0 # R == 0)%Q) by (unfold Qeq; simpl; lia).
    apply Qabs_Qle_condition. change (Z.of_nat 0) with 0 in *. split; lra. }
  set (a := S a') in *. set (q1 := (Z.of_nat a # R)%Q) in *.
  assert (Hlo : (1 # 9007199254740992 <= q1)%Q) by (unfold q1, Qle; simpl; lia).
  assert (Hhi : (q1 <= 1)%Q) by (unfold q1, Qle; simpl; lia).
  destruct (round_binary64_rel q1) as (x1 & Hx1 & Hb1).
  { unfold q1, Qlt. simpl. lia. }
  { unfold min_normal, q1, Qle. simpl. lia. }
  { unfold pow2_1023, q1, Qlt. simpl. lia. }
  rewrite Hx1. unfold js_mul, num_lit.
  unfold unit_roundoff in Hb1. apply Qabs_Qle_condition in Hb1 as [Hb1 Hb1'].
  destruct (round_binary64_rel (x1 * inject_Z 100)) as (x2 & Hx2 & Hb2).
  { unfold inject_Z. lra. }
  { unfold min_normal, inject_Z. lra. }
  { unfold pow2_1023, inject_Z. lra. }
  rewrite Hx2. exists x2. split; [done|].
  unfold unit_roundoff, inject_Z in Hb2. apply Qabs_Qle_condition in Hb2 as [Hb2 Hb2'].
  unfold two_round_factor, unit_roundoff. apply Qabs_Qle_condition. split; lra.
Qed.
