(* ===== verification/JsNumberTotal.v ===== *)
(** * JsNumberTotal: [Number::toString] prints every Number

    [JsNumberString.digits_search] tries the digit counts [k = 1 .. 17]
    and gives up after the seventeenth.  This file shows that it never
    gives up on a value a Number holds: for every rational [q], the
    double [round_binary64 q] prints, and the printed string reads back
    to it.

    The argument is the classical one.  A positive double is
    [M * 2^E] with [-1074 <= E <= 971], [0 < M < 2^53] and
    [2^52 <= M] unless [E = -1074] ([canon], from [round_pos_canon]).
    Every rational within the relative distance [10^-16 / 2] of it rounds
    back to it ([round_near]): the gap to the neighbouring doubles is at
    least [2^E] above and [2^(E-1)] below, and [10^16 > 2^53].  With
    [e = floor (log10 x) + 1] the seventeen-digit candidates of
    [digits_for 17] are the integers around [x / 10^(e-17) >= 10^16]; the
    nearer one is within [10^(e-17) / 2 <= x / (2 * 10^16)] of [x], so it
    rounds back ([digits_for_17]).

    The proofs work with integers: [b^e] for an exponent [e] of either
    sign is the quotient [up b e / dn b e] of two positive powers, and the
    comparisons [pow2_le], [pow10_le] and the roundings are rewritten to
    cross-multiplied forms. *)

From S2P Require Import Prelude JsString JsNumber JsNumberString Rounding.
From Stdlib Require Import Ascii String QArith Qabs.
Close Scope Q_scope.
Open Scope Z_scope.

(** [b^e] as the quotient [up b e / dn b e]. *)
Definition up (b e : Z) : Z := b ^ Z.max e 0.
Definition dn (b e : Z) : Z := b ^ Z.max (- e) 0.

(** [b^e <= a / d]: [pow2_le] is the case [b = 2], [pow10_le] the case [b = 10]. *)
Definition powb_le (b e a d : Z) : bool :=
  if 0 <=? e then d * b ^ e <=? a else d <=? a * b ^ (- e).

(** A positive double in canonical form [M * 2^E]. *)
Definition canon (M E : Z) : Prop :=
  -1074 <= E <= 971 /\ 0 < M < 2 ^ 53 /\ (2 ^ 52 <= M \/ E = -1074).

(** ** Powers of either sign *)

Section Powers.
Variable b : Z.
Hypothesis Hb : 1 < b.

Lemma up_pos (e : Z) : 0 < up b e.
Proof using Hb. unfold up. apply Z.pow_pos_nonneg; lia. Qed.

Lemma dn_pos (e : Z) : 0 < dn b e.
Proof using Hb. unfold dn. apply Z.pow_pos_nonneg; lia. Qed.

Lemma up_nonneg (e : Z) : 0 <= e -> up b e = b ^ e /\ dn b e = 1.
Proof using Hb. intros He. unfold up, dn. rewrite Z.max_l, Z.max_r by lia. done. Qed.

Lemma up_neg (e : Z) : e < 0 -> up b e = 1 /\ dn b e = b ^ (- e).
Proof using Hb. intros He. unfold up, dn. rewrite Z.max_r, Z.max_l by lia. done. Qed.

(** [b^(x+y) = b^x * b^y], cross-multiplied. *)
Lemma up_dn_split (x y : Z) :
  up b (x + y) * dn b x * dn b y = up b x * up b y * dn b (x + y).
Proof using Hb. unfold up, dn. rewrite <- !Z.pow_add_r by lia. f_equal. lia. Qed.

Lemma powb_le_uniform (e a d : Z) : powb_le b e a d = (d * up b e <=? a * dn b e).
Proof using Hb.
  unfold powb_le. destruct (Z.leb_spec 0 e) as [He|He].
  - destruct (up_nonneg e He) as [-> ->]. by rewrite Z.mul_1_r.
  - destruct (up_neg e He) as [-> ->]. by rewrite Z.mul_1_r.
Qed.

(** [b^k <= a / d] iff [b^(k-T) <= (a / d) / b^T]. *)
Lemma powb_le_scale (k T a d : Z) :
  powb_le b k a d = powb_le b (k - T) (a * dn b T) (d * up b T).
Proof using Hb.
  rewrite !powb_le_uniform. pose proof (up_dn_split (k - T) T) as Hs.
  replace (k - T + T) with k in Hs by lia.
  pose proof (dn_pos k). pose proof (dn_pos (k - T)). pose proof (dn_pos T).
  apply Bool.eq_iff_eq_true. rewrite !Z.leb_le.
  rewrite (Z.mul_le_mono_pos_r (d * up b k) (a * dn b k) (dn b (k - T) * dn b T)) by lia.
  rewrite (Z.mul_le_mono_pos_r (d * up b T * up b (k - T)) (a * dn b T * dn b (k - T)) (dn b k)) by lia.
  replace (d * up b k * (dn b (k - T) * dn b T)) with (d * (up b k * dn b (k - T) * dn b T)) by ring.
  rewrite Hs. split; intros Hle; lia.
Qed.

Lemma powb_le_mono (k k' a d : Z) :
  0 <= d -> k <= k' -> powb_le b k' a d = true -> powb_le b k a d = true.
Proof using Hb.
  intros Hd Hk. rewrite (powb_le_scale k' k), (powb_le_scale k k). rewrite Z.sub_diag.
  unfold powb_le. rewrite (proj2 (Z.leb_le 0 (k' - k))) by lia. simpl.
  rewrite !Z.leb_le. pose proof (Z.pow_pos_nonneg b (k' - k) ltac:(lia) ltac:(lia)).
  pose proof (up_pos k). nia.
Qed.

(** [b^(la - ld - 1) <= a / d < b^(la - ld + 1)] from the digit counts. *)
Lemma powb_le_logs (la ld a d : Z) :
  0 <= la -> 0 <= ld -> b ^ la <= a < b ^ (la + 1) -> b ^ ld <= d < b ^ (ld + 1) ->
  powb_le b (la - ld - 1) a d = true /\ powb_le b (la - ld + 1) a d = false.
Proof using Hb.
  intros Hla Hld Ha Hd. rewrite !powb_le_uniform.
  pose proof (up_dn_split (la - ld - 1) (ld + 1)) as H1.
  pose proof (up_dn_split (la - ld + 1) ld) as H2.
  replace (la - ld - 1 + (ld + 1)) with la in H1 by lia.
  replace (la - ld + 1 + ld) with (la + 1) in H2 by lia.
  destruct (up_nonneg la Hla) as [Hu1 Hd1]. destruct (up_nonneg (la + 1) ltac:(lia)) as [Hu2 Hd2].
  destruct (up_nonneg ld Hld) as [Hu3 Hd3]. destruct (up_nonneg (ld + 1) ltac:(lia)) as [Hu4 Hd4].
  rewrite Hu1, Hd1, Hu4, Hd4 in H1. rewrite Hu2, Hd2, Hu3, Hd3 in H2.
  pose proof (up_pos (la - ld - 1)). pose proof (dn_pos (la - ld - 1)).
  pose proof (up_pos (la - ld + 1)). pose proof (dn_pos (la - ld + 1)).
  split; [apply Z.leb_le|apply Z.leb_gt]; nia.
Qed.

End Powers.

Lemma pow2_le_powb (e a d : Z) : pow2_le e a d = powb_le 2 e a d.
Proof. reflexivity. Qed.

Lemma pow10_le_powb (e a d : Z) : pow10_le e a d = powb_le 10 e a d.
Proof. reflexivity. Qed.

(** ** [flog2]: uniqueness and scaling *)

Lemma flog2_unique (k a d : Z) :
  0 < a -> 0 < d -> pow2_le k a d = true -> pow2_le (k + 1) a d = false -> flog2 a d = k.
Proof.
  intros Ha Hd Hk Hk1. pose proof (flog2_lower a d Ha Hd) as Hl. pose proof (flog2_upper a d Ha Hd) as Hu.
  rewrite pow2_le_powb in *.
  destruct (Z.lt_trichotomy (flog2 a d) k) as [Hlt|[Heq|Hgt]]; [|done|].
  - rewrite (powb_le_mono 2 ltac:(lia) (flog2 a d + 1) k) in Hu by (lia || done). done.
  - rewrite (powb_le_mono 2 ltac:(lia) (k + 1) (flog2 a d)) in Hk1 by (lia || done). done.
Qed.

Lemma flog2_lt (k a d : Z) : 0 < a -> 0 < d -> pow2_le k a d = false -> flog2 a d < k.
Proof.
  intros Ha Hd Hk. pose proof (flog2_lower a d Ha Hd) as Hl. rewrite pow2_le_powb in *.
  destruct (Z.ltb_spec (flog2 a d) k) as [|Hge]; [done|].
  by rewrite (powb_le_mono 2 ltac:(lia) k (flog2 a d)) in Hk by (lia || done).
Qed.

(** [log2 (a / d) = E + log2 ((a / d) / 2^E)]. *)
Lemma flog2_scale (E a d : Z) :
  0 < a -> 0 < d -> flog2 a d = E + flog2 (a * dn 2 E) (d * up 2 E).
Proof.
  intros Ha Hd. pose proof (up_pos 2 ltac:(lia) E). pose proof (dn_pos 2 ltac:(lia) E).
  apply flog2_unique; [done|done|..]; rewrite pow2_le_powb, (powb_le_scale 2 ltac:(lia) _ E).
  - replace (E + _ - E) with (flog2 (a * dn 2 E) (d * up 2 E)) by lia. apply flog2_lower; nia.
  - replace (E + _ + 1 - E) with (flog2 (a * dn 2 E) (d * up 2 E) + 1) by lia. apply flog2_upper; nia.
Qed.

(** ** Rationals as cross-multiplied integers *)

Lemma dyadic_frac (M E : Z) : (dyadic M E == (M * up 2 E) # Z.to_pos (dn 2 E))%Q.
Proof.
  unfold dyadic. destruct (Z.leb_spec 0 E) as [He|He].
  - destruct (up_nonneg 2 ltac:(lia) E He) as [-> ->]. reflexivity.
  - rewrite Qred_correct. destruct (up_neg 2 ltac:(lia) E He) as [-> ->]. by rewrite Z.mul_1_r.
Qed.

Lemma dec_value_frac (c t : Z) : (dec_value c t == (c * up 10 t) # Z.to_pos (dn 10 t))%Q.
Proof.
  unfold dec_value. destruct (Z.leb_spec 0 t) as [Ht|Ht].
  - destruct (up_nonneg 10 ltac:(lia) t Ht) as [-> ->]. reflexivity.
  - destruct (up_neg 10 ltac:(lia) t Ht) as [-> ->]. by rewrite Z.mul_1_r.
Qed.

(** [K * |a / d - X / Y| <= X / Y], cross-multiplied. *)
Lemma Qclose_iff (K a X : Z) (d Y : positive) :
  0 <= K ->
  ((inject_Z K * Qabs ((a # d) - (X # Y)) <= X # Y)%Q <->
   K * Z.abs (a * Zpos Y - X * Zpos d) <= X * Zpos d).
Proof.
  intros HK. unfold Qle, Qminus, Qplus, Qopp, Qmult, Qabs, inject_Z. simpl.
  rewrite Pos2Z.inj_mul. replace (a * Zpos Y + - X * Zpos d) with (a * Zpos Y - X * Zpos d) by lia.
  split; intros Hle; nia.
Qed.

(** [2^53 * 2^(E-1) = 2^52 * 2^E]. *)
Lemma dyadic_shift (E : Z) : (dyadic (2 ^ 53) (E - 1) == dyadic (2 ^ 52) E)%Q.
Proof.
  rewrite !dyadic_frac. pose proof (up_dn_split 2 ltac:(lia) (E - 1) 1) as Hs.
  replace (E - 1 + 1) with E in Hs by lia.
  destruct (up_nonneg 2 ltac:(lia) 1 ltac:(lia)) as [Hu1 Hd1]. rewrite Hu1, Hd1 in Hs.
  pose proof (dn_pos 2 ltac:(lia) E). pose proof (dn_pos 2 ltac:(lia) (E - 1)).
  unfold Qeq. simpl. rewrite !Z2Pos.id by lia. lia.
Qed.

(** ** Rounding to the nearest integer, [round_pos] *)

Lemma round_ne_unique (N D M : Z) : 0 < D -> Z.abs (2 * (N - M * D)) < D -> round_ne N D = M.
Proof.
  intros HD Hc. unfold round_ne.
  pose proof (Z.div_mod N D ltac:(lia)) as Hdm. pose proof (Z.mod_pos_bound N D HD) as Hb.
  set (m := N / D) in *. set (r := N mod D) in *.
  assert (M = m \/ M = m + 1) as [->| ->] by nia;
    destruct (Z.compare_spec (2 * r) D); try destruct (Z.even m); lia.
Qed.

Lemma round_pos_uniform (a d : Z) :
  round_pos a d =
    let qe := Z.max (flog2 a d - 52) (-1074) in
    let m := round_ne (a * dn 2 qe) (d * up 2 qe) in
    if (0 <=? qe) && (2 ^ 1024 <=? m * 2 ^ qe) then None else Some (dyadic m qe).
Proof.
  unfold round_pos. cbv zeta. set (qe := Z.max (flog2 a d - 52) (-1074)).
  destruct (Z.leb_spec 0 qe) as [Hq|Hq].
  - destruct (up_nonneg 2 ltac:(lia) qe Hq) as [-> ->]. by rewrite Z.mul_1_r.
  - destruct (up_neg 2 ltac:(lia) qe Hq) as [-> ->]. by rewrite Z.mul_1_r.
Qed.

(** [M * 2^qe] stays below the overflow threshold. *)
Lemma no_overflow (M qe j : Z) : 0 <= qe -> 0 <= M < 2 ^ j -> j + qe <= 1024 -> M * 2 ^ qe < 2 ^ 1024.
Proof.
  intros Hq HM Hj. assert (0 <= j) by (destruct (Z.leb_spec 0 j); [done|]; rewrite Z.pow_neg_r in HM; lia).
  pose proof (Z.pow_pos_nonneg 2 qe ltac:(lia) Hq).
  assert (2 ^ j * 2 ^ qe <= 2 ^ 1024).
  { rewrite <- Z.pow_add_r by lia. apply Z.pow_le_mono_r; lia. }
  nia.
Qed.

(** [round_pos] lands on [M * 2^qe] when [qe] is its exponent and [M] the
    nearest integer to [(a / d) / 2^qe]. *)
Lemma round_pos_hit (a : Z) (D : positive) (M qe : Z) :
  Z.max (flog2 a (Zpos D) - 52) (-1074) = qe ->
  Z.abs (2 * (a * dn 2 qe - M * (Zpos D * up 2 qe))) < Zpos D * up 2 qe ->
  (0 <= qe -> M * 2 ^ qe < 2 ^ 1024) ->
  round_pos a (Zpos D) = Some (dyadic M qe).
Proof.
  intros Hq Hc Hov. rewrite round_pos_uniform. cbv zeta. rewrite Hq.
  pose proof (up_pos 2 ltac:(lia) qe).
  rewrite (round_ne_unique _ _ M) by (lia || done).
  destruct (Z.leb_spec 0 qe) as [Hq0|]; simpl; [|done].
  rewrite (proj2 (Z.leb_gt _ _)) by (apply Hov; lia). done.
Qed.

Lemma pow2_lt_inv (x y : Z) : 0 <= y -> 2 ^ x < 2 ^ y -> x < y.
Proof.
  intros Hy Hlt. destruct (Z.ltb_spec x y) as [|Hge]; [done|].
  pose proof (Z.pow_le_mono_r 2 y x ltac:(lia) Hge). lia.
Qed.

(** ** The doubles [round_pos] produces *)

(** A positive rational rounds to zero or to a double in canonical form. *)
Lemma round_pos_canon (a d : Z) (v : Q) :
  0 < a -> 0 < d -> round_pos a d = Some v ->
  (v == 0)%Q \/ exists M E, canon M E /\ (v == dyadic M E)%Q.
Proof.
  intros Ha Hd. rewrite round_pos_uniform. cbv zeta.
  pose proof (flog2_lower a d Ha Hd) as Hl. pose proof (flog2_upper a d Ha Hd) as Hu.
  set (e := flog2 a d) in *. set (qe := Z.max (e - 52) (-1074)).
  rewrite pow2_le_powb, (powb_le_scale 2 ltac:(lia) _ qe) in Hl.
  rewrite pow2_le_powb, (powb_le_scale 2 ltac:(lia) _ qe) in Hu.
  pose proof (up_pos 2 ltac:(lia) qe). pose proof (dn_pos 2 ltac:(lia) qe).
  set (N := a * dn 2 qe) in *. set (D := d * up 2 qe) in *.
  assert (HN : 0 < N) by (unfold N; nia). assert (HD : 0 < D) by (unfold D; nia).
  pose proof (round_ne_err N D HD) as Herr. set (m := round_ne N D) in *.
  destruct (_ && _) eqn:Hov; [done|]. intros [= <-].
  assert (Hq971 : 0 <= qe -> m * 2 ^ qe < 2 ^ 1024).
  { intros Hq0. rewrite (proj2 (Z.leb_le 0 qe) Hq0) in Hov. by apply Z.leb_gt in Hov. }
  destruct (Z.leb_spec (-1074) (e - 52)) as [Hn|Hs].
  - replace (e - qe) with 52 in Hl by lia. replace (e + 1 - qe) with 53 in Hu by lia.
    unfold powb_le in Hl, Hu. simpl in Hl, Hu. apply Z.leb_le in Hl. apply Z.leb_gt in Hu.
    assert (Hm : 2 ^ 52 <= m <= 2 ^ 53) by nia.
    right. destruct (Z.eq_dec m (2 ^ 53)) as [Hm53|Hm53].
    + exists (2 ^ 52), (qe + 1).
      split; [|rewrite Hm53, <- dyadic_shift; by replace (qe + 1 - 1) with qe by lia].
      assert (qe <= 970).
      { destruct (Z.leb_spec 0 qe) as [Hq0|]; [|lia]. specialize (Hq971 Hq0).
        rewrite Hm53, <- Z.pow_add_r in Hq971 by lia. apply pow2_lt_inv in Hq971; lia. }
      unfold canon. lia.
    + exists m, qe. split; [|reflexivity].
      assert (qe <= 971).
      { destruct (Z.leb_spec 0 qe) as [Hq0|]; [|lia]. specialize (Hq971 Hq0).
        assert (Hp : 2 ^ 52 * 2 ^ qe < 2 ^ 1024) by nia.
        rewrite <- Z.pow_add_r in Hp by lia. apply pow2_lt_inv in Hp; lia. }
      unfold canon. lia.
  - assert (Hu52 : powb_le 2 52 N D = false).
    { destruct (powb_le 2 52 N D) eqn:H52; [|done].
      by rewrite (powb_le_mono 2 ltac:(lia) (e + 1 - qe) 52) in Hu by (lia || done). }
    unfold powb_le in Hu52. simpl in Hu52. apply Z.leb_gt in Hu52.
    assert (Hm : 0 <= m <= 2 ^ 52) by nia.
    destruct (Z.eq_dec m 0) as [->|Hm0].
    + left. rewrite dyadic_frac. unfold Qeq. simpl. lia.
    + right. exists m, qe. split; [|reflexivity]. unfold canon. lia.
Qed.

(** The closeness of [a / D] to [M * 2^E], at the scale [2^E]. *)
Lemma close_int (a : Z) (D : positive) (M E : Z) :
  (inject_Z (2 * 10 ^ 16) * Qabs ((a # D) - dyadic M E) <= dyadic M E)%Q ->
  2 * 10 ^ 16 * Z.abs (a * dn 2 E - M * (Zpos D * up 2 E)) <= M * (Zpos D * up 2 E).
Proof.
  intros H. rewrite dyadic_frac in H. apply Qclose_iff in H; [|lia].
  rewrite Z2Pos.id in H by (apply dn_pos; lia).
  replace (M * (Zpos D * up 2 E)) with (M * up 2 E * Zpos D) by ring. exact H.
Qed.

(** Every rational within the relative distance [10^-16 / 2] of a double
    rounds to it. *)
Lemma round_near (a : Z) (D : positive) (M E : Z) :
  canon M E -> 0 < a ->
  (inject_Z (2 * 10 ^ 16) * Qabs ((a # D) - dyadic M E) <= dyadic M E)%Q ->
  exists w, round_pos a (Zpos D) = Some w /\ (w == dyadic M E)%Q.
Proof.
  intros (HE & HM0 & HMn) Ha Hc. pose proof (close_int _ _ _ _ Hc) as Hz.
  pose proof (up_pos 2 ltac:(lia) E). pose proof (dn_pos 2 ltac:(lia) E).
  set (N := a * dn 2 E) in *. set (D' := Zpos D * up 2 E) in *.
  assert (HN : 0 < N) by (unfold N; nia). assert (HD : 0 < D') by (unfold D'; nia).
  destruct (Z.leb_spec (2 ^ 52 * D') N) as [H1|H1].
  - assert (Hf : flog2 N D' = 52).
    { apply flog2_unique; try lia; unfold pow2_le; simpl; [apply Z.leb_le|apply Z.leb_gt]; nia. }
    exists (dyadic M E). split; [|reflexivity]. apply round_pos_hit.
    + rewrite (flog2_scale E) by lia. fold N D'. rewrite Hf. lia.
    + fold N D'. nia.
    + intros. apply (no_overflow M E 53); lia.
  - assert (HM52 : M <= 2 ^ 52) by nia.
    destruct (Z.eq_dec E (-1074)) as [->|HE1074].
    + exists (dyadic M (-1074)). split; [|reflexivity]. apply round_pos_hit.
      * rewrite (flog2_scale (-1074)) by lia. fold N D'.
        assert (flog2 N D' < 52) by (apply flog2_lt; try lia; unfold pow2_le; simpl; apply Z.leb_gt; lia).
        lia.
      * fold N D'. nia.
      * lia.
    + assert (HM : M = 2 ^ 52) by lia. subst M.
      assert (Hf : flog2 N D' = 51).
      { apply flog2_unique; try lia; unfold pow2_le; simpl; [apply Z.leb_le|apply Z.leb_gt]; nia. }
      rewrite <- dyadic_shift in Hc. pose proof (close_int _ _ _ _ Hc) as Hz2.
      pose proof (up_pos 2 ltac:(lia) (E - 1)).
      exists (dyadic (2 ^ 53) (E - 1)). split; [|apply dyadic_shift]. apply round_pos_hit.
      * rewrite (flog2_scale E) by lia. fold N D'. rewrite Hf. lia.
      * nia.
      * intros. apply (no_overflow _ _ 54); lia.
Qed.

Lemma round_binary64_near (q : Q) (M E : Z) :
  canon M E -> (0 < q)%Q ->
  (inject_Z (2 * 10 ^ 16) * Qabs (q - dyadic M E) <= dyadic M E)%Q ->
  exists w, round_binary64 q = JFin w /\ (w == dyadic M E)%Q.
Proof.
  intros HM Hq Hc. unfold round_binary64. pose proof (Qred_correct q) as Hr.
  destruct (Qred q) as [n P]. rewrite <- Hr in Hc.
  assert (Hn : 0 < n) by (rewrite <- Hr in Hq; unfold Qlt in Hq; simpl in Hq; lia).
  destruct n as [|p|p]; try lia. simpl.
  destruct (round_near (Zpos p) P M E HM ltac:(lia) Hc) as (w & -> & Hw). eauto.
Qed.

(** ** The decimal exponent *)

Lemma dec_digits_length (fuel : nat) (z : Z) :
  (1 <= fuel)%nat -> 0 < z < 10 ^ Z.of_nat fuel ->
  let len := Z.of_nat (List.length (dec_digits fuel z)) in
  1 <= len /\ 10 ^ (len - 1) <= z < 10 ^ len.
Proof.
  revert z. induction fuel as [|f IH]; intros z Hf Hz; [lia|]. cbv zeta. cbn [dec_digits].
  destruct (Z.ltb_spec z 10); [simpl; lia|].
  assert (Hf1 : (1 <= f)%nat) by (destruct f; [simpl in Hz; lia|lia]).
  rewrite Nat2Z.inj_succ, Z.pow_succ_r in Hz by lia.
  destruct (IH (z / 10) Hf1) as (Hl & Hlo & Hhi).
  { split; [apply Z.div_str_pos; lia|apply Z.div_lt_upper_bound; lia]. }
  rewrite length_app, Nat2Z.inj_add. simpl. change (Z.of_nat 1) with 1.
  set (l := Z.of_nat (List.length (dec_digits f (z / 10)))) in *.
  pose proof (Z.div_mod z 10 ltac:(lia)). pose proof (Z.mod_pos_bound z 10 ltac:(lia)).
  replace (l + 1 - 1) with (l - 1 + 1) by lia. rewrite !Z.pow_add_r, !Z.pow_1_r by lia. lia.
Qed.

Lemma zlog10_spec (z : Z) : 0 < z -> 0 <= zlog10 z /\ 10 ^ zlog10 z <= z < 10 ^ (zlog10 z + 1).
Proof.
  intros Hz. unfold zlog10, z_digits.
  destruct (dec_digits_length (S (Z.to_nat (Z.log2 z))) z) as (Hl & Hlo & Hhi); [lia| |].
  - split; [done|]. rewrite Nat2Z.inj_succ, Z2Nat.id by apply Z.log2_nonneg.
    destruct (Z.log2_spec z Hz) as [_ Hlt]. eapply Z.lt_le_trans; [exact Hlt|].
    apply Z.pow_le_mono_l. pose proof (Z.log2_nonneg z). lia.
  - replace (_ - 1 + 1) with (Z.of_nat (List.length (dec_digits (S (Z.to_nat (Z.log2 z))) z))) by lia.
    lia.
Qed.

(** [10^(flog10 a d) <= a / d < 10^(flog10 a d + 1)]. *)
Lemma flog10_bounds (a d : Z) :
  0 < a -> 0 < d -> pow10_le (flog10 a d) a d = true /\ pow10_le (flog10 a d + 1) a d = false.
Proof.
  intros Ha Hd. unfold flog10. cbv zeta.
  destruct (zlog10_spec a Ha) as (Ha0 & Ha1). destruct (zlog10_spec d Hd) as (Hd0 & Hd1).
  destruct (powb_le_logs 10 ltac:(lia) _ _ a d Ha0 Hd0 Ha1 Hd1) as [H1 H2].
  destruct (pow10_le (zlog10 a - zlog10 d) a d) eqn:He; rewrite !pow10_le_powb in *.
  - split; [exact He|exact H2].
  - split; [exact H1|]. by replace (zlog10 a - zlog10 d - 1 + 1) with (zlog10 a - zlog10 d) by lia.
Qed.

(** ** The seventeen-digit candidates *)

Lemma rounds_to_of (c t a : Z) (D : positive) (y : Q) :
  round_binary64 (dec_value c t) = JFin y -> (y == a # D)%Q -> rounds_to c t a (Zpos D) = true.
Proof. intros Hy Hya. unfold rounds_to. rewrite Hy. by apply Qeq_bool_iff. Qed.

(** A candidate [c * 10^t] within half a unit of [(a / D) / 10^t >= 10^16]
    rounds back to the double [a / D]. *)
Lemma rounds_to_near (a : Z) (D : positive) (M E c t : Z) :
  canon M E -> 0 < a -> (a # D == dyadic M E)%Q ->
  10 ^ 16 * (Zpos D * up 10 t) <= a * dn 10 t ->
  Z.abs (2 * (c * (Zpos D * up 10 t) - a * dn 10 t)) <= Zpos D * up 10 t ->
  rounds_to c t a (Zpos D) = true.
Proof.
  intros HM Ha Hv Hlo Hc. pose proof (up_pos 10 ltac:(lia) t). pose proof (dn_pos 10 ltac:(lia) t).
  assert (Hc0 : 0 < c * up 10 t) by nia.
  destruct (round_binary64_near (dec_value c t) M E HM) as (w & Hw & Hwe).
  - rewrite dec_value_frac. unfold Qlt. simpl. rewrite Z2Pos.id by lia. lia.
  - rewrite <- Hv, dec_value_frac. apply Qclose_iff; [lia|]. rewrite Z2Pos.id by lia. nia.
  - apply (rounds_to_of _ _ _ _ w Hw). by rewrite Hwe, Hv.
Qed.

Lemma pick_k (k : nat) (e n : Z) :
  (1 <= k)%nat -> 10 ^ (Z.of_nat k - 1) <= n <= 10 ^ Z.of_nat k -> pick_candidate k e n <> None.
Proof.
  intros Hk Hn. unfold pick_candidate.
  assert (Hp : 10 ^ Z.of_nat k = 10 ^ (Z.of_nat k - 1) * 10)
    by (rewrite Z.mul_comm, <- Z.pow_succ_r by lia; f_equal; lia).
  pose proof (Z.pow_pos_nonneg 10 (Z.of_nat k - 1) ltac:(lia) ltac:(lia)).
  destruct (Z.eqb_spec n (10 ^ Z.of_nat k)) as [->|Hne].
  - assert (Hdiv : 10 ^ Z.of_nat k / 10 = 10 ^ (Z.of_nat k - 1)) by (rewrite Hp, Z.div_mul; lia).
    rewrite Hdiv. destruct (_ && _) eqn:Hb; [discriminate|].
    apply andb_false_iff in Hb as [Hb|Hb]; [apply Z.leb_gt in Hb|apply Z.ltb_ge in Hb]; lia.
  - destruct (_ && _) eqn:Hb; [discriminate|].
    apply andb_false_iff in Hb as [Hb|Hb]; [apply Z.leb_gt in Hb|apply Z.ltb_ge in Hb]; lia.
Qed.

(** With [e = flog10 x + 1] and [t = e - k], [x / 10^t] has [k] digits
    before the point. *)
Lemma digits_for_bounds (k : nat) (a : Z) (D : positive) :
  (1 <= k)%nat -> 0 < a ->
  let t := flog10 a (Zpos D) + 1 - Z.of_nat k in
  10 ^ (Z.of_nat k - 1) * (Zpos D * up 10 t) <= a * dn 10 t < 10 ^ Z.of_nat k * (Zpos D * up 10 t).
Proof.
  intros Hk Ha. cbv zeta. destruct (flog10_bounds a (Zpos D) Ha ltac:(lia)) as [Hl Hu].
  set (t := flog10 a (Zpos D) + 1 - Z.of_nat k).
  rewrite pow10_le_powb, (powb_le_scale 10 ltac:(lia) _ t) in Hl.
  rewrite pow10_le_powb, (powb_le_scale 10 ltac:(lia) _ t) in Hu.
  replace (flog10 a (Zpos D) - t) with (Z.of_nat k - 1) in Hl by lia.
  replace (flog10 a (Zpos D) + 1 - t) with (Z.of_nat k) in Hu by lia.
  rewrite powb_le_uniform in Hl, Hu by lia.
  destruct (up_nonneg 10 ltac:(lia) (Z.of_nat k - 1) ltac:(lia)) as [Hu1 Hd1].
  destruct (up_nonneg 10 ltac:(lia) (Z.of_nat k) ltac:(lia)) as [Hu2 Hd2].
  rewrite Hu1, Hd1 in Hl. rewrite Hu2, Hd2 in Hu. apply Z.leb_le in Hl. apply Z.leb_gt in Hu. lia.
Qed.

(** [digits_for k] returns a candidate as soon as the lower integer
    [lo] rounds back, or the upper one [lo + 1] does when [x / 10^t] is no
    integer. *)
Lemma digits_for_some (k : nat) (a : Z) (D : positive) :
  (1 <= k)%nat -> 0 < a ->
  let t := flog10 a (Zpos D) + 1 - Z.of_nat k in
  let num := a * dn 10 t in
  let den := Zpos D * up 10 t in
  rounds_to (num / den) t a (Zpos D) = true \/
  (num mod den <> 0 /\ rounds_to (num / den + 1) t a (Zpos D) = true) ->
  digits_for k a (Zpos D) <> None.
Proof.
  intros Hk Ha. pose proof (digits_for_bounds k a D Hk Ha) as Hb. cbv zeta in *.
  set (t := flog10 a (Zpos D) + 1 - Z.of_nat k) in *.
  intros Hr. unfold digits_for. cbv zeta. fold t.
  replace (if 0 <=? t then a else a * 10 ^ (- t)) with (a * dn 10 t)
    by (unfold dn; destruct (Z.leb_spec 0 t); [rewrite Z.max_r by lia; lia|by rewrite Z.max_l by lia]).
  replace (if 0 <=? t then Zpos D * 10 ^ t else Zpos D) with (Zpos D * up 10 t)
    by (unfold up; destruct (Z.leb_spec 0 t); [by rewrite Z.max_l by lia|rewrite Z.max_r by lia; lia]).
  pose proof (up_pos 10 ltac:(lia) t). pose proof (dn_pos 10 ltac:(lia) t).
  set (num := a * dn 10 t) in *. set (den := Zpos D * up 10 t) in *.
  assert (Hden : 0 < den) by (unfold den; lia).
  pose proof (Z.div_mod num den ltac:(lia)) as Hdm. pose proof (Z.mod_pos_bound num den Hden).
  set (lo := num / den) in *. set (r := num mod den) in *.
  pose proof (Z.pow_pos_nonneg 10 (Z.of_nat k - 1) ltac:(lia) ltac:(lia)).
  assert (Hp : 10 ^ Z.of_nat k = 10 ^ (Z.of_nat k - 1) * 10)
    by (rewrite Z.mul_comm, <- Z.pow_succ_r by lia; f_equal; lia).
  assert (Hlo : 10 ^ (Z.of_nat k - 1) <= lo < 10 ^ Z.of_nat k) by nia.
  destruct (rounds_to lo t a (Zpos D)) eqn:Hr1, (negb (r =? 0) && rounds_to (lo + 1) t a (Zpos D)) eqn:Hr2;
    try (apply pick_k; [done|lia]).
  - destruct (Z.compare _ _); [destruct (Z.even lo)|..]; apply pick_k; (done || lia).
  - destruct Hr as [Hr|[Hr0 Hr]]; [discriminate|].
    rewrite Hr, (proj2 (Z.eqb_neq r 0) Hr0) in Hr2. discriminate.
Qed.

(** [digits_for 17] finds a candidate for every positive double. *)
Lemma digits_for_17 (a : Z) (D : positive) (M E : Z) :
  canon M E -> 0 < a -> (a # D == dyadic M E)%Q -> digits_for 17 a (Zpos D) <> None.
Proof.
  intros HM Ha Hv. pose proof (digits_for_bounds 17 a D ltac:(lia) Ha) as Hb.
  apply digits_for_some; [lia|done|]. cbv zeta in *.
  set (t := flog10 a (Zpos D) + 1 - Z.of_nat 17) in *.
  change (Z.of_nat 17) with 17 in Hb. simpl in Hb.
  pose proof (up_pos 10 ltac:(lia) t). pose proof (dn_pos 10 ltac:(lia) t).
  set (num := a * dn 10 t) in *. set (den := Zpos D * up 10 t) in *.
  assert (Hden : 0 < den) by (unfold den; lia).
  pose proof (Z.div_mod num den ltac:(lia)). pose proof (Z.mod_pos_bound num den Hden).
  assert (Hnear : forall c, Z.abs (2 * (c * den - num)) <= den -> rounds_to c t a (Zpos D) = true)
    by (intros c Hc; apply (rounds_to_near a D M E c t); try done; lia).
  destruct (Z.ltb_spec (2 * (num mod den)) den); [left|right]; split_and?; try apply Hnear; lia.
Qed.

Lemma digits_search_from_some (fuel k : nat) (a d : Z) :
  (k <= 17 < k + fuel)%nat -> digits_for 17 a d <> None -> digits_search_from fuel k a d <> None.
Proof.
  revert k. induction fuel as [|fuel IH]; intros k Hk H17; simpl; [lia|].
  destruct (digits_for k a d) as [[n e]|] eqn:Hd; [discriminate|].
  destruct (Nat.eq_dec k 17) as [->|Hne]; [done|]. apply IH; [lia|done].
Qed.

(** [digits_search_from] returns the first [k] whose candidates succeed. *)
Lemma digits_search_from_first (fuel k : nat) (a d n : Z) (k' : nat) (e : Z) :
  digits_search_from fuel k a d = Some (n, k', e) ->
  (k <= k')%nat /\ forall j, (k <= j < k')%nat -> digits_for j a d = None.
Proof.
  revert k. induction fuel as [|fuel IH]; intros k; simpl; [discriminate|].
  destruct (digits_for k a d) as [[n0 e0]|] eqn:Hd.
  - intros [= -> <- ->]. split; [lia|]. intros; lia.
  - intros Hs. destruct (IH (S k) Hs) as [Hle Hj]. split; [lia|].
    intros j Hjr. destruct (Nat.eq_dec j k) as [->|]; [done|]. apply Hj. lia.
Qed.

(** ** Every Number prints *)

Lemma dyadic_pos (M E : Z) : 0 < M -> (0 < dyadic M E)%Q.
Proof.
  intros HM. rewrite dyadic_frac. pose proof (up_pos 2 ltac:(lia) E). unfold Qlt. simpl. nia.
Qed.

Lemma number_to_string_canon (v : Q) (M E : Z) :
  canon M E -> (v == dyadic M E)%Q ->
  number_to_string (JFin v) <> None /\ number_to_string (JFin (- v)) <> None.
Proof.
  intros HM Hv. pose proof (dyadic_pos M E ltac:(unfold canon in HM; lia)) as Hp.
  pose proof (Qred_correct v) as Hr. unfold number_to_string. rewrite Qred_opp.
  destruct (Qred v) as [n P]. simpl.
  assert (Hn : 0 < n) by (rewrite <- Hv, <- Hr in Hp; unfold Qlt in Hp; simpl in Hp; lia).
  destruct n as [|p|p]; try lia.
  assert (Hs : pos_to_string (Zpos p) (Zpos P) <> None).
  { unfold pos_to_string, digits_search.
    assert (Hs : digits_search_from 17 1 (Zpos p) (Zpos P) <> None).
    { apply digits_search_from_some; [lia|]. apply (digits_for_17 (Zpos p) P M E HM); [lia|by rewrite Hr]. }
    by destruct (digits_search_from 17 1 (Zpos p) (Zpos P)) as [[[n k] e]|]. }
  split; simpl; destruct (pos_to_string (Zpos p) (Zpos P)); done.
Qed.

Lemma number_to_string_zero (v : Q) : (v == 0)%Q -> number_to_string (JFin v) = Some "0"%string.
Proof. intros Hv. unfold number_to_string. by rewrite (Qred_complete v 0 Hv). Qed.

(** [number_to_string] returns a string on every Number. *)
Lemma number_to_string_some (q : Q) : number_to_string (round_binary64 q) <> None.
Proof.
  unfold round_binary64. destruct (Qred q) as [[|p|p] P]; simpl; [discriminate| |];
    destruct (round_pos (Zpos p) (Zpos P)) as [v|] eqn:Hr; try discriminate;
    destruct (round_pos_canon (Zpos p) (Zpos P) v ltac:(lia) ltac:(lia) Hr) as [H0|(M & E & HM & Hv)];
    try (apply number_to_string_canon with M E; done).
  - by rewrite number_to_string_zero.
  - rewrite number_to_string_zero; [discriminate|]. by rewrite H0.
Qed.

(** ** The round trip, on every Number *)

(** [Number::toString] is total and round-trips: for every rational
    [q] the Number [round_binary64 q] (every value an arithmetic operation
    or [StringToNumber] yields) prints, with at most seventeen significant
    digits, and the printed string parses back to the same Number. *)
Theorem number_to_string_roundtrip_total (q : Q) :
  exists s, number_to_string (round_binary64 q) = Some s /\
            jsnum_equiv (string_to_number s) (round_binary64 q).
Proof.
  destruct (number_to_string (round_binary64 q)) as [s|] eqn:Hs;
    [|by apply number_to_string_some in Hs].
  exists s. split; [done|]. by apply number_to_string_reads_back.
Qed.
