(* ===== verification/JsNumberShortest.v ===== *)
(** * JsNumberShortest: [Number::toString] picks ECMA-262's digits

    Step 5 of [Number::toString] asks for integers [n], [k], [s] with
    [10^(k-1) <= s < 10^k], [s * 10^(n-k)] rounding to the Number [x] and
    [k] as small as possible ([k_digits_round]); among the [s] that
    qualify, the one whose [s * 10^(n-k)] is closest to [x], and of two
    such the even one.
    [JsNumberString.digits_search] does not search over all decimals: for
    each [k] it tries the two [k]-digit neighbours of [x] at the exponent
    of [x].  This file shows that this finds the same [k] and the same
    candidate.

    Rounding is monotone ([rnd_val_mono], through the value [round_pos]
    computes before its overflow test), so the rationals that round to a
    double form an interval ([round_between]).  A [k]-digit decimal that
    rounds to [x] lies on one side of [x]; the candidate [digits_for k]
    tries on that side lies between it and [x] ([decimal_side]), so it
    rounds to [x] too ([digits_for_complete]) and is at least as close to
    [x].  Hence the first [k] the search accepts is the least [k] for
    which any [k]-digit decimal, at any exponent, rounds to [x], and its
    candidate is a closest one, the even one on a tie
    ([digits_search_spec]). *)

From S2P Require Import Prelude JsString JsNumber JsNumberString Rounding JsNumberTotal.
From Stdlib Require Import Ascii String QArith Qabs.
Close Scope Q_scope.
Open Scope Z_scope.

(** The value [round_pos a d] computes before its overflow test. *)
Definition rnd_val (a d : Z) : Q :=
  let qe := Z.max (flog2 a d - 52) (-1074) in
  dyadic (round_ne (a * dn 2 qe) (d * up 2 qe)) qe.

(** The same for a positive rational, through its lowest terms. *)
Definition rkey (q : Q) : Q := rnd_val (Qnum (Qred q)) (Zpos (Qden (Qred q))).

(** Step 5 of [Number::toString] (ECMA-262 6.1.6.1.20): some [k]-digit
    integer [s], at some exponent [n], has [s * 10^(n-k)] rounding to [x]. *)
Definition k_digits_round (k : nat) (x : Q) : Prop :=
  exists s n y, 10 ^ (Z.of_nat k - 1) <= s < 10 ^ Z.of_nat k /\
    round_binary64 (dec_value s (n - Z.of_nat k)) = JFin y /\ (y == x)%Q.

(** The exponent [t = floor (log10 x) + 1 - k] and the numerator and
    denominator of [x / 10^t], as [digits_for k] computes them. *)
Definition dexp (k : nat) (a d : Z) : Z := flog10 a d + 1 - Z.of_nat k.
Definition dnum (k : nat) (a d : Z) : Z := a * dn 10 (dexp k a d).
Definition dden (k : nat) (a d : Z) : Z := d * up 10 (dexp k a d).

(** ** Monotonicity of the rounding *)

(** [round_ne N D] is within [D / 2] of [N / D], and even on a tie. *)
Lemma round_ne_char (N D : Z) :
  0 < D ->
  Z.abs (2 * (N - round_ne N D * D)) < D \/
  (Z.abs (2 * (N - round_ne N D * D)) = D /\ Z.even (round_ne N D) = true).
Proof.
  intros HD. unfold round_ne.
  pose proof (Z.div_mod N D ltac:(lia)) as Hdm. pose proof (Z.mod_pos_bound N D HD) as Hb.
  set (m := N / D) in *. set (r := N mod D) in *.
  destruct (Z.compare_spec (2 * r) D) as [Heq|Hlt|Hgt]; [|left; lia|left; lia].
  destruct (Z.even m) eqn:Hm; right; split; try lia; [done|]. by rewrite Z.even_add, Hm.
Qed.

Lemma round_ne_mono (N D N' D' : Z) :
  0 < D -> 0 < D' -> N * D' <= N' * D -> round_ne N D <= round_ne N' D'.
Proof.
  intros HD HD' Hle. destruct (Z.leb_spec (round_ne N D) (round_ne N' D')) as [|Hgt]; [done|].
  pose proof (round_ne_err N D HD). pose proof (round_ne_err N' D' HD').
  set (m := round_ne N D) in *. set (m' := round_ne N' D') in *.
  assert (L1 : 2 * N * D' >= (2 * m - 1) * D * D') by nia.
  assert (L2 : 2 * N' * D <= (2 * m' + 1) * D' * D) by nia.
  assert (Hm : m = m' + 1).
  { assert ((m - m' - 1) * (D * D') <= 0) by lia. nia. }
  assert (HN : 2 * N = (2 * m - 1) * D) by (apply (Z.mul_reg_r _ _ D'); lia).
  assert (HN' : 2 * N' = (2 * m' + 1) * D') by (apply (Z.mul_reg_r _ _ D); lia).
  destruct (round_ne_char N D HD) as [Hc|[_ He]]; [fold m in Hc; lia|].
  destruct (round_ne_char N' D' HD') as [Hc'|[_ He']]; [fold m' in Hc'; lia|].
  fold m in He. fold m' in He'. rewrite Hm, Z.even_add, He' in He. discriminate.
Qed.

Lemma flog2_mono (a d a' d' : Z) :
  0 < a -> 0 < d -> 0 < a' -> 0 < d' -> a * d' <= a' * d -> flog2 a d <= flog2 a' d'.
Proof.
  intros Ha Hd Ha' Hd' Hle. pose proof (flog2_lower a d Ha Hd) as Hl.
  destruct (Z.leb_spec (flog2 a d) (flog2 a' d')) as [|Hlt]; [done|].
  pose proof (flog2_upper a' d' Ha' Hd') as Hu. rewrite pow2_le_powb in Hl, Hu.
  rewrite (powb_le_mono 2 ltac:(lia) (flog2 a' d' + 1) (flog2 a d)) in Hu; [done|lia|lia|].
  rewrite powb_le_uniform in Hl |- * by lia. apply Z.leb_le in Hl. apply Z.leb_le.
  pose proof (up_pos 2 ltac:(lia) (flog2 a d)). pose proof (dn_pos 2 ltac:(lia) (flog2 a d)). nia.
Qed.

(** The mantissa at exponent [Q] is at most [2^k] when [a / d < 2^(Q+k)]. *)
Lemma man_upper (a d Q k : Z) :
  0 < a -> 0 < d -> 0 <= k -> flog2 a d + 1 - Q <= k ->
  round_ne (a * dn 2 Q) (d * up 2 Q) <= 2 ^ k.
Proof.
  intros Ha Hd Hk HQ. pose proof (flog2_upper a d Ha Hd) as Hu.
  rewrite pow2_le_powb, (powb_le_scale 2 ltac:(lia) _ Q) in Hu.
  pose proof (up_pos 2 ltac:(lia) Q). pose proof (dn_pos 2 ltac:(lia) Q).
  destruct (powb_le 2 k (a * dn 2 Q) (d * up 2 Q)) eqn:Hk'.
  { by rewrite (powb_le_mono 2 ltac:(lia) _ k) in Hu by (nia || done). }
  rewrite powb_le_uniform in Hk' by lia. destruct (up_nonneg 2 ltac:(lia) k Hk) as [Hu1 Hd1].
  rewrite Hu1, Hd1 in Hk'.
  apply Z.leb_gt in Hk'. pose proof (round_ne_err (a * dn 2 Q) (d * up 2 Q) ltac:(nia)). nia.
Qed.

(** ... and at least [2^52] when [2^(Q+52) <= a / d]. *)
Lemma man_lower (a d Q : Z) :
  0 < a -> 0 < d -> 52 <= flog2 a d - Q -> 2 ^ 52 <= round_ne (a * dn 2 Q) (d * up 2 Q).
Proof.
  intros Ha Hd HQ. pose proof (flog2_lower a d Ha Hd) as Hl.
  rewrite pow2_le_powb, (powb_le_scale 2 ltac:(lia) _ Q) in Hl.
  pose proof (up_pos 2 ltac:(lia) Q). pose proof (dn_pos 2 ltac:(lia) Q).
  apply (powb_le_mono 2 ltac:(lia) 52) in Hl; [|nia|lia].
  unfold powb_le in Hl. simpl in Hl. apply Z.leb_le in Hl.
  pose proof (round_ne_err (a * dn 2 Q) (d * up 2 Q) ltac:(nia)). nia.
Qed.

Lemma dyadic_le (m m' E : Z) : m <= m' -> (dyadic m E <= dyadic m' E)%Q.
Proof.
  intros Hm. rewrite (dyadic_frac m E), (dyadic_frac m' E). pose proof (up_pos 2 ltac:(lia) E). pose proof (dn_pos 2 ltac:(lia) E).
  unfold Qle. cbn [Qnum Qden]. rewrite Z2Pos.id by lia.
  apply Z.mul_le_mono_nonneg_r; [lia|]. apply Z.mul_le_mono_nonneg_r; lia.
Qed.

Lemma dyadic_scale (m E j : Z) : 0 <= j -> (dyadic (m * 2 ^ j) E == dyadic m (E + j))%Q.
Proof.
  intros Hj. rewrite (dyadic_frac (m * 2 ^ j) E), (dyadic_frac m (E + j)). pose proof (up_dn_split 2 ltac:(lia) E j) as Hs.
  destruct (up_nonneg 2 ltac:(lia) j Hj) as [Hu Hd]. rewrite Hu, Hd in Hs.
  pose proof (dn_pos 2 ltac:(lia) E). pose proof (dn_pos 2 ltac:(lia) (E + j)).
  unfold Qeq. cbn [Qnum Qden]. rewrite !Z2Pos.id by lia. rewrite Z.mul_1_r in Hs.
  transitivity (m * (up 2 E * 2 ^ j * dn 2 (E + j))); [ring|]. rewrite <- Hs. ring.
Qed.

(** The rounded value is monotone in the rational it rounds. *)
Lemma rnd_val_mono (a d a' d' : Z) :
  0 < a -> 0 < d -> 0 < a' -> 0 < d' -> a * d' <= a' * d -> (rnd_val a d <= rnd_val a' d')%Q.
Proof.
  intros Ha Hd Ha' Hd' Hle. unfold rnd_val. cbv zeta.
  pose proof (flog2_mono a d a' d' Ha Hd Ha' Hd' Hle) as He.
  set (e := flog2 a d) in *. set (e' := flog2 a' d') in *.
  set (qe := Z.max (e - 52) (-1074)). set (qe' := Z.max (e' - 52) (-1074)).
  assert (Hq : qe <= qe') by lia.
  apply Qle_trans with (dyadic (round_ne (a' * dn 2 qe') (d' * up 2 qe') * 2 ^ (qe' - qe)) qe).
  2:{ rewrite dyadic_scale by lia. replace (qe + (qe' - qe)) with qe' by lia. apply Qle_refl. }
  apply dyadic_le. pose proof (Z.pow_pos_nonneg 2 (qe' - qe) ltac:(lia) ltac:(lia)).
  destruct (Z.eq_dec qe qe') as [Heq|Hne].
  - rewrite <- Heq, Z.sub_diag, Z.mul_1_r.
    pose proof (up_pos 2 ltac:(lia) qe). pose proof (dn_pos 2 ltac:(lia) qe).
    apply round_ne_mono; nia.
  - pose proof (man_lower a' d' qe' Ha' Hd' ltac:(unfold e' in *; lia)).
    pose proof (man_upper a d qe (52 + (qe' - qe)) Ha Hd ltac:(lia) ltac:(unfold e in *; lia)).
    rewrite Z.pow_add_r in * by lia. nia.
Qed.

(** [round_pos] is its rounded value, or [None] from [2^1024] on. *)
Lemma round_pos_rnd (a d : Z) :
  0 < a -> 0 < d ->
  round_pos a d = if Qle_bool (inject_Z (2 ^ 1024)) (rnd_val a d) then None else Some (rnd_val a d).
Proof.
  intros Ha Hd. rewrite round_pos_uniform. unfold rnd_val. cbv zeta.
  set (qe := Z.max (flog2 a d - 52) (-1074)).
  set (m := round_ne (a * dn 2 qe) (d * up 2 qe)).
  assert (Hm : m <= 2 ^ 53) by (apply man_upper; unfold qe; lia).
  destruct (Z.leb_spec 0 qe) as [Hq|Hq]; simpl.
  - replace (dyadic m qe) with (inject_Z (m * 2 ^ qe)) by (unfold dyadic; by rewrite (proj2 (Z.leb_le 0 qe) Hq)).
    destruct (Z.leb_spec (2 ^ 1024) (m * 2 ^ qe)) as [Hle|Hlt].
    + rewrite (proj2 (Qle_bool_iff _ _)); [done|]. by rewrite <- Zle_Qle.
    + destruct (Qle_bool _ _) eqn:Hb; [|done]. apply Qle_bool_iff in Hb. rewrite <- Zle_Qle in Hb. lia.
  - destruct (Qle_bool _ _) eqn:Hb; [|done]. apply Qle_bool_iff in Hb.
    rewrite dyadic_frac in Hb. destruct (up_neg 2 ltac:(lia) qe Hq) as [Hu Hdn]. rewrite Hu, Hdn in Hb.
    unfold Qle in Hb. cbn [Qnum Qden inject_Z] in Hb. rewrite Z2Pos.id in Hb by (apply Z.pow_pos_nonneg; lia).
    pose proof (Z.pow_pos_nonneg 2 (- qe) ltac:(lia) ltac:(lia)). nia.
Qed.

Lemma round_binary64_rkey (q : Q) :
  (0 < q)%Q ->
  round_binary64 q = if Qle_bool (inject_Z (2 ^ 1024)) (rkey q) then JInf false else JFin (rkey q).
Proof.
  intros Hq. unfold round_binary64, rkey. pose proof (Qred_correct q) as Hr.
  destruct (Qred q) as [n P]. cbn [Qnum Qden].
  assert (Hn : 0 < n) by (rewrite <- Hr in Hq; unfold Qlt in Hq; simpl in Hq; lia).
  destruct n as [|p|p]; try lia. rewrite round_pos_rnd by lia. by destruct (Qle_bool _ _).
Qed.

Lemma rkey_mono (q q' : Q) : (0 < q)%Q -> (q <= q')%Q -> (rkey q <= rkey q')%Q.
Proof.
  intros Hq Hle. unfold rkey. pose proof (Qred_correct q) as Hr. pose proof (Qred_correct q') as Hr'.
  assert (Hle' : (Qred q <= Qred q')%Q) by (rewrite Hr, Hr'; exact Hle).
  assert (Hq' : (0 < Qred q)%Q) by (rewrite Hr; exact Hq).
  destruct (Qred q) as [n P], (Qred q') as [n' P']. cbn [Qnum Qden].
  unfold Qle, Qlt in *. simpl in *. apply rnd_val_mono; nia.
Qed.

(** The rationals that round to a double form an interval. *)
Lemma round_between (p z q x x' : Q) :
  (0 < p)%Q -> (p <= z)%Q -> (z <= q)%Q ->
  round_binary64 p = JFin x -> round_binary64 q = JFin x' -> (x == x')%Q ->
  exists y, round_binary64 z = JFin y /\ (y == x)%Q.
Proof.
  intros Hp Hpz Hzq. assert (Hz : (0 < z)%Q) by (eapply Qlt_le_trans; eauto).
  assert (Hq : (0 < q)%Q) by (eapply Qlt_le_trans; eauto).
  rewrite !round_binary64_rkey by done.
  destruct (Qle_bool _ (rkey p)) eqn:Hbp; [done|]. intros [= <-].
  destruct (Qle_bool _ (rkey q)) eqn:Hbq; [done|]. intros [= <-] Hx.
  pose proof (rkey_mono p z Hp Hpz). pose proof (rkey_mono z q Hz Hzq).
  assert (Hzx : (rkey z == rkey p)%Q) by (apply Qle_antisym; [rewrite Hx|]; done).
  destruct (Qle_bool _ (rkey z)) eqn:Hbz.
  - apply Qle_bool_iff in Hbz. rewrite Hzx in Hbz. apply Qle_bool_iff in Hbz. congruence.
  - by exists (rkey z).
Qed.

(** ** The search is the least digit count of ECMA-262 *)

(** [s * 10^(j+t) = (s * 10^j) * 10^t] and [a / D = ((a / D) / 10^t) * 10^t]. *)
Lemma dec_value_ratio (s j t : Z) :
  (dec_value s (j + t) == ((s * up 10 j) # Z.to_pos (dn 10 j)) * dec_value 1 t)%Q.
Proof.
  rewrite (dec_value_frac s (j + t)), (dec_value_frac 1 t).
  pose proof (up_dn_split 10 ltac:(lia) j t) as Hs.
  pose proof (dn_pos 10 ltac:(lia) j). pose proof (dn_pos 10 ltac:(lia) t). pose proof (dn_pos 10 ltac:(lia) (j + t)).
  unfold Qeq, Qmult. cbn [Qnum Qden]. rewrite Pos2Z.inj_mul, !Z2Pos.id by lia.
  transitivity (s * (up 10 (j + t) * dn 10 j * dn 10 t)); [ring|]. rewrite Hs. ring.
Qed.

Lemma dec_value_int (c t : Z) : (dec_value c t == inject_Z c * dec_value 1 t)%Q.
Proof.
  rewrite (dec_value_frac c t), (dec_value_frac 1 t). unfold Qeq, Qmult, inject_Z. cbn [Qnum Qden].
  rewrite Pos.mul_1_l. ring.
Qed.

Lemma frac_ratio (a : Z) (D : positive) (t : Z) :
  (a # D == ((a * dn 10 t) # Z.to_pos (Zpos D * up 10 t)) * dec_value 1 t)%Q.
Proof.
  rewrite (dec_value_frac 1 t). pose proof (up_pos 10 ltac:(lia) t). pose proof (dn_pos 10 ltac:(lia) t).
  unfold Qeq, Qmult. cbn [Qnum Qden]. rewrite !Pos2Z.inj_mul, !Z2Pos.id by lia. ring.
Qed.

(** [x / p <= y / q] for positive [p], [q], cross-multiplied. *)
Lemma Qle_frac (x y p q : Z) : 0 < p -> 0 < q -> ((x # Z.to_pos p) <= (y # Z.to_pos q))%Q <-> x * q <= y * p.
Proof. intros Hp Hq. unfold Qle. cbn [Qnum Qden]. by rewrite !Z2Pos.id by lia. Qed.

Lemma dec_value_pos (s t : Z) : 0 < s -> (0 < dec_value s t)%Q.
Proof.
  intros Hs. rewrite dec_value_frac. pose proof (up_pos 10 ltac:(lia) t). unfold Qlt. simpl. nia.
Qed.

(** A [K]-digit decimal [s * 10^j] (scaled by [10^t]) below [num / den]
    is at most its floor [lo]; one above it is at least [lo + 1]. *)
Lemma decimal_side (K s j num den : Z) :
  1 <= K -> 0 < den -> 10 ^ (K - 1) <= s < 10 ^ K -> 10 ^ (K - 1) * den <= num < 10 ^ K * den ->
  (s * up 10 j * den <= num * dn 10 j -> s * up 10 j <= num / den * dn 10 j) /\
  (num * dn 10 j < s * up 10 j * den -> (num / den + 1) * dn 10 j <= s * up 10 j).
Proof.
  intros HK Hden Hs Hb.
  pose proof (Z.div_mod num den ltac:(lia)) as Hdm. pose proof (Z.mod_pos_bound num den Hden).
  set (lo := num / den) in *. set (r := num mod den) in *.
  pose proof (Z.pow_pos_nonneg 10 (K - 1) ltac:(lia) ltac:(lia)).
  assert (Hp : 10 ^ K = 10 ^ (K - 1) * 10) by (rewrite Z.mul_comm, <- Z.pow_succ_r by lia; f_equal; lia).
  assert (Hlo : 10 ^ (K - 1) <= lo < 10 ^ K) by nia.
  assert (HKd : 10 ^ K * den = 10 * (10 ^ (K - 1) * den)) by (rewrite Hp; ring).
  assert (Hsd : s * den < 10 ^ K * den) by (apply Z.mul_lt_mono_pos_r; lia).
  destruct (Z.lt_trichotomy j 0) as [Hj|[->|Hj]].
  - destruct (up_neg 10 ltac:(lia) j Hj) as [-> ->].
    assert (HP : 10 ^ 1 <= 10 ^ (- j)) by (apply Z.pow_le_mono_r; lia). change (10 ^ 1) with 10 in HP.
    split; intros Hc; [nia|]. assert (num * 10 <= num * 10 ^ (- j)) by (apply Z.mul_le_mono_nonneg_l; lia).
    lia.
  - destruct (up_nonneg 10 ltac:(lia) 0 ltac:(lia)) as [-> ->]. split; intros Hc; nia.
  - destruct (up_nonneg 10 ltac:(lia) j ltac:(lia)) as [-> ->].
    assert (HP : 10 ^ 1 <= 10 ^ j) by (apply Z.pow_le_mono_r; lia). change (10 ^ 1) with 10 in HP.
    assert (Hs10 : 10 ^ K <= s * 10 ^ j) by nia.
    assert (10 ^ K * den <= s * 10 ^ j * den) by (apply Z.mul_le_mono_nonneg_r; lia).
    split; intros Hc; lia.
Qed.

(** [|c * den - num| * P <= |S * den - num * P|]: the candidate [c] is at
    least as close to [num / den] as [S / P] when [S / P] lies beyond [c]
    on its side, or [c] is the nearer integer, or [num / den] is [c]. *)
Lemma closest_int (c lo r den num S P : Z) :
  0 < den -> 0 < P -> num = den * lo + r -> 0 <= r < den ->
  (S <= lo * P /\ (c = lo \/ c = lo + 1 /\ den <= 2 * r)) \/
  ((lo + 1) * P <= S /\ (c = lo + 1 \/ c = lo /\ 2 * r <= den)) \/
  (c = lo /\ r = 0) ->
  Z.abs (c * den - num) * P <= Z.abs (S * den - num * P).
Proof.
  intros Hden HP -> Hr [[HS [->|[-> Hc]]]|[[HS [->|[-> Hc]]]|[-> ->]]].
  - assert (S * den <= lo * P * den) by (apply Z.mul_le_mono_nonneg_r; lia). nia.
  - assert (S * den <= lo * P * den) by (apply Z.mul_le_mono_nonneg_r; lia). nia.
  - assert ((lo + 1) * P * den <= S * den) by (apply Z.mul_le_mono_nonneg_r; lia). nia.
  - assert ((lo + 1) * P * den <= S * den) by (apply Z.mul_le_mono_nonneg_r; lia). nia.
  - replace (lo * den - (den * lo + 0)) with 0 by ring. simpl. lia.
Qed.

(** When another decimal [S / P] on the side of [c] beyond it is exactly
    as far from [num / den] as [c], the two are the neighbours [lo] and
    [lo + 1] at distance one half. *)
Lemma tie_int (c lo r den num S P : Z) :
  0 < den -> 0 < P -> num = den * lo + r -> 0 <= r < den ->
  Z.abs (c * den - num) * P = Z.abs (S * den - num * P) -> S <> c * P ->
  (S <= lo * P /\ (c = lo \/ c = lo + 1 /\ den <= 2 * r)) \/
  ((lo + 1) * P <= S /\ (c = lo + 1 \/ c = lo /\ 2 * r <= den)) ->
  2 * r = den /\ ((c = lo /\ S = (lo + 1) * P) \/ (c = lo + 1 /\ S = lo * P)).
Proof.
  intros Hden HP -> Hr Heq Hne [[HS Hc]|[HS Hc]].
  - assert (HSd : S * den <= lo * P * den) by (apply Z.mul_le_mono_nonneg_r; lia).
    rewrite (Z.abs_neq (S * den - _)) in Heq by nia.
    destruct Hc as [->|[-> Hc]].
    + exfalso. apply Hne. apply (Z.mul_reg_r _ _ den); [lia|].
      rewrite Z.abs_neq in Heq by nia. nia.
    + rewrite Z.abs_eq in Heq by nia.
      assert (S * den = lo * P * den /\ 2 * r = den) as [HSe Hrd] by nia.
      split; [done|]. right. split; [done|]. apply (Z.mul_reg_r _ _ den); lia.
  - assert (HSd : (lo + 1) * P * den <= S * den) by (apply Z.mul_le_mono_nonneg_r; lia).
    rewrite (Z.abs_eq (S * den - _)) in Heq by nia.
    destruct Hc as [->|[-> Hc]].
    + exfalso. apply Hne. apply (Z.mul_reg_r _ _ den); [lia|].
      rewrite Z.abs_eq in Heq by nia. nia.
    + rewrite Z.abs_neq in Heq by nia.
      assert (S * den = (lo + 1) * P * den /\ 2 * r = den) as [HSe Hrd] by nia.
      split; [done|]. left. split; [done|]. apply (Z.mul_reg_r _ _ den); lia.
Qed.

(** [Qabs (x / p - y / q)] cross-multiplied. *)
Lemma Qabs_frac_diff (x y p q : Z) :
  0 < p -> 0 < q ->
  (Qabs ((x # Z.to_pos p) - (y # Z.to_pos q)) == Z.abs (x * q - y * p) # Z.to_pos (p * q))%Q.
Proof.
  intros Hp Hq. unfold Qminus, Qplus, Qopp, Qabs, Qeq. cbn [Qnum Qden].
  rewrite !Pos2Z.inj_mul, !Z2Pos.id by nia. f_equal. f_equal. lia.
Qed.

(** A carried candidate [10^k] becomes [10^(k-1)] at the next exponent,
    with the same value. *)
Lemma pick_value (k : nat) (e0 c n e : Z) :
  (1 <= k)%nat -> pick_candidate k e0 c = Some (n, e) ->
  (dec_value n (e - Z.of_nat k) == dec_value c (e0 - Z.of_nat k))%Q.
Proof.
  intros Hk. unfold pick_candidate. destruct (Z.eqb_spec c (10 ^ Z.of_nat k)) as [Hc|Hc];
    (destruct (_ && _); [|discriminate]); intros [= <- <-]; [|reflexivity].
  replace (e0 + 1 - Z.of_nat k) with (e0 - Z.of_nat k + 1) by lia.
  rewrite <- dec_value_shift.
  assert (Hp : 10 ^ Z.of_nat k = 10 ^ (Z.of_nat k - 1) * 10)
    by (rewrite Z.mul_comm, <- Z.pow_succ_r by lia; f_equal; lia).
  rewrite Hc, Hp, Z.div_mul, Z.mul_comm by lia. reflexivity.
Qed.

Lemma pick_n (k : nat) (e0 c n e : Z) :
  (1 <= k)%nat -> pick_candidate k e0 c = Some (n, e) ->
  (c = 10 ^ Z.of_nat k /\ n = 10 ^ (Z.of_nat k - 1)) \/ (c <> 10 ^ Z.of_nat k /\ n = c).
Proof.
  intros Hk. unfold pick_candidate. destruct (Z.eqb_spec c (10 ^ Z.of_nat k)) as [Hc|Hc];
    (destruct (_ && _); [|discriminate]); intros [= <- _]; [left|right]; split; try done.
  assert (Hp : 10 ^ Z.of_nat k = 10 ^ (Z.of_nat k - 1) * 10)
    by (rewrite Z.mul_comm, <- Z.pow_succ_r by lia; f_equal; lia).
  rewrite Hc, Hp, Z.div_mul by lia. done.
Qed.

(** [digits_for k], with the scaled quantities named. *)
Lemma digits_for_eq (k : nat) (a d : Z) :
  digits_for k a d =
    let lo := dnum k a d / dden k a d in
    let r := dnum k a d mod dden k a d in
    match rounds_to lo (dexp k a d) a d, negb (r =? 0) && rounds_to (lo + 1) (dexp k a d) a d with
    | true, false => pick_candidate k (flog10 a d + 1) lo
    | false, true => pick_candidate k (flog10 a d + 1) (lo + 1)
    | true, true =>
        match Z.compare (2 * r) (dden k a d) with
        | Lt => pick_candidate k (flog10 a d + 1) lo
        | Gt => pick_candidate k (flog10 a d + 1) (lo + 1)
        | Eq => if Z.even lo then pick_candidate k (flog10 a d + 1) lo
                else pick_candidate k (flog10 a d + 1) (lo + 1)
        end
    | false, false => None
    end.
Proof.
  unfold digits_for, dnum, dden, dexp. cbv zeta.
  set (t := flog10 a d + 1 - Z.of_nat k).
  replace (if 0 <=? t then a else a * 10 ^ (- t)) with (a * dn 10 t)
    by (unfold dn; destruct (Z.leb_spec 0 t); [rewrite Z.max_r by lia; lia|by rewrite Z.max_l by lia]).
  replace (if 0 <=? t then d * 10 ^ t else d) with (d * up 10 t)
    by (unfold up; destruct (Z.leb_spec 0 t); [by rewrite Z.max_l by lia|rewrite Z.max_r by lia; lia]).
  reflexivity.
Qed.

Lemma dec_value_frac1 (c t : Z) : (dec_value c t == (c # Z.to_pos 1) * dec_value 1 t)%Q.
Proof. apply dec_value_int. Qed.

(** [x / p * T <= y / q * T] for [T > 0], cross-multiplied. *)
Lemma scaled_le (x y p q : Z) (T : Q) :
  0 < p -> 0 < q -> (0 < T)%Q -> x * q <= y * p -> ((x # Z.to_pos p) * T <= (y # Z.to_pos q) * T)%Q.
Proof. intros Hp Hq HT Hle. apply Qmult_le_compat_r; [by apply Qle_frac|by apply Qlt_le_weak]. Qed.

(** [|x * T - y * T| = |x - y| * T] for [T > 0]. *)
Lemma Qabs_scaled (x y T : Q) : (0 < T)%Q -> (Qabs (x * T - y * T) == Qabs (x - y) * T)%Q.
Proof.
  intros HT. assert (Hd : (x * T - y * T == (x - y) * T)%Q) by ring.
  rewrite Hd, Qabs_Qmult. apply Qmult_comp; [reflexivity|].
  apply Qabs_pos, Qlt_le_weak, HT.
Qed.

Section Candidates.
Variables (k : nat) (a : Z) (D : positive) (M E : Z).
Hypotheses (Hk : (1 <= k)%nat) (HM : canon M E) (Ha : 0 < a) (Hv : (a # D == dyadic M E)%Q).

Local Abbreviation K := (Z.of_nat k).
Local Abbreviation t := (dexp k a (Zpos D)).
Local Abbreviation num := (dnum k a (Zpos D)).
Local Abbreviation den := (dden k a (Zpos D)).

Lemma cand_facts :
  0 < den /\ 10 ^ (K - 1) * den <= num < 10 ^ K * den /\ (0 < dec_value 1 t)%Q /\
  (a # D == (num # Z.to_pos den) * dec_value 1 t)%Q.
Proof using Hk Ha.
  pose proof (digits_for_bounds k a D Hk Ha) as Hb. cbv zeta in Hb.
  pose proof (up_pos 10 ltac:(lia) t). unfold dden, dnum. fold (dexp k a (Zpos D)) in *.
  split_and!; [lia|lia|lia|apply dec_value_pos; lia|apply frac_ratio].
Qed.

Lemma double_self : exists w, round_binary64 (a # D) = JFin w /\ (w == a # D)%Q.
Proof using Hk HM Ha Hv.
  destruct (round_binary64_near (a # D) M E HM) as (w & Hw & Hwx).
  - unfold Qlt. simpl. lia.
  - rewrite Hv. unfold Qminus. rewrite Qplus_opp_r. change (Qabs 0) with 0%Q. rewrite Qmult_0_r.
    apply Qlt_le_weak, dyadic_pos. unfold canon in HM. lia.
  - exists w. split; [done|]. by rewrite Hwx, Hv.
Qed.

(** The [k]-digit decimal [s * 10^(n'-k)] is [(s * 10^j) * 10^t] with
    [j = n' - floor (log10 x) - 1]. *)
Lemma scaled_decimal (s n' : Z) :
  (dec_value s (n' - K) ==
   ((s * up 10 (n' - flog10 a (Zpos D) - 1)) # Z.to_pos (dn 10 (n' - flog10 a (Zpos D) - 1)))
     * dec_value 1 t)%Q.
Proof using Hk.
  replace (n' - K) with ((n' - flog10 a (Zpos D) - 1) + t) by (unfold dexp; lia). apply dec_value_ratio.
Qed.

(** A candidate between a decimal that rounds to [x] and [x] rounds to [x]. *)
Lemma cand_rounds_between (c s n' : Z) (y : Q) :
  10 ^ (K - 1) <= s < 10 ^ K -> round_binary64 (dec_value s (n' - K)) = JFin y -> (y == a # D)%Q ->
  ((dec_value s (n' - K) <= dec_value c t /\ dec_value c t <= a # D)%Q \/
   (a # D <= dec_value c t /\ dec_value c t <= dec_value s (n' - K))%Q) ->
  rounds_to c t a (Zpos D) = true.
Proof using Hk HM Ha Hv.
  intros Hs Hy Hyx Hbt. destruct double_self as (w & Hw & Hwx).
  assert (HWp : (0 < dec_value s (n' - K))%Q) by (apply dec_value_pos; lia).
  destruct Hbt as [[H1 H2]|[H1 H2]].
  - destruct (round_between _ _ _ y w HWp H1 H2 Hy Hw) as (y' & Hy' & Hy'y); [by rewrite Hyx, Hwx|].
    apply (rounds_to_of _ _ _ _ y' Hy'). by rewrite Hy'y.
  - assert (HXp : (0 < a # D)%Q) by (unfold Qlt; simpl; lia).
    destruct (round_between _ _ _ w y HXp H1 H2 Hw Hy) as (y' & Hy' & Hy'y);
      [by rewrite Hwx, Hyx|].
    apply (rounds_to_of _ _ _ _ y' Hy'). by rewrite Hy'y.
Qed.

Lemma lower_rounds (s n' : Z) (y : Q) :
  10 ^ (K - 1) <= s < 10 ^ K -> round_binary64 (dec_value s (n' - K)) = JFin y -> (y == a # D)%Q ->
  s * up 10 (n' - flog10 a (Zpos D) - 1) * den <= num * dn 10 (n' - flog10 a (Zpos D) - 1) ->
  rounds_to (num / den) t a (Zpos D) = true.
Proof using Hk HM Ha Hv.
  intros Hs Hy Hyx HWX. destruct cand_facts as (Hden & Hb & HT & HX).
  set (j := n' - flog10 a (Zpos D) - 1) in *.
  pose proof (up_pos 10 ltac:(lia) j). pose proof (dn_pos 10 ltac:(lia) j).
  pose proof (proj1 (decimal_side K s j num den ltac:(lia) Hden Hs Hb) HWX).
  pose proof (Z.div_mod num den ltac:(lia)). pose proof (Z.mod_pos_bound num den Hden).
  apply (cand_rounds_between _ s n' y Hs Hy Hyx). left.
  rewrite scaled_decimal, (dec_value_frac1 (num / den) t), HX. fold j.
  split; apply scaled_le; (done || lia).
Qed.

Lemma upper_rounds (s n' : Z) (y : Q) :
  10 ^ (K - 1) <= s < 10 ^ K -> round_binary64 (dec_value s (n' - K)) = JFin y -> (y == a # D)%Q ->
  num * dn 10 (n' - flog10 a (Zpos D) - 1) < s * up 10 (n' - flog10 a (Zpos D) - 1) * den ->
  rounds_to (num / den + 1) t a (Zpos D) = true.
Proof using Hk HM Ha Hv.
  intros Hs Hy Hyx HWX. destruct cand_facts as (Hden & Hb & HT & HX).
  set (j := n' - flog10 a (Zpos D) - 1) in *.
  pose proof (up_pos 10 ltac:(lia) j). pose proof (dn_pos 10 ltac:(lia) j).
  pose proof (proj2 (decimal_side K s j num den ltac:(lia) Hden Hs Hb) HWX).
  pose proof (Z.div_mod num den ltac:(lia)). pose proof (Z.mod_pos_bound num den Hden).
  apply (cand_rounds_between _ s n' y Hs Hy Hyx). right.
  rewrite scaled_decimal, (dec_value_frac1 (num / den + 1) t), HX. fold j.
  split; apply scaled_le; (done || lia).
Qed.

Lemma exact_rounds : num mod den = 0 -> rounds_to (num / den) t a (Zpos D) = true.
Proof using Hk HM Ha Hv.
  intros Hr. destruct cand_facts as (Hden & Hb & HT & HX). destruct double_self as (w & Hw & Hwx).
  pose proof (Z.div_mod num den ltac:(lia)).
  apply (rounds_to_of _ _ _ _ w); [|done]. rewrite <- Hw. apply round_binary64_Qeq.
  rewrite (dec_value_frac1 (num / den) t), HX. apply Qmult_comp; [|reflexivity].
  unfold Qeq. cbn [Qnum Qden]. rewrite !Z2Pos.id by lia. lia.
Qed.

(** If some [k]-digit decimal rounds to [x], one of the two candidates
    [digits_for k] tries does. *)
Lemma digits_for_complete : k_digits_round k (a # D) -> digits_for k a (Zpos D) <> None.
Proof using Hk HM Ha Hv.
  intros (s & n' & y & Hs & Hy & Hyx).
  pose proof (digits_for_some k a D Hk Ha) as Hsome. cbv zeta in Hsome.
  fold (dexp k a (Zpos D)) in Hsome. fold (dnum k a (Zpos D)) (dden k a (Zpos D)) in Hsome.
  apply Hsome.
  destruct (Z.leb_spec (s * up 10 (n' - flog10 a (Zpos D) - 1) * den)
                       (num * dn 10 (n' - flog10 a (Zpos D) - 1))) as [HWX|HWX].
  - left. exact (lower_rounds s n' y Hs Hy Hyx HWX).
  - destruct (Z.eq_dec (num mod den) 0) as [Hr0|Hr0]; [left; exact (exact_rounds Hr0)|right].
    split; [done|exact (upper_rounds s n' y Hs Hy Hyx HWX)].
Qed.
(** The candidate [digits_for k] returns: the lower integer unless the
    upper one rounds and is nearer, the upper one only when [x / 10^t] is
    no integer and it rounds and the lower one does not or is farther; on
    a tie between two candidates that round, the even one. *)
Lemma digits_for_choice (n e : Z) :
  digits_for k a (Zpos D) = Some (n, e) ->
  exists c, pick_candidate k (flog10 a (Zpos D) + 1) c = Some (n, e) /\
    ((c = num / den /\ (rounds_to (num / den + 1) t a (Zpos D) = false \/ num mod den = 0 \/
                        2 * (num mod den) <= den)) \/
     (c = num / den + 1 /\ num mod den <> 0 /\
      (rounds_to (num / den) t a (Zpos D) = false \/ den <= 2 * (num mod den)))) /\
    (c = num / den -> 2 * (num mod den) = den -> rounds_to (num / den + 1) t a (Zpos D) = true ->
     num mod den <> 0 -> Z.even (num / den) = true) /\
    (c = num / den + 1 -> 2 * (num mod den) = den -> rounds_to (num / den) t a (Zpos D) = true ->
     Z.even (num / den) = false).
Proof using Hk.
  rewrite digits_for_eq. cbv zeta.
  destruct (rounds_to (num / den) _ a _) eqn:H1, (negb _ && _) eqn:H2; intros Hp; try discriminate.
  - apply andb_prop in H2 as [Hr0 _]. apply negb_true_iff, Z.eqb_neq in Hr0.
    destruct (Z.compare_spec (2 * (num mod den)) den) as [Heq|Hlt|Hgt];
      [destruct (Z.even (num / den)) eqn:Hev|..]; eexists; (split; [exact Hp|]).
    + split_and!; [left; split; [done|lia]|done|intros; lia].
    + split_and!; [right; split_and!; [done|done|lia]|intros; lia|done].
    + split_and!; [left; split; [done|lia]|intros; lia|intros; lia].
    + split_and!; [right; split_and!; [done|done|lia]|intros; lia|intros; lia].
  - eexists. split; [exact Hp|]. split_and!.
    + left. split; [done|].
      apply andb_false_iff in H2 as [Hr0|Hr]; [right; left; apply negb_false_iff, Z.eqb_eq in Hr0|left]; done.
    + intros _ _ Hhi Hr0. by rewrite Hhi, (proj2 (Z.eqb_neq _ _) Hr0) in H2.
    + intros; lia.
  - apply andb_prop in H2 as [Hr0 _]. apply negb_true_iff, Z.eqb_neq in Hr0.
    eexists. split; [exact Hp|]. split_and!; [right; split_and!; [done|done|by left]|intros; lia|].
    intros _ _ Hlo. congruence.
Qed.

(** The candidate [digits_for k] returns is at least as close to [x] as
    every [k]-digit decimal that rounds to [x]. *)
Lemma digits_for_closest (s n' : Z) (y : Q) (n e : Z) :
  10 ^ (K - 1) <= s < 10 ^ K -> round_binary64 (dec_value s (n' - K)) = JFin y -> (y == a # D)%Q ->
  digits_for k a (Zpos D) = Some (n, e) ->
  (Qabs (dec_value n (e - K) - (a # D)) <= Qabs (dec_value s (n' - K) - (a # D)))%Q.
Proof using Hk HM Ha Hv.
  intros Hs Hy Hyx Hd. destruct (digits_for_choice n e Hd) as (c & Hp & Hc & _ & _).
  destruct cand_facts as (Hden & Hb & HT & HX).
  rewrite (pick_value k _ c n e Hk Hp). change (flog10 a (Zpos D) + 1 - K) with t.
  set (j := n' - flog10 a (Zpos D) - 1).
  pose proof (up_pos 10 ltac:(lia) j). pose proof (dn_pos 10 ltac:(lia) j).
  rewrite (dec_value_frac1 c t), scaled_decimal, HX. fold j.
  rewrite !Qabs_scaled by done. apply Qmult_le_compat_r; [|by apply Qlt_le_weak].
  rewrite !Qabs_frac_diff by lia. apply Qle_frac; [nia|nia|].
  pose proof (Z.div_mod num den ltac:(lia)) as Hdm. pose proof (Z.mod_pos_bound num den Hden).
  enough (Z.abs (c * den - num * 1) * dn 10 j <= Z.abs (s * up 10 j * den - num * dn 10 j)) by nia.
  rewrite Z.mul_1_r. apply (closest_int c (num / den) (num mod den) den num (s * up 10 j) (dn 10 j));
    [lia|lia|lia|lia|].
  destruct (Z.leb_spec (s * up 10 j * den) (num * dn 10 j)) as [HWX|HWX].
  - pose proof (lower_rounds s n' y Hs Hy Hyx HWX) as Hlo.
    pose proof (proj1 (decimal_side K s j num den ltac:(lia) Hden Hs Hb) HWX).
    left. split; [done|]. destruct Hc as [[-> _]|[-> [_ [Hf|Hf]]]]; [by left|congruence|by right].
  - destruct (Z.eq_dec (num mod den) 0) as [Hr0|Hr0].
    + right; right. destruct Hc as [[-> _]|[_ [Hf _]]]; [done|congruence].
    + pose proof (upper_rounds s n' y Hs Hy Hyx HWX) as Hhi.
      pose proof (proj2 (decimal_side K s j num den ltac:(lia) Hden Hs Hb) HWX).
      right; left. split; [done|]. destruct Hc as [[-> [Hf|[Hf|Hf]]]|[-> _]]; [congruence|done|by right|by left].
Qed.

(** On a tie with another [k]-digit decimal that rounds to [x], the
    returned [n] is the even one; the carried [10^(k-1)] is [1] when
    [k = 1]. *)
Lemma digits_for_tie (s n' : Z) (y : Q) (n e : Z) :
  10 ^ (K - 1) <= s < 10 ^ K -> round_binary64 (dec_value s (n' - K)) = JFin y -> (y == a # D)%Q ->
  digits_for k a (Zpos D) = Some (n, e) ->
  (Qabs (dec_value n (e - K) - (a # D)) == Qabs (dec_value s (n' - K) - (a # D)))%Q ->
  ~ (dec_value s (n' - K) == dec_value n (e - K))%Q ->
  Z.even n = true \/ (k = 1%nat /\ n = 1).
Proof using Hk HM Ha Hv.
  intros Hs Hy Hyx Hd Heq Hne. destruct (digits_for_choice n e Hd) as (c & Hp & Hc & Ht1 & Ht2).
  destruct cand_facts as (Hden & Hb & HT & HX).
  pose proof (pick_value k _ c n e Hk Hp) as Hnc. change (flog10 a (Zpos D) + 1 - K) with t in Hnc.
  rewrite Hnc in Heq, Hne. set (j := n' - flog10 a (Zpos D) - 1).
  pose proof (up_pos 10 ltac:(lia) j). pose proof (dn_pos 10 ltac:(lia) j).
  rewrite (dec_value_frac1 c t), scaled_decimal, HX in Heq. rewrite (dec_value_frac1 c t), scaled_decimal in Hne.
  fold j in Heq, Hne.
  rewrite !Qabs_scaled in Heq by done. apply Qmult_inj_r in Heq; [|by apply Qnot_eq_sym, Qlt_not_eq].
  rewrite !Qabs_frac_diff in Heq by lia. unfold Qeq in Heq. cbn [Qnum Qden] in Heq.
  rewrite !Z2Pos.id in Heq by nia.
  assert (Hne' : s * up 10 j <> c * dn 10 j).
  { intros Hsc. apply Hne. apply Qmult_comp; [|reflexivity]. unfold Qeq. cbn [Qnum Qden].
    rewrite !Z2Pos.id by lia. lia. }
  assert (Heq' : Z.abs (c * den - num) * dn 10 j = Z.abs (s * up 10 j * den - num * dn 10 j))
    by (apply (Z.mul_reg_r _ _ den); [lia|]; rewrite Z.mul_1_r in Heq; lia).
  pose proof (Z.div_mod num den ltac:(lia)) as Hdm. pose proof (Z.mod_pos_bound num den Hden).
  assert (Hlo : num / den < 10 ^ K) by nia.
  destruct (Z.leb_spec (s * up 10 j * den) (num * dn 10 j)) as [HWX|HWX].
  - pose proof (lower_rounds s n' y Hs Hy Hyx HWX) as Hrl.
    pose proof (proj1 (decimal_side K s j num den ltac:(lia) Hden Hs Hb) HWX) as HS.
    destruct (tie_int c (num / den) (num mod den) den num (s * up 10 j) (dn 10 j)) as [Hrd [[-> HSe]|[-> HSe]]];
      try (done || lia).
    { left. split; [done|]. destruct Hc as [[-> _]|[-> [_ [Hf|Hf]]]]; [by left|congruence|by right]. }
    specialize (Ht2 eq_refl Hrd Hrl).
    destruct (pick_n k _ _ n e Hk Hp) as [[Hc10 ->]|[_ ->]].
    + destruct (Nat.eq_dec k 1) as [->|Hk1]; [right; split; [done|reflexivity]|left].
      rewrite Z.even_pow by lia. reflexivity.
    + left. by rewrite Z.even_add, Ht2.
  - pose proof (proj2 (decimal_side K s j num den ltac:(lia) Hden Hs Hb) HWX) as HS.
    assert (H2r : c = num / den + 1 \/ c = num / den /\ 2 * (num mod den) <= den).
    { destruct Hc as [[-> [Hf|[Hf|Hf]]]|[-> _]]; [|right; split; [done|lia]|by right|by left].
      destruct (Z.eq_dec (num mod den) 0) as [Hr0|Hr0]; [right; split; [done|lia]|].
      by rewrite (upper_rounds s n' y Hs Hy Hyx HWX) in Hf. }
    destruct (tie_int c (num / den) (num mod den) den num (s * up 10 j) (dn 10 j)) as [Hrd [[-> HSe]|[-> HSe]]];
      try (done || lia).
    specialize (Ht1 eq_refl Hrd (upper_rounds s n' y Hs Hy Hyx HWX) ltac:(lia)).
    destruct (pick_n k _ _ n e Hk Hp) as [[Hc10 _]|[_ ->]]; [lia|by left].
Qed.

End Candidates.

Lemma digits_search_from_hit (fuel k0 : nat) (a d n : Z) (k : nat) (e : Z) :
  digits_search_from fuel k0 a d = Some (n, k, e) -> digits_for k a d = Some (n, e).
Proof.
  revert k0. induction fuel as [|fuel IH]; intros k0; simpl; [discriminate|].
  destruct (digits_for k0 a d) as [[n0 e0]|] eqn:Hd; [|apply IH]. by intros [= <- <- <-].
Qed.

(** ** Step 5 of [Number::toString] *)

(** [digits_search] implements step 5 of ECMA-262's
    [Number::toString] on every positive double [x]: the [n * 10^(e-k)]
    it returns is a [k]-digit decimal that rounds to [x]; no decimal with
    fewer significant digits, at any exponent, rounds to [x]; no [k]-digit
    decimal that rounds to [x] is closer to it; and one as close but of
    another value makes [n] the even choice (for [k = 1] the carried
    [n = 1], where both choices are odd).  Trying only the two [k]-digit
    neighbours of [x] at one exponent finds what the specification's
    search over all decimals finds. *)
Theorem digits_search_spec (a : Z) (D : positive) (M E n : Z) (k : nat) (e : Z) :
  canon M E -> 0 < a -> (a # D == dyadic M E)%Q ->
  digits_search a (Zpos D) = Some (n, k, e) ->
  k_digits_round k (a # D) /\
  (forall k', (1 <= k' < k)%nat -> ~ k_digits_round k' (a # D)) /\
  (forall s n' y, 10 ^ (Z.of_nat k - 1) <= s < 10 ^ Z.of_nat k ->
     round_binary64 (dec_value s (n' - Z.of_nat k)) = JFin y -> (y == a # D)%Q ->
     (Qabs (dec_value n (e - Z.of_nat k) - (a # D)) <= Qabs (dec_value s (n' - Z.of_nat k) - (a # D)))%Q /\
     ((Qabs (dec_value n (e - Z.of_nat k) - (a # D)) == Qabs (dec_value s (n' - Z.of_nat k) - (a # D)))%Q ->
      ~ (dec_value s (n' - Z.of_nat k) == dec_value n (e - Z.of_nat k))%Q ->
      Z.even n = true \/ (k = 1%nat /\ n = 1))).
Proof.
  intros HM Ha Hv Hs. unfold digits_search in Hs.
  pose proof Hs as Hs0. apply digits_search_from_spec in Hs0 as (Hk & Hn & y & Hy & Hyx); [|lia].
  pose proof (digits_search_from_hit _ _ _ _ _ _ _ Hs) as Hd.
  split_and!.
  - exists n, e, y. split_and!; [lia|lia|exact Hy|exact Hyx].
  - intros k' Hk' Hr. apply (digits_for_complete k' a D M E) in Hr; [|lia|done|done|done].
    apply digits_search_from_first in Hs as [_ Hj]. apply Hr, Hj. lia.
  - intros s n' y' Hs' Hy' Hyx'. split.
    + exact (digits_for_closest k a D M E Hk HM Ha Hv s n' y' n e Hs' Hy' Hyx' Hd).
    + exact (digits_for_tie k a D M E Hk HM Ha Hv s n' y' n e Hs' Hy' Hyx' Hd).
Qed.

(** The progress [1 / 3 * 100] prints with sixteen digits, not seventeen. *)
Lemma digits_search_spec_witness :
  k_digits_round 16 (2345624805922133 # 70368744177664) /\
  ~ k_digits_round 15 (2345624805922133 # 70368744177664).
Proof.
  destruct (digits_search_spec 2345624805922133 70368744177664 4691249611844266 (-47)
              3333333333333333 16 2) as (H16 & H15 & _).
  - unfold canon. lia.
  - lia.
  - vm_compute. reflexivity.
  - vm_compute. reflexivity.
  - split; [exact H16|]. apply H15. lia.
Defined.
