(* ===== verification/Catalog.v ===== *)
(** * Catalog: the field schema catalog [apiResponses]

    [DynamicForm.jsx] lines 40-58 declare [apiResponses], an object from a
    form type ("userInfo", "address", "payment") to the ordered list of its
    field descriptors [{ name, type, label, required, options }].  The menu
    offers [Object.keys(apiResponses)] (line 134) and the handlers look a
    type up with [apiResponses[t]], [undefined] for an unknown key.  The
    field [type] is one of five strings, modelled as [field_kind]; the
    [options] property exists only on the dropdown descriptor.

    The catalog is read-only: the theorems here are facts about its content
    that the form engine relies on (unique names, at least one required
    field per type, names that are not array indices). *)

From S2P Require Import Prelude JsString JsObject.
From Stdlib Require Import String.
Open Scope string_scope.
Open Scope js_scope.

Inductive field_kind : Type := FText | FNumber | FPassword | FDate | FDropdown.

Record field_desc : Type := mk_field {
  fname : string;
  ftype : field_kind;
  flabel : string;
  frequired : bool;
  foptions : option (list string)
}.

#[export] Instance field_kind_eq_dec : EqDecision field_kind.
Proof. solve_decision. Defined.

#[export] Instance field_desc_eq_dec : EqDecision field_desc.
Proof. solve_decision. Defined.

Definition apiResponses : js_obj (list field_desc) := [
  ("userInfo", [
    mk_field "firstName" FText "First Name" true None;
    mk_field "lastName" FText "Last Name" true None;
    mk_field "age" FNumber "Age" true None ]);
  ("address", [
    mk_field "street" FText "Street" true None;
    mk_field "city" FText "City" true None;
    mk_field "state" FDropdown "State" true (Some ["California"; "Texas"; "New York"]);
    mk_field "zipCode" FText "Zip Code" true None ]);
  ("payment", [
    mk_field "cardNumber" FText "Card Number" true None;
    mk_field "expiryDate" FDate "Expiry Date" true None;
    mk_field "cvv" FPassword "CVV" true None;
    mk_field "cardholderName" FText "Cardholder Name" true None ])
].

(** [apiResponses[t]]. *)
Definition lookup_schema (t : string) : option (list field_desc) := apiResponses.[t].

(** [Object.keys(apiResponses)]: the menu items. *)
Definition menu_keys : list string := obj_keys apiResponses.

Definition field_names (fs : list field_desc) : list string := map fname fs.

(** A canonical array index starts with a digit; catalog names do not. *)
Definition starts_with_letter (s : string) : bool :=
  match s with
  | String c _ => negb (is_ascii_digit c)
  | EmptyString => false
  end.

(** Every schema of the catalog satisfies [P]. *)
Definition catalog_all (P : list field_desc -> bool) : bool :=
  forallb (fun kv => P (snd kv)) apiResponses.

(** ** Lemmas *)

Lemma lookup_schema_in (t : string) (fs : list field_desc) :
  lookup_schema t = Some fs -> In (t, fs) apiResponses.
Proof.
  unfold lookup_schema. generalize apiResponses as o.
  induction o as [|[k v] o IH]; simpl; [done|].
  destruct (String.eqb_spec t k) as [->|]; [naive_solver|]. auto.
Qed.

Lemma catalog_all_lookup (P : list field_desc -> bool) (t : string) (fs : list field_desc) :
  catalog_all P = true -> lookup_schema t = Some fs -> P fs = true.
Proof.
  intros Hall Hl. apply lookup_schema_in in Hl.
  unfold catalog_all in Hall. rewrite forallb_forall in Hall.
  apply (Hall _ Hl).
Qed.

Lemma menu_keys_lookup (t : string) : In t menu_keys <-> is_Some (lookup_schema t).
Proof. unfold menu_keys, lookup_schema. symmetry. apply obj_get_in_keys. Qed.

(** Field names are unique within every form type. *)
Theorem catalog_names_unique (t : string) (fs : list field_desc) :
  lookup_schema t = Some fs -> NoDup (field_names fs).
Proof.
  intros Hl. apply (catalog_all_lookup (fun fs => bool_decide (NoDup (field_names fs)))) in Hl.
  - by apply bool_decide_eq_true in Hl.
  - vm_compute. reflexivity.
Qed.

(** Every form type has a required field, so [requiredFields.length] is
    never 0 for a catalog schema. *)
Theorem catalog_has_required (t : string) (fs : list field_desc) :
  lookup_schema t = Some fs -> List.filter frequired fs <> [].
Proof.
  intros Hl. apply (catalog_all_lookup (fun fs => negb (bool_decide (List.filter frequired fs = [])))) in Hl.
  - intros He. rewrite He in Hl. discriminate.
  - vm_compute. reflexivity.
Qed.

(** No field name is an array index, so objects keyed by field names keep
    insertion order. *)
Lemma catalog_names_not_index (t : string) (fs : list field_desc) :
  lookup_schema t = Some fs -> forallb starts_with_letter (field_names fs) = true.
Proof. intros Hl. by apply (catalog_all_lookup (fun fs => forallb starts_with_letter (field_names fs))) in Hl. Qed.

(** Every field of the catalog is required. *)
Lemma catalog_all_required (t : string) (fs : list field_desc) :
  lookup_schema t = Some fs -> forallb frequired fs = true.
Proof. intros Hl. by apply (catalog_all_lookup (forallb frequired)) in Hl. Qed.

#[export] Hint Resolve catalog_has_required : js.

(** ** Witnesses *)

Lemma catalog_names_unique_witness :
  NoDup (field_names (default [] (lookup_schema "payment"))).
Proof. apply (catalog_names_unique "payment"). reflexivity. Defined.
