(* ===== verification/Validator.v ===== *)
(** * Validator: [validateField] (DynamicForm.jsx lines 8-31)

    [validateField(key, value)] returns an error message or [null].  The
    value is a field value of [formData]: a string, or [undefined] for a
    field never typed into ([None]).  The rules are tried in the order of
    the source:
    - [!value] (undefined or the empty string): ["<key> is required."];
    - [age]: [value < 1 || value > 120], with JS Number semantics
      ([JsNumber]): a NaN value passes both comparisons;
    - [zipCode], [cardNumber], [cvv]: [/^\d{6}$/], [/^\d{16}$/], [/^\d{3}$/]
      tested with [regex_test] ([JsString]);
    - [expiryDate]: [new Date(value) <= new Date()] on time values
      ([JsDate]), the clock reading being the parameter [now];
    - any other key: required only.
    The date engine is a section [Context]: every theorem holds for every
    engine behaviour outside the ISO date-only forms. *)

From S2P Require Import Prelude JsString JsObject JsNumber JsDate Catalog.
From Stdlib Require Import String QArith Lqa.
Close Scope Q_scope.
Open Scope string_scope.

Section Validator.
Context `{DateEngine}.

Definition msg_required (key : string) : string := key ++ " is required.".
Definition msg_age (key : string) : string := key ++ " must be between 1 and 120.".
Definition msg_zip (key : string) : string := key ++ " must be a 6-digit number.".
Definition msg_card (key : string) : string := key ++ " must be a 16-digit number.".
Definition msg_expiry (key : string) : string := key ++ " must be a valid future date.".
Definition msg_cvv (key : string) : string := key ++ " must be a 3-digit number.".

(** The rules after the required check, on a non-empty string [v]. *)
Definition validate_rules (now : Z) (key v : string) : option string :=
  if String.eqb key "age" &&
     (js_lt (string_to_number v) (num_lit 1) || js_gt (string_to_number v) (num_lit 120))
  then Some (msg_age key)
  else if String.eqb key "zipCode" && negb (regex_test (re_digits 6) v)
  then Some (msg_zip key)
  else if String.eqb key "cardNumber" && negb (regex_test (re_digits 16) v)
  then Some (msg_card key)
  else if String.eqb key "expiryDate" && date_le (new_date_string v) (new_date_now now)
  then Some (msg_expiry key)
  else if String.eqb key "cvv" && negb (regex_test (re_digits 3) v)
  then Some (msg_cvv key)
  else None.

Definition validateField (now : Z) (key : string) (value : option string) : option string :=
  match value with
  | Some v => if negb (truthy_opt (Some v)) then Some (msg_required key)
              else validate_rules now key v
  | None => Some (msg_required key)
  end.

End Validator.

(** ** Lemmas *)

Section ValidatorLemmas.
Context `{DateEngine}.

(** The keys with a rule beyond the required check. *)
Definition rule_keys : list string := ["age"; "zipCode"; "cardNumber"; "expiryDate"; "cvv"].

Lemma validateField_falsy (now : Z) (key : string) (v : option string) :
  truthy_opt v = false -> validateField now key v = Some (msg_required key).
Proof. destruct v as [v|]; simpl; [|done]. intros ->. done. Qed.

Lemma validateField_truthy (now : Z) (key v : string) :
  v <> "" -> validateField now key (Some v) = validate_rules now key v.
Proof.
  intros Hv. simpl. destruct (String.eqb_spec v "") as [->|]; [done|]. done.
Qed.

(** Every message is a non-empty string: [if (error)] sees each one. *)
Lemma validateField_msg_nonempty (now : Z) (key : string) (v : option string) (e : string) :
  validateField now key v = Some e -> e <> "".
Proof.
  intros Hv He. subst e. unfold validateField, validate_rules in Hv.
  destruct v as [v|]; repeat case_match; simplify_eq; destruct key; discriminate.
Qed.

(** A key without a rule is only required. *)
Theorem validateField_other (now : Z) (key : string) (v : option string) :
  ~ In key rule_keys ->
  validateField now key v = if truthy_opt v then None else Some (msg_required key).
Proof.
  intros Hk. destruct (truthy_opt v) eqn:Ht; [|by apply validateField_falsy].
  destruct v as [v|]; [|discriminate]. simpl in Ht.
  rewrite validateField_truthy by (by destruct (String.eqb_spec v "")).
  unfold validate_rules.
  repeat match goal with
  | |- context [String.eqb key ?k] =>
      destruct (String.eqb_spec key k) as [->|_]; [exfalso; apply Hk; simpl; tauto|]
  end. done.
Qed.

(** Rules other than [expiryDate] do not read the clock. *)
Theorem validateField_clock_independent (now now' : Z) (key : string) (v : option string) :
  key <> "expiryDate" -> validateField now key v = validateField now' key v.
Proof.
  intros Hk. destruct v as [v|]; simpl; [|done].
  destruct (negb _); [done|]. unfold validate_rules.
  apply String.eqb_neq in Hk. by rewrite Hk.
Qed.

(** C9: The digit rules: [zipCode], [cardNumber] and [cvv] accept exactly the
    strings of 6, 16 and 3 decimal digits. *)
Theorem validate_digits_rule (now : Z) (key : string) (n : nat) (v : string) :
  (key = "zipCode" /\ n = 6%nat) \/ (key = "cardNumber" /\ n = 16%nat) \/
  (key = "cvv" /\ n = 3%nat) ->
  validateField now key (Some v) = None <-> digits_exactly n v = true.
Proof.
  intros Hk. destruct (String.eqb_spec v "") as [->|Hv].
  - simpl. split; [discriminate|].
    by destruct_or! Hk; destruct Hk as [-> ->].
  - rewrite validateField_truthy by done. unfold validate_rules.
    assert (Hr : forall n, regex_test (re_digits n) v = digits_exactly n v).
    { intros n'. unfold regex_test, digits_exactly.
      rewrite <- length_list_ascii_of_string. apply search_re_digits. }
    rewrite !Hr.
    destruct_or! Hk; destruct Hk as [-> ->]; simpl;
      destruct (digits_exactly _ v); simpl; split; done.
Qed.

(** C10: [age]: a string of decimal digits passes exactly when its value is
    between 1 and 120 (values below 2^53, which convert exactly). *)
Theorem validate_age_digits (now : Z) (v : string) :
  v <> "" -> forallb is_ascii_digit (list_ascii_of_string v) = true ->
  (decimal_value v < 2 ^ 53)%Z ->
  validateField now "age" (Some v) = None <-> (1 <= decimal_value v <= 120)%Z.
Proof.
  intros Hv Hd Hb. rewrite validateField_truthy by done. unfold validate_rules.
  rewrite string_to_number_digits_exact by done.
  change (JFin (inject_Z (decimal_value v))) with (num_lit (decimal_value v)).
  rewrite js_lt_int, js_gt_int. simpl.
  destruct (Z.ltb_spec (decimal_value v) 1), (Z.ltb_spec 120 (decimal_value v));
    simpl; split; intros; try done; lia.
Qed.


(** C11: [expiryDate]: a date written ["YYYY-MM-DD"] passes exactly when its UTC
    midnight is after the clock. *)
Theorem validate_expiry_iso (now y m d : Z) :
  (0 <= y <= 9999)%Z -> (1 <= m <= 12)%Z -> (1 <= d <= 31)%Z ->
  (Z.abs now <= 8640000000000000)%Z ->
  validateField now "expiryDate" (Some (iso_date_string y m d)) = None <->
  (now < date_value y m d)%Z.
Proof.
  intros Hy Hm Hd Hn. rewrite validateField_truthy by apply iso_date_string_nonempty.
  unfold validate_rules. simpl.
  rewrite new_date_iso by done. unfold new_date_now.
  rewrite time_clip_some, date_le_some by done.
  destruct (Z.leb_spec (date_value y m d) now); simpl; split; intros; try done; lia.
Qed.

(** C26: [expiryDate]: a string that is no valid date (an Invalid Date, time
    value NaN) passes, since [NaN <= t] is false. *)
Theorem validate_expiry_invalid_date (now : Z) (v : string) :
  v <> "" -> new_date_string v = None -> validateField now "expiryDate" (Some v) = None.
Proof.
  intros Hv Hn. rewrite validateField_truthy by done. unfold validate_rules. simpl.
  rewrite Hn. by autorewrite with jsrw.
Qed.

(** [expiryDate]: once rejected at a clock reading, a value stays rejected
    at every later reading (the validity window only closes). *)
Theorem validate_expiry_persists (now now' : Z) (v : option string) :
  (now <= now')%Z -> (Z.abs now' <= 8640000000000000)%Z ->
  validateField now "expiryDate" v <> None -> validateField now' "expiryDate" v <> None.
Proof.
  intros Hle Hb. destruct v as [v|]; simpl; [|done].
  destruct (negb _); [done|]. unfold validate_rules. simpl.
  destruct (date_le (new_date_string v) (new_date_now now)) eqn:Hd; simpl; [|done].
  by rewrite (date_le_clock_mono _ now now').
Qed.

(** The spec's [age] boundary: 1 and 120 are valid, 0 and 121 are not. *)
Theorem age_boundary (now : Z) :
  validateField now "age" (Some "1") = None /\ validateField now "age" (Some "120") = None /\
  validateField now "age" (Some "0") = Some (msg_age "age") /\
  validateField now "age" (Some "121") = Some (msg_age "age").
Proof. vm_compute. split_and!; reflexivity. Qed.

(** [Qlt_bool] decides [<] on rationals. *)
Lemma Qlt_bool_iff (a b : Q) : Qlt_bool a b = true <-> (a < b)%Q.
Proof.
  unfold Qlt_bool. rewrite negb_true_iff. split; intros Hab.
  - apply Qnot_le_lt. intros Hle. apply Qle_bool_iff in Hle. congruence.
  - destruct (Qle_bool b a) eqn:Hle; [|done]. apply Qle_bool_iff in Hle. exfalso. by apply (Qlt_not_le a b).
Qed.

Lemma Qlt_bool_false (a b : Q) : Qlt_bool a b = false <-> (b <= a)%Q.
Proof.
  unfold Qlt_bool. rewrite negb_false_iff. apply Qle_bool_iff.
Qed.

(** C32: [age] passes exactly when the value is non-empty and [Number(value)]
    is NaN or a number between 1 and 120: the rule is [value < 1 ||
    value > 120] on the converted Number, so every StringNumericLiteral
    (exponent, hexadecimal, surrounding white space, a decimal that rounds
    to 120) is judged by its binary64 value, and every non-number passes. *)
Theorem validate_age_number (now : Z) (v : string) :
  validateField now "age" (Some v) = None <->
  v <> "" /\ (string_to_number v = JNaN \/
              exists q, string_to_number v = JFin q /\ (1 <= q <= 120)%Q).
Proof.
  destruct (String.eqb_spec v "") as [->|Hv]; [simpl; split; [discriminate|by intros []]|].
  rewrite validateField_truthy by done. unfold validate_rules. simpl.
  destruct (string_to_number v) as [|[]|q]; simpl.
  - split; [|done]. intros _. split; [done|]. by left.
  - split; [discriminate|]. intros [_ [|(? & ? & _)]]; discriminate.
  - split; [discriminate|]. intros [_ [|(? & ? & _)]]; discriminate.
  - unfold num_lit. change (inject_Z 1) with 1%Q. change (inject_Z 120) with 120%Q.
    cbn [js_lt js_gt is_less_than]. transitivity (1 <= q <= 120)%Q.
    + destruct (Qlt_bool q 1) eqn:H1; [apply Qlt_bool_iff in H1|apply Qlt_bool_false in H1];
        (destruct (Qlt_bool 120 q) eqn:H2; [apply Qlt_bool_iff in H2|apply Qlt_bool_false in H2]);
        simpl; split; intros Hx; try done; try (exfalso; lra); split; lra.
    + split; [intros Hq; split; [done|right; by exists q]|].
      by intros [_ [|(q' & [= <-] & Hq)]].
Qed.

End ValidatorLemmas.

(** ** Witnesses *)

Lemma validate_age_digits_witness :
  @validateField strict_engine 0 "age" (Some "120") = None <->
  (1 <= decimal_value "120" <= 120)%Z.
Proof. apply validate_age_digits; [discriminate | reflexivity | vm_compute; reflexivity]. Defined.


Lemma validate_expiry_iso_witness :
  @validateField strict_engine 1700000000000 "expiryDate" (Some (iso_date_string 2030 1 1)) = None <->
  (1700000000000 < date_value 2030 1 1)%Z.
Proof. apply validate_expiry_iso; lia. Defined.

Lemma validate_expiry_invalid_date_witness :
  @validateField strict_engine 1700000000000 "expiryDate" (Some "2024-13-01") = None.
Proof. apply validate_expiry_invalid_date; [discriminate | vm_compute; reflexivity]. Defined.

Lemma validate_expiry_persists_witness :
  @validateField strict_engine 2000000000000 "expiryDate" (Some "2030-01-01") <> None.
Proof.
  apply (validate_expiry_persists 1900000000000); [lia | lia | vm_compute; discriminate].
Defined.

Lemma validate_digits_rule_witness :
  @validateField strict_engine 0 "zipCode" (Some "560001") = None <-> digits_exactly 6 "560001" = true.
Proof. apply validate_digits_rule. left. split; reflexivity. Defined.

Lemma validateField_other_witness :
  @validateField strict_engine 0 "firstName" (Some "   ") =
  if truthy_opt (Some "   ") then None else Some (msg_required "firstName").
Proof. apply validateField_other. vm_compute. intros [H|[H|[H|[H|[H|[]]]]]]; discriminate. Defined.

Lemma validateField_clock_independent_witness :
  @validateField strict_engine 0 "cvv" (Some "12") = @validateField strict_engine 1 "cvv" (Some "12").
Proof. apply validateField_clock_independent. discriminate. Defined.
