(* ===== verification/FormSession.v ===== *)
(** * FormSession: the [DynamicForm] component (DynamicForm.jsx lines 33-114)

    The component state is five [useState] hooks: [fields] (the rendered
    descriptors; [undefined] after looking up an unknown type), [formData],
    [errors] (field name to message or [null]), [formType] and [progress].
    Its props are [onSubmit] (the host callback) and [editData] (the edit
    context or [null]).

    Each handler is a function from the current state (the closure of the
    last render) to [Ok (new state, effects)], where the effects are, in
    program order, the toasts and the [onSubmit] call; React applies all
    [set*] calls of one handler together after it returns.  A handler that
    reads a property of [undefined] [fields] throws a TypeError: [Crash].
    - [handleDropdownChange]: lines 68-74;
    - [handleChange]: lines 76-87, with the progress computed in binary64;
    - [handleSubmit]: lines 89-114 (the empty check, the per-field
      validation with [forEach], and the success path);
    - [load_edit]: the [useEffect] of lines 60-66, run after a render in
      which [editData] changed. *)

From S2P Require Import Prelude JsString JsObject JsNumber JsDate Catalog Validator.
From Stdlib Require Import String QArith.
Close Scope Q_scope.
Open Scope string_scope.
Open Scope js_scope.

(** The record handed to [onSubmit] and stored by the host:
    [{ type, data }]. *)
Record record : Type := mk_record { rtype : string; rdata : js_obj string }.

(** The host's [editData]: [{ index, ...submittedData[index] }]. *)
Record edit_ctx : Type := mk_edit { eindex : nat; etype : string; edata : js_obj string }.

Inductive toast_kind : Type := TError | TSuccess | TInfo.

Inductive effect : Type :=
  | Toast (k : toast_kind) (msg : string)
  | CallOnSubmit (r : record).

Record form_state : Type := mk_form {
  fields : option (list field_desc);
  formData : js_obj string;
  errors : js_obj (option string);
  formType : string;
  progress : jsnum
}.

Inductive outcome (S : Type) : Type :=
  | Ok (s : S) (effs : list effect)
  | Crash.
Arguments Ok {S}.
Arguments Crash {S}.

(** The state of the first render. *)
Definition form_init : form_state :=
  mk_form (Some []) [] [] "" (num_lit 0).

Definition msg_empty : string :=
  "Cannot submit an empty form. Please fill out the required fields.".
Definition msg_fix : string := "Please fix validation errors before submitting.".
Definition msg_saved : string := "Changes saved successfully!".
Definition msg_submitted : string := "Form submitted successfully!".

Section Handlers.
Context `{DateEngine}.

Definition handleDropdownChange (selection : string) (st : form_state) : form_state :=
  mk_form (lookup_schema selection) [] [] selection (num_lit 0).

(** [!data[f.name]?.trim()]: the field is blank. *)
Definition blank (data : js_obj string) (f : field_desc) : bool :=
  negb (truthy_opt (opt_trim (data.[fname f]))).

(** [(filledFields.length / requiredFields.length) * 100]. *)
Definition progress_of (fs : list field_desc) (data : js_obj string) : jsnum :=
  let requiredFields := List.filter frequired fs in
  let filledFields := List.filter (fun f => negb (blank data f)) requiredFields in
  js_mul (js_div (num_of_nat (List.length filledFields))
                 (num_of_nat (List.length requiredFields)))
         (num_lit 100).

Definition handleChange (now : Z) (field : field_desc) (value : string)
    (st : form_state) : outcome form_state :=
  let updatedData := (formData st).[fname field := value] in
  let error := validateField now (fname field) (Some value) in
  let errors' := (errors st).[fname field := error] in
  match fields st with
  | None => Crash
  | Some fs =>
      Ok (mk_form (fields st) updatedData errors' (formType st) (progress_of fs updatedData)) []
  end.

(** The body of [fields.forEach]: record a truthy error. *)
Definition collect_step (now : Z) (data : js_obj string) (acc : js_obj string)
    (f : field_desc) : js_obj string :=
  match validateField now (fname f) (data.[fname f]) with
  | Some e => if truthy_opt (Some e) then acc.[fname f := e] else acc
  | None => acc
  end.

(** [validationErrors] after [fields.forEach], in field order. *)
Definition collect_errors (now : Z) (data : js_obj string) (fs : list field_desc)
  : js_obj string :=
  fold_left (collect_step now data) fs [].

Definition handleSubmit (now : Z) (editData : option edit_ctx) (st : form_state)
  : outcome form_state :=
  match fields st with
  | None => Crash
  | Some fs =>
      if forallb (blank (formData st)) fs then Ok st [Toast TError msg_empty]
      else
        let validationErrors := collect_errors now (formData st) fs in
        if negb (Nat.eqb (List.length (obj_keys validationErrors)) 0) then
          Ok (mk_form (fields st) (formData st) (obj_map Some validationErrors)
                      (formType st) (progress st))
             [Toast TError msg_fix]
        else
          Ok (mk_form (Some []) [] (errors st) (formType st) (num_lit 0))
             [CallOnSubmit (mk_record (formType st) (formData st));
              Toast TSuccess (match editData with Some _ => msg_saved | None => msg_submitted end)]
  end.

(** The effect on [editData]: load the record's type, schema and data. *)
Definition load_edit (editData : option edit_ctx) (st : form_state) : form_state :=
  match editData with
  | Some e => mk_form (lookup_schema (etype e)) (edata e) (errors st) (etype e) (progress st)
  | None => st
  end.

End Handlers.

(** ** Lemmas *)

Section FormLemmas.
Context `{DateEngine}.
Variable now : Z.
Variable data : js_obj string.

Let vf (f : field_desc) : option string := validateField now (fname f) (data.[fname f]).

Lemma collect_step_none (acc : js_obj string) (f : field_desc) :
  vf f = None -> collect_step now data acc f = acc.
Proof. unfold collect_step. subst vf. simpl. by intros ->. Qed.

Lemma collect_step_some (acc : js_obj string) (f : field_desc) (e : string) :
  vf f = Some e -> collect_step now data acc f = acc.[fname f := e].
Proof.
  unfold collect_step. subst vf. simpl. intros He. rewrite He.
  apply validateField_msg_nonempty in He. simpl.
  by destruct (String.eqb_spec e "").
Qed.

Lemma collect_keys_mono (fs : list field_desc) (acc : js_obj string) (k : string) :
  In k (obj_keys acc) -> In k (obj_keys (fold_left (collect_step now data) fs acc)).
Proof.
  revert acc. induction fs as [|f fs IH]; intros acc Hk; simpl; [done|]. apply IH.
  destruct (vf f) as [e|] eqn:He.
  - rewrite (collect_step_some _ _ e) by done. apply obj_keys_set_incl. by right.
  - by rewrite collect_step_none.
Qed.

Lemma collect_has_error (fs : list field_desc) (acc : js_obj string) (f : field_desc) (e : string) :
  In f fs -> vf f = Some e -> In (fname f) (obj_keys (fold_left (collect_step now data) fs acc)).
Proof.
  revert acc. induction fs as [|g fs IH]; intros acc Hin He; simpl; [done|].
  destruct Hin as [->|Hin]; [|by apply IH].
  apply collect_keys_mono. rewrite (collect_step_some _ _ e) by done.
  apply obj_keys_set_incl. by left.
Qed.

Lemma collect_all_valid (fs : list field_desc) (acc : js_obj string) :
  (forall f, In f fs -> vf f = None) -> fold_left (collect_step now data) fs acc = acc.
Proof.
  revert acc. induction fs as [|f fs IH]; intros acc Hall; simpl; [done|].
  rewrite collect_step_none by (apply Hall; by left). apply IH. naive_solver.
Qed.

(** No error is collected exactly when every field validates. *)
Lemma collect_errors_nil_iff (fs : list field_desc) :
  collect_errors now data fs = [] <-> forall f, In f fs -> vf f = None.
Proof.
  split; [|intros; by apply collect_all_valid].
  intros Hnil f Hin. destruct (vf f) as [e|] eqn:He; [|done].
  pose proof (collect_has_error fs [] f e Hin He) as Hk.
  unfold collect_errors in Hnil. rewrite Hnil in Hk. done.
Qed.

Lemma collect_other (fs : list field_desc) (acc : js_obj string) (k : string) :
  ~ In k (field_names fs) -> (fold_left (collect_step now data) fs acc).[k] = acc.[k].
Proof.
  revert acc. induction fs as [|f fs IH]; intros acc Hk; simpl; [done|].
  simpl in Hk. rewrite IH by naive_solver.
  destruct (vf f) as [e|] eqn:He.
  - rewrite (collect_step_some _ _ e) by done. apply obj_get_set_ne. naive_solver.
  - by rewrite collect_step_none.
Qed.

Lemma collect_step_get_ne (acc : js_obj string) (g : field_desc) (k : string) :
  k <> fname g -> (collect_step now data acc g).[k] = acc.[k].
Proof.
  intros Hk. destruct (vf g) as [e|] eqn:He.
  - rewrite (collect_step_some _ _ e) by done. by apply obj_get_set_ne.
  - by rewrite collect_step_none.
Qed.

Lemma collect_fold_get (fs : list field_desc) (acc : js_obj string) (f : field_desc) :
  NoDup (field_names fs) -> In f fs -> (forall g, In g fs -> acc.[fname g] = None) ->
  (fold_left (collect_step now data) fs acc).[fname f] = vf f.
Proof.
  revert acc. induction fs as [|g fs IH]; intros acc Hnd Hin Hacc; [done|].
  simpl in Hnd |- *. apply list.NoDup_cons in Hnd as [Hg Hnd].
  rewrite list_elem_of_In in Hg.
  destruct Hin as [->|Hin].
  - rewrite collect_other by done.
    destruct (vf f) as [e|] eqn:He.
    + rewrite (collect_step_some _ _ e) by done. apply obj_get_set_eq.
    + rewrite collect_step_none by done. apply Hacc. by left.
  - apply IH; [done|done|]. intros h Hh.
    rewrite collect_step_get_ne; [apply Hacc; by right|].
    intros He. apply Hg. rewrite <- He. by apply in_map.
Qed.

(** With unique names, the collected error of a field is its validation
    result. *)
Lemma collect_errors_get (fs : list field_desc) (f : field_desc) :
  NoDup (field_names fs) -> In f fs -> (collect_errors now data fs).[fname f] = vf f.
Proof. intros Hnd Hin. by apply collect_fold_get. Qed.

End FormLemmas.

(** Case on the catalog schema named in [Hl] and on the count [c] of
    filled required fields bounded by [Hc] (at most four), evaluating the
    binary64 progress of each case and closing it with [tac]. *)
Ltac catalog_count_cases Hl Hc c tac :=
  destruct_or! Hl; simplify_eq; simpl in Hc;
  do 5 (destruct c as [|c];
        [first [exfalso; lia | eexists; split; [reflexivity|tac]]|]); lia.

Section SessionTheorems.
Context `{DateEngine}.

(** C19: Progress when every required field is filled: exactly 100. *)
Theorem progress_full (fs : list field_desc) (data : js_obj string) :
  List.filter frequired fs <> [] ->
  forallb (fun f => negb (blank data f)) (List.filter frequired fs) = true ->
  progress_of fs data = num_lit 100.
Proof.
  intros Hne Hall. unfold progress_of.
  rewrite (proj2 (filter_length_eq _ _)) by (by apply forallb_forall).
  rewrite js_div_self.
  - by apply js_mul_lit.
  - destruct (List.filter frequired fs); [done|simpl; lia].
Qed.

(** With a required field the progress is a number (never NaN). *)
Lemma progress_not_nan (fs : list field_desc) (data : js_obj string) :
  List.filter frequired fs <> [] -> progress_of fs data <> JNaN.
Proof.
  intros Hne. unfold progress_of. apply js_mul_lit_not_nan; [lia|].
  apply js_div_not_nan. destruct (List.filter frequired fs); [done|simpl; lia].
Qed.

(** C20: For a catalog schema, a blank required field keeps the progress below
    100 (the binary64 quotient and product included). *)
Theorem progress_partial (t : string) (fs : list field_desc) (data : js_obj string)
    (f : field_desc) :
  lookup_schema t = Some fs -> In f fs -> blank data f = true ->
  exists q, progress_of fs data = JFin q /\ (q < 100)%Q.
Proof.
  intros Hl Hin Hb. unfold progress_of.
  assert (Hreq : In f (List.filter frequired fs)).
  { apply filter_In. split; [done|].
    apply catalog_all_required in Hl. rewrite forallb_forall in Hl. by apply Hl. }
  pose proof (filter_length_lt (fun g => negb (blank data g)) _ f Hreq
    ltac:(cbn beta; by rewrite Hb)) as Hlt.
  revert Hlt.
  generalize (List.length (List.filter (fun g => negb (blank data g))
                                       (List.filter frequired fs))) as c.
  apply lookup_schema_in in Hl. simpl in Hl.
  intros c Hc.
  catalog_count_cases Hl Hc c ltac:(vm_compute; reflexivity).
Qed.

(** For a catalog schema the progress is a number between 0 and 100. *)
Theorem progress_bounds (t : string) (fs : list field_desc) (data : js_obj string) :
  lookup_schema t = Some fs -> exists q, progress_of fs data = JFin q /\ (0 <= q <= 100)%Q.
Proof.
  intros Hl. unfold progress_of.
  pose proof (filter_length_le (fun g => negb (blank data g)) (List.filter frequired fs)) as Hc.
  revert Hc.
  generalize (List.length (List.filter (fun g => negb (blank data g))
                                       (List.filter frequired fs))) as c.
  apply lookup_schema_in in Hl. simpl in Hl.
  intros c Hc.
  catalog_count_cases Hl Hc c ltac:(split; apply Qle_bool_imp_le; vm_compute; reflexivity).
Qed.

(** C4: Submitting reaches [onSubmit] exactly when the form is not blank and
    every field validates; the record is the current type and data. *)
Theorem handleSubmit_onSubmit_iff (now : Z) (ed : option edit_ctx) (st : form_state)
    (fs : list field_desc) (r : record) :
  fields st = Some fs ->
  (exists st' effs, handleSubmit now ed st = Ok st' effs /\ In (CallOnSubmit r) effs) <->
  (r = mk_record (formType st) (formData st) /\
   forallb (blank (formData st)) fs = false /\
   forall f, In f fs -> validateField now (fname f) ((formData st).[fname f]) = None).
Proof.
  intros Hf. unfold handleSubmit. rewrite Hf.
  destruct (forallb (blank (formData st)) fs) eqn:Hb.
  { split; [intros (st' & effs & [= <- <-] & [Hin|[]]); discriminate|].
    intros (_ & Hc & _). discriminate. }
  destruct (collect_errors now (formData st) fs) as [|kv ve] eqn:Hc; simpl.
  - pose proof (proj1 (collect_errors_nil_iff now (formData st) fs) Hc) as Hv. split.
    + intros (st' & effs & [= <- <-] & Hin). simpl in Hin.
      destruct Hin as [[= <-]|[|[]]]; [|discriminate]. done.
    + intros (-> & _ & _). eexists _, _. split; [reflexivity|]. by left.
  - split.
    + intros (st' & effs & [= <- <-] & [Hin|[]]). discriminate.
    + intros (_ & _ & Hall). apply (proj2 (collect_errors_nil_iff now (formData st) fs)) in Hall.
      rewrite Hc in Hall. discriminate.
Qed.

(** C8: A blank ([undefined] or [""]) field in a non-empty form fails the
    submit with its "is required." message and keeps the form data. *)
Theorem handleSubmit_required_missing (now : Z) (ed : option edit_ctx) (st : form_state)
    (fs : list field_desc) (f : field_desc) :
  fields st = Some fs -> NoDup (field_names fs) -> In f fs ->
  truthy_opt ((formData st).[fname f]) = false ->
  forallb (blank (formData st)) fs = false ->
  exists st', handleSubmit now ed st = Ok st' [Toast TError msg_fix] /\
    (errors st').[fname f] = Some (Some (msg_required (fname f))) /\
    formData st' = formData st /\ fields st' = fields st.
Proof.
  intros Hf Hnd Hin Ht Hb. unfold handleSubmit. rewrite Hf, Hb.
  pose proof (collect_errors_get now (formData st) fs f Hnd Hin) as Hg.
  cbv beta in Hg. rewrite validateField_falsy in Hg by done.
  assert (Hne : Nat.eqb (List.length (obj_keys (collect_errors now (formData st) fs))) 0 = false).
  { destruct (collect_errors now (formData st) fs); [done|reflexivity]. }
  rewrite Hne. cbn [negb]. eexists. split; [reflexivity|].
  cbn [errors formData fields]. rewrite obj_get_map, Hg. done.
Qed.

End SessionTheorems.

(** ** Witnesses *)

Section Witnesses.
#[local] Existing Instance strict_engine.

#[local] Abbreviation user_schema := (default [] (lookup_schema "userInfo")).
#[local] Abbreviation ann := [("firstName", "Ann"); ("lastName", "Lee"); ("age", "30")].
#[local] Abbreviation age_field := (Catalog.mk_field "age" FNumber "Age" true None).

Lemma progress_full_witness : progress_of user_schema ann = num_lit 100.
Proof. apply progress_full; vm_compute; [discriminate | reflexivity]. Defined.

Lemma progress_partial_witness :
  exists q, progress_of user_schema [("firstName", "Ann")] = JFin q /\ (q < 100)%Q.
Proof. apply (progress_partial "userInfo" _ _ age_field); [reflexivity | simpl; tauto | reflexivity]. Defined.

Lemma progress_bounds_witness :
  exists q, progress_of user_schema [("firstName", "Ann")] = JFin q /\ (0 <= q <= 100)%Q.
Proof. apply (progress_bounds "userInfo"). reflexivity. Defined.

Lemma handleSubmit_onSubmit_iff_witness :
  (exists st' effs, handleSubmit 0 None (mk_form (Some user_schema) ann [] "userInfo" (num_lit 100))
                      = Ok st' effs /\ In (CallOnSubmit (mk_record "userInfo" ann)) effs) <->
  (mk_record "userInfo" ann = mk_record "userInfo" ann /\
   forallb (blank ann) user_schema = false /\
   forall f, In f user_schema -> validateField 0 (fname f) (ann.[fname f]) = None).
Proof.
  apply (handleSubmit_onSubmit_iff 0 None (mk_form (Some user_schema) ann [] "userInfo" (num_lit 100))
           user_schema (mk_record "userInfo" ann)).
  reflexivity.
Defined.

Lemma handleSubmit_required_missing_witness :
  exists st', handleSubmit 0 None (mk_form (Some user_schema) [("firstName", "Ann")] [] "userInfo"
                                          (num_lit 0)) = Ok st' [Toast TError msg_fix] /\
    (errors st').[fname age_field] = Some (Some (msg_required (fname age_field))) /\
    formData st' = [("firstName", "Ann")] /\ fields st' = Some user_schema.
Proof.
  apply (handleSubmit_required_missing 0 None
           (mk_form (Some user_schema) [("firstName", "Ann")] [] "userInfo" (num_lit 0))
           user_schema age_field);
    [reflexivity | apply (bool_decide_unpack (NoDup (field_names user_schema))); vm_compute; reflexivity
    | simpl; tauto
    | reflexivity | vm_compute; reflexivity].
Defined.

End Witnesses.
