(* ===== verification/AppStore.v ===== *)
(** * AppStore: the host [App] (App.jsx) and the [DataTable] click handlers

    [App] keeps [submittedData], the record store (an array of
    [{ type, data }]), and [editData], the edit context or [null].
    - [handleFormSubmit] (lines 13-22): with an edit context, replace the
      entry at [editData.index] by [prevData.map((entry, index) => ...)] and
      clear the context; without one, append.
    - [handleEdit] (lines 24-26): [setEditData({ index, ...submittedData[index] })].
    - [handleDelete] (lines 28-30): [prevData.filter((_, i) => i !== index)].
    [DataTable] (DataTable.jsx lines 6-16) shows an info toast and calls
    [onEdit], or asks [window.confirm] and on confirmation calls [onDelete]
    and shows a success toast.

    The spec's record store (section 4.4) is stated abstractly
    ([spec_append], [spec_replaceAt], [spec_removeAt], failing with
    [IndexOutOfRange]); the refinement theorems relate the code to it, and
    show where they part: out of range the code silently does nothing. *)

From S2P Require Import Prelude JsString JsObject JsNumber JsDate Catalog Validator FormSession.
From Stdlib Require Import String.
Open Scope string_scope.

Record app_state : Type := mk_app {
  submittedData : list record;
  editData : option edit_ctx
}.

Definition app_init : app_state := mk_app [] None.

(** [Array.prototype.map] with the index argument. *)
Fixpoint map_idx {A B} (f : nat -> A -> B) (l : list A) (i : nat) : list B :=
  match l with
  | [] => []
  | x :: l' => f i x :: map_idx f l' (S i)
  end.

(** [Array.prototype.filter] with the index argument. *)
Fixpoint filter_idx {A} (p : nat -> A -> bool) (l : list A) (i : nat) : list A :=
  match l with
  | [] => []
  | x :: l' => if p i x then x :: filter_idx p l' (S i) else filter_idx p l' (S i)
  end.

Definition handleFormSubmit (r : record) (a : app_state) : app_state :=
  match editData a with
  | Some e =>
      mk_app (map_idx (fun index entry => if Nat.eqb index (eindex e) then r else entry)
                      (submittedData a) 0)
             None
  | None => mk_app (submittedData a ++ [r])%list (editData a)
  end.

(** [{ index, ...submittedData[index] }]; an index outside the array (which
    the table never passes) would spread [undefined]: [None]. *)
Definition handleEdit (index : nat) (a : app_state) : option app_state :=
  match submittedData a !! index with
  | Some r => Some (mk_app (submittedData a) (Some (mk_edit index (rtype r) (rdata r))))
  | None => None
  end.

Definition handleDelete (index : nat) (a : app_state) : app_state :=
  mk_app (filter_idx (fun i _ => negb (Nat.eqb i index)) (submittedData a) 0) (editData a).

(** The effects of the table's click handlers, in program order. *)
Inductive table_effect : Type :=
  | TToast (k : toast_kind) (msg : string)
  | TOnEdit (index : nat)
  | TOnDelete (index : nat).

Definition msg_editing : string := "You are editing a form.".
Definition msg_deleted : string := "Form deleted successfully.".

Definition handleEditClick (index : nat) : list table_effect :=
  [TToast TInfo msg_editing; TOnEdit index].

Definition handleDeleteClick (index : nat) (confirmed : bool) : list table_effect :=
  if confirmed then [TOnDelete index; TToast TSuccess msg_deleted] else [].

(** ** The record store of the spec *)

Inductive store_error : Type := IndexOutOfRange.

Definition spec_append (r : record) (l : list record) : list record * nat :=
  ((l ++ [r])%list, List.length l).

Definition spec_replaceAt (i : nat) (r : record) (l : list record)
  : list record + store_error :=
  if (i <? List.length l)%nat then inl (<[i := r]> l) else inr IndexOutOfRange.

Definition spec_removeAt (i : nat) (l : list record) : list record + store_error :=
  if (i <? List.length l)%nat then inl (delete i l) else inr IndexOutOfRange.

(** ** Lemmas *)

Section IndexLemmas.
Context {A : Type}.

Lemma map_idx_const (f : nat -> A -> A) (l : list A) (j : nat) :
  (forall k x, (j <= k)%nat -> f k x = x) -> map_idx f l j = l.
Proof.
  revert j. induction l as [|x l IH]; intros j Hf; simpl; [done|].
  rewrite Hf by lia. f_equal. apply IH. intros k y Hk. apply Hf. lia.
Qed.

(** The [map] of [handleFormSubmit] is the list update [<[i:=r]>]. *)
Lemma map_idx_replace (l : list A) (r : A) (i j : nat) :
  map_idx (fun k x => if Nat.eqb k (i + j) then r else x) l j = <[i := r]> l.
Proof.
  revert i j. induction l as [|x l IH]; intros i j; simpl; [done|].
  destruct i as [|i]; simpl.
  - rewrite Nat.eqb_refl. f_equal. apply map_idx_const.
    intros k y Hk. destruct (Nat.eqb_spec k j); [lia|done].
  - destruct (Nat.eqb_spec j (S (i + j))); [lia|]. f_equal.
    replace (S (i + j)) with (i + S j)%nat by lia. apply IH.
Qed.

Lemma filter_idx_all (p : nat -> A -> bool) (l : list A) (j : nat) :
  (forall k x, (j <= k)%nat -> p k x = true) -> filter_idx p l j = l.
Proof.
  revert j. induction l as [|x l IH]; intros j Hp; simpl; [done|].
  rewrite Hp by lia. f_equal. apply IH. intros k y Hk. apply Hp. lia.
Qed.

(** The [filter] of [handleDelete] is the list deletion [delete i]. *)
Lemma filter_idx_delete (l : list A) (i j : nat) :
  filter_idx (fun k _ => negb (Nat.eqb k (i + j))) l j = delete i l.
Proof.
  revert i j. induction l as [|x l IH]; intros i j; simpl; [done|].
  destruct i as [|i]; simpl.
  - rewrite Nat.eqb_refl. simpl. apply filter_idx_all.
    intros k y Hk. destruct (Nat.eqb_spec k j); [lia|done].
  - destruct (Nat.eqb_spec j (S (i + j))); [lia|]. simpl. f_equal.
    replace (S (i + j)) with (i + S j)%nat by lia. apply IH.
Qed.

Lemma delete_ge (l : list A) (i : nat) : (List.length l <= i)%nat -> delete i l = l.
Proof.
  revert i. induction l as [|x l IH]; intros i Hi; simpl; [done|].
  destruct i as [|i]; simpl in *; [lia|]. f_equal. apply IH. lia.
Qed.

End IndexLemmas.

(** The store after a save in edit mode, as the spec's [replaceAt] (an
    index out of range leaves it as it is), and after a delete, as the
    list deletion (which is [removeAt] in range and the identity
    outside). *)
Lemma handleFormSubmit_store_edit (a : app_state) (e : edit_ctx) (r : record) :
  editData a = Some e ->
  submittedData (handleFormSubmit r a) =
    match spec_replaceAt (eindex e) r (submittedData a) with
    | inl l' => l'
    | inr IndexOutOfRange => submittedData a
    end.
Proof.
  intros He. unfold handleFormSubmit, spec_replaceAt. rewrite He. simpl.
  pose proof (map_idx_replace (submittedData a) r (eindex e) 0) as Hm.
  rewrite Nat.add_0_r in Hm. rewrite Hm.
  destruct (Nat.ltb_spec (eindex e) (List.length (submittedData a))); [done|].
  by apply list_insert_ge.
Qed.

Lemma handleDelete_store (a : app_state) (i : nat) :
  submittedData (handleDelete i a) = delete i (submittedData a).
Proof.
  unfold handleDelete. simpl.
  pose proof (filter_idx_delete (submittedData a) i 0) as Hm. by rewrite Nat.add_0_r in Hm.
Qed.

Lemma spec_removeAt_delete (i : nat) (l : list record) :
  match spec_removeAt i l with inl l' => l' | inr IndexOutOfRange => l end = delete i l.
Proof.
  unfold spec_removeAt. destruct (Nat.ltb_spec i (List.length l)); [done|]. by rewrite delete_ge.
Qed.

(** C5: The edit path of [handleFormSubmit] implements [replaceAt] of the spec
    when the index is in range, and does nothing (no error) otherwise; the
    edit context is cleared either way. *)
Theorem handleFormSubmit_update_refines (a : app_state) (e : edit_ctx) (r : record) :
  editData a = Some e ->
  submittedData (handleFormSubmit r a) =
    match spec_replaceAt (eindex e) r (submittedData a) with
    | inl l' => l'
    | inr IndexOutOfRange => submittedData a
    end /\
  editData (handleFormSubmit r a) = None.
Proof.
  intros He. split; [by apply handleFormSubmit_store_edit|]. unfold handleFormSubmit. by rewrite He.
Qed.

(** C6: The create path implements [append]: the record lands at the index
    [append] returns. *)
Theorem handleFormSubmit_create_refines (a : app_state) (r : record) :
  editData a = None ->
  submittedData (handleFormSubmit r a) = fst (spec_append r (submittedData a)) /\
  submittedData (handleFormSubmit r a) !! snd (spec_append r (submittedData a)) = Some r /\
  editData (handleFormSubmit r a) = None.
Proof.
  intros He. unfold handleFormSubmit, spec_append. rewrite He. simpl.
  split_and!; [done| |done].
  rewrite lookup_app_r by lia. rewrite Nat.sub_diag. done.
Qed.

(** C7: [handleDelete] implements [removeAt] in range and is a silent no-op out
    of range, where the spec fails with [IndexOutOfRange]. *)
Theorem handleDelete_refines (a : app_state) (i : nat) :
  submittedData (handleDelete i a) =
    match spec_removeAt i (submittedData a) with
    | inl l' => l'
    | inr IndexOutOfRange => submittedData a
    end /\
  editData (handleDelete i a) = editData a.
Proof.
  split; [|done]. by rewrite handleDelete_store, spec_removeAt_delete.
Qed.

(** C23: Deleting a row at or before the one being edited shifts the rows under
    the edit context: the save then writes the edited record at the old
    index, over the row that followed the edited one, which was never
    edited. *)
Theorem delete_shifts_edit_target (a : app_state) (e : edit_ctx) (j : nat) (r : record) :
  editData a = Some e -> (j <= eindex e)%nat ->
  (S (eindex e) < List.length (submittedData a))%nat ->
  submittedData (handleFormSubmit r (handleDelete j a)) =
    <[eindex e := r]> (delete j (submittedData a)) /\
  delete j (submittedData a) !! eindex e = submittedData a !! S (eindex e).
Proof.
  intros He Hj Hlt. unfold handleFormSubmit. simpl. rewrite He. simpl. split.
  - pose proof (map_idx_replace (filter_idx (fun i _ => negb (Nat.eqb i j)) (submittedData a) 0)
                  r (eindex e) 0) as Hm.
    pose proof (filter_idx_delete (submittedData a) j 0) as Hd.
    rewrite Nat.add_0_r in Hm, Hd. by rewrite Hm, Hd.
  - by apply list_lookup_delete_ge.
Qed.

(** ** Witnesses *)

Lemma handleFormSubmit_update_refines_witness :
  submittedData (handleFormSubmit (mk_record "c" [])
                   (mk_app [mk_record "a" []; mk_record "b" []] (Some (mk_edit 1 "b" [])))) =
    match spec_replaceAt 1 (mk_record "c" []) [mk_record "a" []; mk_record "b" []] with
    | inl l' => l'
    | inr IndexOutOfRange => [mk_record "a" []; mk_record "b" []]
    end /\
  editData (handleFormSubmit (mk_record "c" [])
              (mk_app [mk_record "a" []; mk_record "b" []] (Some (mk_edit 1 "b" [])))) = None.
Proof.
  apply (handleFormSubmit_update_refines
           (mk_app [mk_record "a" []; mk_record "b" []] (Some (mk_edit 1 "b" [])))
           (mk_edit 1 "b" []) (mk_record "c" [])).
  reflexivity.
Defined.

Lemma handleFormSubmit_create_refines_witness :
  submittedData (handleFormSubmit (mk_record "b" []) (mk_app [mk_record "a" []] None)) =
    fst (spec_append (mk_record "b" []) [mk_record "a" []]) /\
  submittedData (handleFormSubmit (mk_record "b" []) (mk_app [mk_record "a" []] None))
    !! snd (spec_append (mk_record "b" []) [mk_record "a" []]) = Some (mk_record "b" []) /\
  editData (handleFormSubmit (mk_record "b" []) (mk_app [mk_record "a" []] None)) = None.
Proof.
  apply (handleFormSubmit_create_refines (mk_app [mk_record "a" []] None) (mk_record "b" [])).
  reflexivity.
Defined.

Lemma delete_shifts_edit_target_witness :
  submittedData (handleFormSubmit (mk_record "c" [])
                   (handleDelete 0 (mk_app [mk_record "a" []; mk_record "b" []]
                                           (Some (mk_edit 0 "a" []))))) =
    <[0%nat := mk_record "c" []]> (delete 0%nat [mk_record "a" []; mk_record "b" []]) /\
  delete 0%nat [mk_record "a" []; mk_record "b" []] !! 0%nat = [mk_record "a" []; mk_record "b" []] !! 1%nat.
Proof.
  apply (delete_shifts_edit_target (mk_app [mk_record "a" []; mk_record "b" []]
                                           (Some (mk_edit 0 "a" []))) (mk_edit 0 "a" []) 0
                                   (mk_record "c" []));
    [reflexivity | lia | simpl; lia].
Defined.
