(* ===== verification/System.v ===== *)
(** * System: the application as a step relation on UI events

    The state is the [DynamicForm] state, the [App] state and the log of the
    toasts shown.  One UI event runs one handler to completion, then React
    commits the batched updates and runs the effects whose dependencies
    changed:
    - [ESelect key]: a menu item ([handleDropdownChange]);
    - [EInput now f v]: typing [v] into the rendered field [f]
      ([handleChange] at clock [now]);
    - [ESubmit now]: the submit button ([handleSubmit]); the [onSubmit] call
      runs [App.handleFormSubmit] in place, the toasts are logged;
    - [EEditClick i] / [EDeleteClick i ok]: the table buttons; [onEdit]
      runs [handleEdit], after whose commit the form's effect on [editData]
      (a fresh object at each edit) runs [load_edit]; [onDelete] runs
      [handleDelete] when [window.confirm] answered [ok].
    [enabled] says which events the rendered UI offers: menu items are the
    catalog keys, inputs are the rendered fields (a dropdown offers its
    options and [""]), the table rows are the store's indices.  The submit
    path that resets [editData] to [null] also triggers the effect, which
    does nothing on [null]. *)

From S2P Require Import Prelude JsString JsObject JsNumber JsDate Catalog Validator FormSession AppStore.
From Stdlib Require Import String.
Open Scope string_scope.
Open Scope js_scope.

Record sys_state : Type := mk_sys {
  form : form_state;
  app : app_state;
  toasts : list (toast_kind * string)
}.

Definition sys_init : sys_state := mk_sys form_init app_init [].

Inductive event : Type :=
  | ESelect (key : string)
  | EInput (now : Z) (field : field_desc) (value : string)
  | ESubmit (now : Z)
  | EEditClick (index : nat)
  | EDeleteClick (index : nat) (confirmed : bool).

(** The form's effects in order: [onSubmit] reaches the host, toasts are
    logged. *)
Fixpoint run_form_effects (effs : list effect) (a : app_state)
    (log : list (toast_kind * string)) : app_state * list (toast_kind * string) :=
  match effs with
  | [] => (a, log)
  | Toast k m :: effs' => run_form_effects effs' a (log ++ [(k, m)])%list
  | CallOnSubmit r :: effs' => run_form_effects effs' (handleFormSubmit r a) log
  end.

(** The table's effects in order ([None]: [handleEdit] out of range). *)
Fixpoint run_table_effects (effs : list table_effect) (a : app_state)
    (log : list (toast_kind * string)) : option (app_state * list (toast_kind * string)) :=
  match effs with
  | [] => Some (a, log)
  | TToast k m :: effs' => run_table_effects effs' a (log ++ [(k, m)])%list
  | TOnEdit i :: effs' =>
      match handleEdit i a with
      | Some a' => run_table_effects effs' a' log
      | None => None
      end
  | TOnDelete i :: effs' => run_table_effects effs' (handleDelete i a) log
  end.

(** A value the rendered control can produce: a [<select>] offers [""] and
    its options. *)
Definition input_allowed (f : field_desc) (v : string) : bool :=
  match ftype f with
  | FDropdown =>
      String.eqb v "" ||
      match foptions f with Some opts => existsb (String.eqb v) opts | None => false end
  | _ => true
  end.

Definition enabled (s : sys_state) (ev : event) : bool :=
  match ev with
  | ESelect k => existsb (String.eqb k) menu_keys
  | EInput _ f v =>
      match fields (form s) with
      | Some fs => bool_decide (f ∈ fs) && input_allowed f v
      | None => false
      end
  | ESubmit _ => true
  | EEditClick i | EDeleteClick i _ => (i <? List.length (submittedData (app s)))%nat
  end.

Section Step.
Context `{DateEngine}.

Definition sys_step (s : sys_state) (ev : event) : option sys_state :=
  match ev with
  | ESelect k => Some (mk_sys (handleDropdownChange k (form s)) (app s) (toasts s))
  | EInput now f v =>
      match handleChange now f v (form s) with
      | Ok st _ => Some (mk_sys st (app s) (toasts s))
      | Crash => None
      end
  | ESubmit now =>
      match handleSubmit now (editData (app s)) (form s) with
      | Ok st effs =>
          let '(a', log) := run_form_effects effs (app s) (toasts s) in
          Some (mk_sys st a' log)
      | Crash => None
      end
  | EEditClick i =>
      match run_table_effects (handleEditClick i) (app s) (toasts s) with
      | Some (a', log) => Some (mk_sys (load_edit (editData a') (form s)) a' log)
      | None => None
      end
  | EDeleteClick i ok =>
      match run_table_effects (handleDeleteClick i ok) (app s) (toasts s) with
      | Some (a', log) => Some (mk_sys (form s) a' log)
      | None => None
      end
  end.

Inductive step : sys_state -> sys_state -> Prop :=
  | step_event (s s' : sys_state) (ev : event) :
      enabled s ev = true -> sys_step s ev = Some s' -> step s s'.

Definition reachable (s : sys_state) : Prop := rtc step sys_init s.

(** Run a sequence of events, refusing a disabled one. *)
Fixpoint run_events (s : sys_state) (evs : list event) : option sys_state :=
  match evs with
  | [] => Some s
  | ev :: evs' =>
      if enabled s ev then
        match sys_step s ev with
        | Some s' => run_events s' evs'
        | None => None
        end
      else None
  end.

End Step.

(** ** The invariant of reachable states *)

Section InvariantDefs.
Context `{DateEngine}.

(** A stored record: a catalog type, keys among its field names, and every
    field valid at the clock reading of its submission. *)
Definition record_ok (r : record) : Prop :=
  exists fs, lookup_schema (rtype r) = Some fs /\
    (forall k, In k (obj_keys (rdata r)) -> In k (field_names fs)) /\
    exists now0, forall f, In f fs -> validateField now0 (fname f) ((rdata r).[fname f]) = None.

(** The form shows nothing, or the schema of its type; its data has only
    keys of the shown fields; its progress is a number. *)
Definition form_ok (st : form_state) : Prop :=
  (fields st = Some [] \/ (fields st = lookup_schema (formType st) /\ is_Some (fields st))) /\
  (forall fs, fields st = Some fs ->
     forall k, In k (obj_keys (formData st)) -> In k (field_names fs)) /\
  progress st <> JNaN.

Definition app_ok (a : app_state) : Prop :=
  (forall r, In r (submittedData a) -> record_ok r) /\
  (forall e, editData a = Some e -> record_ok (mk_record (etype e) (edata e))).

Definition sys_ok (s : sys_state) : Prop := form_ok (form s) /\ app_ok (app s).

End InvariantDefs.

Section InvariantProofs.
Context `{DateEngine}.

Lemma in_map_idx_replace (l : list record) (r x : record) (i j : nat) :
  In x (map_idx (fun k e => if Nat.eqb k i then r else e) l j) -> x = r \/ In x l.
Proof.
  revert j. induction l as [|y l IH]; intros j; simpl; [done|].
  intros [Hx|Hx]; [|destruct (IH _ Hx); tauto].
  destruct (Nat.eqb j i); subst; tauto.
Qed.

Lemma in_filter_idx (p : nat -> record -> bool) (l : list record) (j : nat) (x : record) :
  In x (filter_idx p l j) -> In x l.
Proof.
  revert j. induction l as [|y l IH]; intros j; simpl; [done|].
  destruct (p j y); simpl; [intros [->|Hx]; [tauto|right; eapply IH; eauto]|].
  intros Hx. right. eapply IH; eauto.
Qed.

Lemma app_ok_handleFormSubmit (a : app_state) (r : record) :
  app_ok a -> record_ok r -> app_ok (handleFormSubmit r a).
Proof.
  intros [Hs He] Hr. unfold handleFormSubmit.
  destruct (editData a) as [e|] eqn:Hed; split; simpl; try done.
  all: try (intros x Hx; apply in_map_idx_replace in Hx as [->|Hx]; by auto).
  all: try (intros x Hx; apply in_app_or in Hx as [Hx|[<-|[]]]; by auto).
Qed.

Lemma app_ok_handleDelete (a : app_state) (i : nat) : app_ok a -> app_ok (handleDelete i a).
Proof.
  intros [Hs He]. split; simpl; [|done].
  intros x Hx. apply in_filter_idx in Hx. auto.
Qed.

Lemma app_ok_handleEdit (a a' : app_state) (i : nat) :
  app_ok a -> handleEdit i a = Some a' -> app_ok a'.
Proof.
  intros [Hs He]. unfold handleEdit.
  destruct (submittedData a !! i) as [r|] eqn:Hr; [|done]. intros [= <-].
  split; simpl; [done|]. intros e [= <-]. simpl. destruct r as [rt rd].
  apply Hs. apply list_elem_of_In, list_elem_of_lookup. eauto.
Qed.

Lemma form_ok_load_edit (st : form_state) (ed : option edit_ctx) :
  form_ok st -> (forall e, ed = Some e -> record_ok (mk_record (etype e) (edata e))) ->
  form_ok (load_edit ed st).
Proof.
  intros Hf He. destruct ed as [e|]; [|done]. simpl.
  destruct (He e eq_refl) as (fs & Hl & Hk & _). simpl in *.
  destruct Hf as (_ & _ & Hp). split_and!; simpl.
  - right. rewrite Hl. by split.
  - rewrite Hl. by intros ? [= <-].
  - done.
Qed.

(** The shown fields are defined: no handler reads a property of
    [undefined]. *)
Lemma form_ok_fields (st : form_state) : form_ok st -> exists fs, fields st = Some fs.
Proof. intros [[Hc|[_ [fs Hc]]] _]; eauto. Qed.

(** A non-empty shown field list is the catalog schema of the form type. *)
Lemma form_ok_schema (st : form_state) (fs : list field_desc) :
  form_ok st -> fields st = Some fs -> fs <> [] -> lookup_schema (formType st) = Some fs.
Proof.
  intros [[Hc|[Hc _]] _] Hf Hne; rewrite Hf in Hc; [congruence|done].
Qed.

Lemma sys_ok_select (s : sys_state) (k : string) :
  sys_ok s -> existsb (String.eqb k) menu_keys = true ->
  sys_ok (mk_sys (handleDropdownChange k (form s)) (app s) (toasts s)).
Proof.
  intros [Hf Ha] Hk. split; [|done]. unfold handleDropdownChange.
  apply existsb_exists in Hk as (k' & Hin & Hk). apply String.eqb_eq in Hk. subst k'.
  apply menu_keys_lookup in Hin.
  split_and!; simpl; [by right| |done].
  intros fs _ k' [].
Qed.

Lemma sys_ok_input (s : sys_state) (now : Z) (f : field_desc) (v : string) (st : form_state) effs :
  sys_ok s -> (exists fs, fields (form s) = Some fs /\ In f fs) ->
  handleChange now f v (form s) = Ok st effs -> sys_ok (mk_sys st (app s) (toasts s)).
Proof.
  intros [Hf Ha] (fs & Hfs & Hin). unfold handleChange. rewrite Hfs. intros [= <- _].
  split; [|done]. split_and!; simpl.
  - destruct Hf as [Hc _]. by rewrite Hfs in Hc.
  - intros fs' [= <-] k Hk. apply obj_keys_set_incl in Hk as [->|Hk].
    + by apply in_map.
    + destruct Hf as (_ & Hk' & _). by apply (Hk' fs).
  - apply progress_not_nan. eapply catalog_has_required, form_ok_schema; eauto.
    by destruct fs.
Qed.

Lemma sys_ok_submit (s : sys_state) (now : Z) (st : form_state) effs a' log :
  sys_ok s -> handleSubmit now (editData (app s)) (form s) = Ok st effs ->
  run_form_effects effs (app s) (toasts s) = (a', log) -> sys_ok (mk_sys st a' log).
Proof.
  intros [Hf Ha] Hs Hr. destruct (form_ok_fields _ Hf) as [fs Hfs].
  unfold handleSubmit in Hs. rewrite Hfs in Hs.
  destruct (forallb (blank (formData (form s))) fs) eqn:Hb.
  { injection Hs as <- <-. simpl in Hr. injection Hr as <- <-. done. }
  destruct (negb _) eqn:Hc.
  { injection Hs as <- <-. simpl in Hr. injection Hr as <- <-.
    split; [|done]. destruct Hf as (Hf1 & Hf2 & Hf3). rewrite Hfs in Hf1, Hf2. by split_and!. }
  injection Hs as <- <-. simpl in Hr. injection Hr as <- <-.
  split.
  { split_and!; simpl; [by left| |done]. intros ? [= <-] k []. }
  apply app_ok_handleFormSubmit; [done|].
  assert (Hne : fs <> []) by (intros ->; discriminate).
  exists fs. simpl. split_and!.
  - by apply form_ok_schema.
  - destruct Hf as (_ & Hk & _). by apply Hk.
  - exists now. apply collect_errors_nil_iff. apply obj_keys_length_0.
    apply negb_false_iff, Nat.eqb_eq in Hc. done.
Qed.

Lemma sys_ok_edit (s : sys_state) (i : nat) a' log :
  sys_ok s -> run_table_effects (handleEditClick i) (app s) (toasts s) = Some (a', log) ->
  sys_ok (mk_sys (load_edit (editData a') (form s)) a' log).
Proof.
  intros [Hf Ha] Hr. simpl in Hr.
  destruct (handleEdit i (app s)) as [a1|] eqn:He; [|done]. injection Hr as <- <-.
  pose proof (app_ok_handleEdit _ _ _ Ha He) as Ha1.
  split; [|done]. apply form_ok_load_edit; [done|]. apply Ha1.
Qed.

Lemma sys_ok_delete (s : sys_state) (i : nat) (ok : bool) a' log :
  sys_ok s -> run_table_effects (handleDeleteClick i ok) (app s) (toasts s) = Some (a', log) ->
  sys_ok (mk_sys (form s) a' log).
Proof.
  intros [Hf Ha] Hr. destruct ok; simpl in Hr; injection Hr as <- <-; split; try done.
  by apply app_ok_handleDelete.
Qed.

(** Every enabled event preserves the invariant. *)
Lemma sys_step_ok (s s' : sys_state) (ev : event) :
  sys_ok s -> enabled s ev = true -> sys_step s ev = Some s' -> sys_ok s'.
Proof.
  intros Hok Hen Hs. destruct ev as [k|now f v|now|i|i ok]; simpl in Hen; unfold sys_step in Hs.
  - injection Hs as <-. by apply sys_ok_select.
  - destruct (fields (form s)) as [fs|] eqn:Hfs; [|done].
    apply andb_prop in Hen as [Hin _]. apply bool_decide_eq_true, list_elem_of_In in Hin.
    destruct (handleChange now f v (form s)) as [st effs|] eqn:Hc; [|done].
    injection Hs as <-. eapply sys_ok_input; eauto.
  - destruct (handleSubmit now _ _) as [st effs|] eqn:Hc; [|done].
    destruct (run_form_effects effs (app s) (toasts s)) as [a' log] eqn:Hr.
    injection Hs as <-. eapply sys_ok_submit; eauto.
  - destruct (run_table_effects (handleEditClick i) (app s) (toasts s)) as [[a' log]|] eqn:Hr;
      [|done].
    injection Hs as <-. eapply sys_ok_edit; eauto.
  - destruct (run_table_effects (handleDeleteClick i ok) (app s) (toasts s)) as [[a' log]|] eqn:Hr;
      [|done].
    injection Hs as <-. eapply sys_ok_delete; eauto.
Qed.

Lemma sys_ok_init : sys_ok sys_init.
Proof.
  split; split_and!; simpl; try done; try (by left).
  all: intros ? [= <-] k [].
Qed.

Lemma reachable_ok (s : sys_state) : reachable s -> sys_ok s.
Proof.
  unfold reachable. revert s. apply rtc_ind_r; [apply sys_ok_init|].
  intros s1 s2 _ Hstep IH. inversion Hstep as [? ? ev Hen Hst]. subst.
  by apply (sys_step_ok s1 s2 ev).
Qed.

(** Running an accepted sequence of events from a reachable state reaches
    a reachable state. *)
Lemma run_events_reachable (s s' : sys_state) (evs : list event) :
  reachable s -> run_events s evs = Some s' -> reachable s'.
Proof.
  revert s. induction evs as [|ev evs IH]; intros s Hr Hrun; simpl in Hrun.
  { by injection Hrun as <-. }
  destruct (enabled s ev) eqn:Hen; [|done].
  destruct (sys_step s ev) as [s1|] eqn:Hs; [|done].
  apply (IH s1); [|done]. eapply rtc_r; [exact Hr|]. econstructor; eauto.
Qed.

End InvariantProofs.

(** ** Safety of reachable states *)

Section SystemTheorems.
Context `{DateEngine}.

(** C1: Every stored record has a catalog type, only that schema's field
    names as keys, and every field valid at the clock of its submission. *)
Theorem reachable_records_ok (s : sys_state) (r : record) :
  reachable s -> In r (submittedData (app s)) -> record_ok r.
Proof. intros Hr Hin. apply reachable_ok in Hr as [_ [Hs _]]. by apply Hs. Qed.

(** C2: No event the UI offers makes a handler throw: the form never reads
    a property of [undefined] and every edit index is in the store. *)
Theorem reachable_no_crash (s : sys_state) (ev : event) :
  reachable s -> enabled s ev = true -> exists s', sys_step s ev = Some s'.
Proof.
  intros Hr Hen. apply reachable_ok in Hr as [Hf Ha].
  destruct (form_ok_fields _ Hf) as [fs Hfs].
  destruct ev as [k|now f v|now|i|i ok]; simpl in Hen; unfold sys_step.
  - eauto.
  - unfold handleChange. rewrite Hfs. eauto.
  - destruct (handleSubmit now (editData (app s)) (form s)) as [st effs|] eqn:Hs.
    + destruct (run_form_effects effs (app s) (toasts s)). eauto.
    + unfold handleSubmit in Hs. rewrite Hfs in Hs. by repeat case_match.
  - simpl. unfold handleEdit. apply Nat.ltb_lt in Hen.
    apply lookup_lt_is_Some in Hen as [r Hr]. rewrite Hr. simpl. eauto.
  - destruct ok; simpl; eauto.
Qed.

(** The progress bar width is always a number, never NaN. *)
Theorem reachable_progress_not_nan (s : sys_state) :
  reachable s -> progress (form s) <> JNaN.
Proof. intros Hr. apply reachable_ok in Hr as [(_ & _ & Hp) _]. done. Qed.

(** Submitting a blank form (every shown field empty or whitespace, or no
    field shown) leaves the store and the edit context unchanged and shows
    the "empty form" error. *)
Theorem submit_blank_store_unchanged (s : sys_state) (now : Z) (fs : list field_desc) :
  fields (form s) = Some fs -> forallb (blank (formData (form s))) fs = true ->
  sys_step s (ESubmit now) =
    Some (mk_sys (form s) (app s) (toasts s ++ [(TError, msg_empty)])%list).
Proof. intros Hfs Hb. unfold sys_step, handleSubmit. by rewrite Hfs, Hb. Qed.

(** C22: Editing a stored record and submitting it unchanged, while its fields
    are still valid at the clock (the submit collects no error), leaves the store exactly as it was,
    clears the edit context and shows "Changes saved successfully!". *)
Theorem edit_resubmit_unchanged (s : sys_state) (i : nat) (r : record) (now : Z)
    (fs : list field_desc) :
  reachable s -> submittedData (app s) !! i = Some r ->
  lookup_schema (rtype r) = Some fs ->
  forallb (blank (rdata r)) fs = false ->
  collect_errors now (rdata r) fs = [] ->
  exists s', run_events s [EEditClick i; ESubmit now] = Some s' /\
    submittedData (app s') = submittedData (app s) /\ editData (app s') = None /\
    last (toasts s') = Some (TSuccess, msg_saved).
Proof.
  intros Hr Hi Hl Hb Hc. unfold run_events.
  assert (Hen : enabled s (EEditClick i) = true).
  { simpl. apply Nat.ltb_lt. by eapply lookup_lt_Some. }
  rewrite Hen. unfold sys_step at 1. simpl. unfold handleEdit. rewrite Hi. simpl.
  unfold handleSubmit. simpl. rewrite Hl, Hb.
  rewrite Hc. simpl. eexists. split_and!; [reflexivity| | |].
  - simpl. pose proof (map_idx_replace (submittedData (app s)) r i 0) as Hm.
    rewrite Nat.add_0_r in Hm. destruct r as [rt rd]. simpl. rewrite Hm.
    by apply list_insert_id.
  - done.
  - simpl. by rewrite last_snoc.
Qed.

End SystemTheorems.
