(* ===== verification/FormSpec.v ===== *)
(** * FormSpec: the Form Session of the spec, refined by DynamicForm

    spec.md section 4.3 specifies the Form Session as a state machine
    ([Idle], [Editing t]) over the active fields, the form values, the
    validation errors and an exact progress, with the operations
    [selectType], [loadForEdit], [changeField] and [submit], whose errors
    are the values [UnknownFormType], [EmptySubmission] and
    [ValidationFailed errors] and whose success is [Created record] or
    [Updated index record].  This file writes that specification as
    executable definitions ([session], [selectType], ...), from the spec's
    words, and relates it to the handlers of [FormSession]:
    [refines st s] holds when the code's state [st] shows the same fields,
    values and errors as [s], its progress is the binary64 value within
    [(1 + u)^2 - 1] of the spec's exact percentage ([Rounding]), and its
    [formType] is the spec's type while editing.

    Reading of the spec: "filled" is the glossary's "trimmed value is
    non-empty", for [submit]'s emptiness test as for the progress;
    [loadForEdit] sets the type, the values and the fields and leaves the
    errors and the progress as they are ("bypasses the start empty
    reset"); a successful [submit] clears values, fields and progress and
    returns to [Idle]. *)

From S2P Require Import Prelude JsString JsObject JsNumber JsDate Rounding Catalog Validator FormSession AppStore System.
From Stdlib Require Import String QArith Qabs.
Close Scope Q_scope.
Open Scope string_scope.
Open Scope js_scope.

Inductive mode : Type := Idle | Editing (t : string).

Record session : Type := mk_session {
  s_mode : mode;
  s_fields : list field_desc;
  s_values : js_obj string;
  s_errors : js_obj (option string);
  s_progress : Q
}.

Inductive spec_error : Type :=
  | UnknownFormType
  | EmptySubmission
  | ValidationFailed (errs : js_obj string).

Inductive submit_result : Type :=
  | Created (r : record)
  | Updated (index : nat) (r : record).

Definition session_init : session := mk_session Idle [] [] [] 0.

(** A field is filled when its trimmed value is non-empty. *)
Definition filled (vals : js_obj string) (f : field_desc) : bool :=
  match vals.[fname f] with Some v => negb (String.eqb (js_trim v) "") | None => false end.

(** [filledRequiredFieldCount / totalRequiredFieldCount * 100], and 0
    without required fields. *)
Definition spec_progress (fs : list field_desc) (vals : js_obj string) : Q :=
  let req := List.filter frequired fs in
  match List.length req with
  | O => 0
  | n => exact_percent (List.length (List.filter (filled vals) req)) n
  end.

Definition mode_type (m : mode) : string := match m with Idle => "" | Editing t => t end.

Definition selectType (t : string) (s : session) : session + spec_error :=
  match lookup_schema t with
  | Some fs => inl (mk_session (Editing t) fs [] [] 0)
  | None => inr UnknownFormType
  end.

Definition loadForEdit (e : edit_ctx) (s : session) : session + spec_error :=
  match lookup_schema (etype e) with
  | Some fs => inl (mk_session (Editing (etype e)) fs (edata e) (s_errors s) (s_progress s))
  | None => inr UnknownFormType
  end.

Section Operations.
Context `{DateEngine}.

Definition changeField (now : Z) (name raw : string) (s : session) : session :=
  let vals := (s_values s).[name := raw] in
  mk_session (s_mode s) (s_fields s) vals
             ((s_errors s).[name := validateField now name (Some raw)])
             (spec_progress (s_fields s) vals).

(** The error of every declared field, in field order. *)
Fixpoint validate_all (now : Z) (vals : js_obj string) (fs : list field_desc) : js_obj string :=
  match fs with
  | [] => []
  | f :: fs' =>
      match validateField now (fname f) (vals.[fname f]) with
      | Some e => (fname f, e) :: validate_all now vals fs'
      | None => validate_all now vals fs'
      end
  end.

Definition submit (now : Z) (ed : option edit_ctx) (s : session)
  : session * (submit_result + spec_error) :=
  if forallb (fun f => negb (filled (s_values s) f)) (s_fields s) then (s, inr EmptySubmission)
  else
    match validate_all now (s_values s) (s_fields s) with
    | [] =>
        let r := mk_record (mode_type (s_mode s)) (s_values s) in
        (mk_session Idle [] [] (s_errors s) 0,
         inl (match ed with Some e => Updated (eindex e) r | None => Created r end))
    | errs =>
        (mk_session (s_mode s) (s_fields s) (s_values s) (obj_map Some errs) (s_progress s),
         inr (ValidationFailed errs))
    end.

End Operations.

(** The notifications the host shows for a result, as the code emits them. *)
Definition result_effects (res : submit_result + spec_error) : list effect :=
  match res with
  | inl (Created r) => [CallOnSubmit r; Toast TSuccess msg_submitted]
  | inl (Updated _ r) => [CallOnSubmit r; Toast TSuccess msg_saved]
  | inr EmptySubmission => [Toast TError msg_empty]
  | inr (ValidationFailed _) => [Toast TError msg_fix]
  | inr UnknownFormType => []
  end.

(** ** The refinement relation *)

Definition prog_close (x : jsnum) (p : Q) : Prop :=
  exists q, x = JFin q /\ (Qabs (q - p) <= p * two_round_factor)%Q.

Definition refines (st : form_state) (s : session) : Prop :=
  fields st = Some (s_fields s) /\ formData st = s_values s /\ errors st = s_errors s /\
  prog_close (progress st) (s_progress s) /\
  match s_mode s with
  | Idle => s_fields s = []
  | Editing t => formType st = t /\ lookup_schema t = Some (s_fields s)
  end.

(** ** Lemmas *)

Lemma blank_filled (data : js_obj string) (f : field_desc) : blank data f = negb (filled data f).
Proof. unfold blank, filled, opt_trim, truthy_opt. by destruct (data.[fname f]). Qed.

Lemma prog_close_zero : prog_close (num_lit 0) 0.
Proof. exists 0%Q. split; [done|]. by rewrite Qabs_Qle_condition. Qed.

(** A catalog schema has at most four fields. *)
Lemma catalog_small (t : string) (fs : list field_desc) :
  lookup_schema t = Some fs -> (List.length fs <= 4)%nat.
Proof.
  intros Hl. apply (catalog_all_lookup (fun fs => Nat.leb (List.length fs) 4)) in Hl;
    [by apply Nat.leb_le|vm_compute; reflexivity].
Qed.

(** On a catalog schema the code's progress is within two roundings of
    the spec's. *)
Lemma progress_close (t : string) (fs : list field_desc) (data : js_obj string) :
  lookup_schema t = Some fs -> prog_close (progress_of fs data) (spec_progress fs data).
Proof.
  intros Hl. unfold progress_of, spec_progress.
  rewrite (List.filter_ext (fun f => negb (blank data f)) (filled data))
    by (intros f; by rewrite blank_filled, negb_involutive).
  pose proof (catalog_has_required t fs Hl) as Hne.
  pose proof (filter_length_le frequired fs) as Hle. pose proof (catalog_small t fs Hl).
  pose proof (filter_length_le (filled data) (List.filter frequired fs)).
  destruct (List.length (List.filter frequired fs)) as [|n] eqn:Hn.
  { by apply length_zero_iff_nil in Hn. }
  destruct (percent_rel (List.length (List.filter (filled data) (List.filter frequired fs))) (S n))
    as (x & Hx & Hb); [lia|lia|lia|].
  exists x. split; [exact Hx|exact Hb].
Qed.

Section OperationLemmas.
Context `{DateEngine}.

(** [collect_errors] on a schema with unique names is [validate_all]: each
    message is non-empty and lands on a new key. *)
Lemma collect_fold_validate (now : Z) (data : js_obj string) (fs : list field_desc) (acc : js_obj string) :
  NoDup (field_names fs) -> (forall f, In f fs -> ~ In (fname f) (obj_keys acc)) ->
  fold_left (collect_step now data) fs acc = (acc ++ validate_all now data fs)%list.
Proof.
  unfold field_names. revert acc.
  induction fs as [|f fs IH]; intros acc Hnd Hfresh; cbn [fold_left validate_all]; [by rewrite app_nil_r|].
  cbn [map] in Hnd. apply NoDup_cons in Hnd as [Hf Hnd].
  assert (Hfs : forall g, In g fs -> ~ In (fname g) (obj_keys acc)) by (intros g Hg; apply Hfresh; by right).
  unfold collect_step at 2.
  destruct (validateField now (fname f) (data.[fname f])) as [e|] eqn:Hv; [|by apply IH].
  assert (Ht : truthy_opt (Some e) = true).
  { simpl. apply validateField_msg_nonempty in Hv. by destruct (String.eqb_spec e ""). }
  rewrite Ht, obj_set_new by (apply Hfresh; by left).
  rewrite IH, <- app_assoc; [done|done|].
  intros g Hg. unfold obj_keys. rewrite map_app, in_app_iff. intros [Hin|[Heq|[]]].
  - by apply (Hfs g).
  - simpl in Heq. apply Hf. rewrite Heq. apply list_elem_of_In. by apply in_map.
Qed.

Lemma collect_errors_validate_all (now : Z) (data : js_obj string) (fs : list field_desc) :
  NoDup (field_names fs) -> collect_errors now data fs = validate_all now data fs.
Proof. intros Hnd. unfold collect_errors. rewrite collect_fold_validate; [done|done|]. by intros f _ []. Qed.

(** The code's state after a failed [handleDropdownChange] or
    [load_edit]: [fields] is [undefined] and every handler throws. *)
Definition crashes (st : form_state) : Prop :=
  fields st = None /\ (forall now f v, handleChange now f v st = Crash) /\
  (forall now ed, handleSubmit now ed st = Crash).

Lemma crashes_none (st : form_state) : fields st = None -> crashes st.
Proof. intros Hf. unfold crashes, handleChange, handleSubmit. by rewrite Hf. Qed.

End OperationLemmas.

(** ** Refinement *)

Section Refinement.
Context `{DateEngine}.

Lemma refines_init : refines form_init session_init.
Proof. split_and!; try done. apply prog_close_zero. Qed.

(** The step lemmas: each handler, where it succeeds, keeps the relation. *)

Lemma select_step (t : string) (st : form_state) (s s' : session) :
  selectType t s = inl s' -> refines (handleDropdownChange t st) s'.
Proof.
  unfold selectType, handleDropdownChange. destruct (lookup_schema t) eqn:Hl; [|done].
  intros [= <-]. split_and!; try done. apply prog_close_zero.
Qed.

Lemma load_step (e : edit_ctx) (st : form_state) (s s' : session) :
  refines st s -> loadForEdit e s = inl s' -> refines (load_edit (Some e) st) s'.
Proof.
  intros (Hf & Hd & He & Hp & Hm). unfold loadForEdit, load_edit.
  destruct (lookup_schema (etype e)) eqn:Hl; [|done]. intros [= <-]. by split_and!.
Qed.

Lemma change_step (now : Z) (st st' : form_state) (s : session) (f : field_desc) (v : string) effs :
  refines st s -> In f (s_fields s) -> handleChange now f v st = Ok st' effs ->
  effs = [] /\ refines st' (changeField now (fname f) v s).
Proof.
  intros (Hf & Hd & He & Hp & Hm) Hin. unfold handleChange. rewrite Hf. intros [= <- <-]. split; [done|].
  unfold refines, changeField. simpl. rewrite Hd, He.
  destruct (s_mode s) as [|t] eqn:Hmode; [by rewrite Hm in Hin|].
  destruct Hm as [Ht Hl]. split_and!; try done. by apply (progress_close t).
Qed.

Lemma submit_step (now : Z) (ed : option edit_ctx) (st st' : form_state) (s : session) effs :
  refines st s -> handleSubmit now ed st = Ok st' effs ->
  refines st' (submit now ed s).1 /\ effs = result_effects (submit now ed s).2.
Proof.
  intros (Hf & Hd & He & Hp & Hm). unfold handleSubmit, submit. rewrite Hf, <- Hd.
  rewrite (forallb_ext (blank (formData st)) (fun f => negb (filled (formData st) f)))
    by (intros g; apply blank_filled).
  destruct (forallb _ (s_fields s)) eqn:Hb; [intros [= <- <-]; by split; [split_and!|]|].
  destruct (s_mode s) as [|t] eqn:Hmode.
  { rewrite Hm in Hb. discriminate. }
  destruct Hm as [Ht Hl]. rewrite collect_errors_validate_all by (by apply (catalog_names_unique t)).
  destruct (validate_all now (formData st) (s_fields s)) as [|err errs] eqn:Hv; simpl;
    intros [= <- <-].
  - split; [split_and!; try done; apply prog_close_zero|]. rewrite Ht. by destruct ed.
  - split; [|done]. unfold refines. simpl. by split_and!.
Qed.

(** C18: [handleDropdownChange] implements [selectType] and the [editData]
    effect implements [loadForEdit]: on a catalog type the code reaches a
    state that refines the spec's; on an unknown type, where the spec
    fails with [UnknownFormType], the code sets [fields] to [undefined] and
    its next [handleChange] or [handleSubmit] throws. *)
Theorem select_load_refines (st : form_state) (s : session) (t : string) (e : edit_ctx) :
  (match selectType t s with
   | inl s' => refines (handleDropdownChange t st) s'
   | inr err => err = UnknownFormType /\ crashes (handleDropdownChange t st)
   end) /\
  (refines st s ->
   match loadForEdit e s with
   | inl s' => refines (load_edit (Some e) st) s'
   | inr err => err = UnknownFormType /\ crashes (load_edit (Some e) st)
   end).
Proof.
  split.
  - destruct (selectType t s) as [s'|err] eqn:Hs; [by apply select_step with s|].
    unfold selectType in Hs. destruct (lookup_schema t) eqn:Hl; [done|]. injection Hs as <-.
    split; [done|]. apply crashes_none. unfold handleDropdownChange. simpl. exact Hl.
  - intros Hr. destruct (loadForEdit e s) as [s'|err] eqn:Hs; [by apply load_step with s|].
    unfold loadForEdit in Hs. destruct (lookup_schema (etype e)) eqn:Hl; [done|]. injection Hs as <-.
    split; [done|]. apply crashes_none. unfold load_edit. simpl. exact Hl.
Qed.

(** C17: [handleChange] on a shown field implements [changeField]: it does
    not throw, stores the value and the field's validation result as the
    spec does, and its binary64 progress is within [(1 + u)^2 - 1] of the
    spec's exact percentage. *)
Theorem change_refines (now : Z) (st : form_state) (s : session) (f : field_desc) (v : string) :
  refines st s -> In f (s_fields s) ->
  exists st', handleChange now f v st = Ok st' [] /\ refines st' (changeField now (fname f) v s).
Proof.
  intros Hr Hin. destruct (handleChange now f v st) as [st' effs|] eqn:Hc.
  - destruct (change_step now st st' s f v effs Hr Hin Hc) as [-> Hr']. eauto.
  - unfold handleChange in Hc. destruct Hr as [Hf _]. by rewrite Hf in Hc.
Qed.

(** C16: [handleSubmit] implements [submit]: it never throws on a state
    that refines a session, it ends in a state that refines the spec's,
    and its effects are the spec's result as the host reports it: the
    empty-form toast for [EmptySubmission], the fix toast for
    [ValidationFailed] (with the same error map), and [onSubmit] with the
    record of [Created] or [Updated] followed by the success toast. *)
Theorem submit_refines (now : Z) (ed : option edit_ctx) (st : form_state) (s : session) :
  refines st s ->
  match handleSubmit now ed st with
  | Ok st' effs => refines st' (submit now ed s).1 /\ effs = result_effects (submit now ed s).2
  | Crash => False
  end.
Proof.
  intros Hr. destruct (handleSubmit now ed st) as [st' effs|] eqn:Hs; [by apply submit_step with st|].
  unfold handleSubmit in Hs. destruct Hr as [Hf _]. rewrite Hf in Hs. by repeat case_match.
Qed.

End Refinement.

(** ** Witnesses *)

#[local] Existing Instance strict_engine.

Definition user_fields : list field_desc := default [] (lookup_schema "userInfo").
Definition user_form : form_state := handleDropdownChange "userInfo" form_init.
Definition user_session : session := mk_session (Editing "userInfo") user_fields [] [] 0.

Lemma user_form_refines : refines user_form user_session.
Proof. apply (select_step "userInfo" form_init session_init). reflexivity. Qed.

Lemma select_load_refines_witness :
  (match selectType "payment" session_init with
   | inl s' => refines (handleDropdownChange "payment" form_init) s'
   | inr err => err = UnknownFormType /\ crashes (handleDropdownChange "payment" form_init)
   end) /\
  (match loadForEdit (mk_edit 0 "userInfo" [("firstName", "Ann")]) session_init with
   | inl s' => refines (load_edit (Some (mk_edit 0 "userInfo" [("firstName", "Ann")])) form_init) s'
   | inr err => err = UnknownFormType /\
                crashes (load_edit (Some (mk_edit 0 "userInfo" [("firstName", "Ann")])) form_init)
   end).
Proof.
  destruct (select_load_refines form_init session_init "payment" (mk_edit 0 "userInfo" [("firstName", "Ann")]))
    as [H1 H2].
  split; [exact H1|exact (H2 refines_init)].
Defined.

Lemma change_refines_witness :
  exists st', handleChange 0 (Catalog.mk_field "firstName" FText "First Name" true None) "Ann" user_form = Ok st' [] /\
    refines st' (changeField 0 "firstName" "Ann" user_session).
Proof.
  apply (change_refines 0 user_form user_session (Catalog.mk_field "firstName" FText "First Name" true None) "Ann");
    [exact user_form_refines | simpl; tauto].
Defined.

Lemma submit_refines_witness :
  match handleSubmit 0 None user_form with
  | Ok st' effs => refines st' (submit 0 None user_session).1 /\
                   effs = result_effects (submit 0 None user_session).2
  | Crash => False
  end.
Proof. apply submit_refines. exact user_form_refines. Defined.
