(* ===== verification/Scenarios.v ===== *)
(** * Scenarios: end-to-end runs of the application on concrete events

    Each scenario is a list of UI events run from the first render by
    [run_events] (which refuses an event the rendered UI does not offer),
    with the engine [strict_engine] for [Date.parse] and clock readings in
    milliseconds.  The observed result is the store, the edit context and
    the toast log.  The runs are the spec's create scenario and a delete
    while editing; they also give the concrete states at which the
    theorems of [System] (here), [ShellSpec] and [Interleavings] are
    witnessed. *)

From S2P Require Import Prelude JsString JsObject JsNumber JsDate Catalog Validator FormSession AppStore System.
From Stdlib Require Import String.
Open Scope string_scope.

#[local] Existing Instance strict_engine.

(** The descriptor of field [n] of the catalog type [t] (the one the form
    renders). *)
Definition field_of (t n : string) : field_desc :=
  match lookup_schema t with
  | Some fs =>
      match List.find (fun f => String.eqb (fname f) n) fs with
      | Some f => f
      | None => mk_field n FText n false None
      end
  | None => mk_field n FText n false None
  end.

(** What the user sees of the host: the stored records, the edit context
    and the toasts shown so far. *)
Definition observe (s : sys_state) :
    list record * option edit_ctx * list (toast_kind * string) :=
  (submittedData (app s), editData (app s), toasts s).

Definition type_user (now : Z) (first last age : string) : list event :=
  [EInput now (field_of "userInfo" "firstName") first;
   EInput now (field_of "userInfo" "lastName") last;
   EInput now (field_of "userInfo" "age") age].

(** The spec's create scenario: select [userInfo], type Ann, Lee, 30,
    submit. *)
Definition create_ann : list event :=
  (ESelect "userInfo" :: type_user 0 "Ann" "Lee" "30" ++ [ESubmit 0])%list.

Definition create_bob : list event :=
  (ESelect "userInfo" :: type_user 0 "Bob" "Ray" "40" ++ [ESubmit 0])%list.

Definition rec_user (first last age : string) : record :=
  mk_record "userInfo" [("firstName", first); ("lastName", last); ("age", age)].

Definition rec_address : record :=
  mk_record "address"
    [("street", "1 Main St"); ("city", "Austin"); ("state", "Texas"); ("zipCode", "733301")].

Definition type_address (now : Z) : list event :=
  [EInput now (field_of "address" "street") "1 Main St";
   EInput now (field_of "address" "city") "Austin";
   EInput now (field_of "address" "state") "Texas";
   EInput now (field_of "address" "zipCode") "733301"].

(** The state after running [evs] from the first render. *)
Definition after (evs : list event) : sys_state :=
  match run_events sys_init evs with Some s => s | None => sys_init end.

(** ** The spec's scenarios *)

(** The create scenario of the spec: selecting [userInfo], typing
    Ann, Lee and 30 and submitting stores exactly the record
    [{type: "userInfo", data: {firstName: "Ann", lastName: "Lee", age: "30"}}]
    (the store's length becomes 1), with no edit context and the toast
    "Form submitted successfully!". *)
Theorem scenario_create :
  option_map observe (run_events sys_init create_ann) =
  Some ([rec_user "Ann" "Lee" "30"], None, [(TSuccess, msg_submitted)]).
Proof. vm_compute. reflexivity. Qed.

(** ** Interleavings the code gets wrong *)

(** Deleting a row while another row is being edited shifts the indices
    under the edit context: editing Ann (row 0), deleting row 0 and
    saving writes the edited record over Bob, who was never edited, and
    reports "Changes saved successfully!".  Bob's record is lost. *)
Theorem scenario_delete_while_editing :
  option_map observe
    (run_events sys_init
       (create_ann ++ create_bob ++
        [EEditClick 0; EDeleteClick 0 true;
         EInput 0 (field_of "userInfo" "firstName") "Anna"; ESubmit 0])%list) =
  Some ([rec_user "Anna" "Lee" "30"], None,
        [(TSuccess, msg_submitted); (TSuccess, msg_submitted); (TInfo, msg_editing);
         (TSuccess, msg_deleted); (TSuccess, msg_saved)]).
Proof. vm_compute. reflexivity. Qed.

(** ** Witnesses of the system theorems *)

Lemma create_ann_reachable : reachable (after create_ann).
Proof.
  apply (run_events_reachable sys_init _ create_ann); [apply rtc_refl | vm_compute; reflexivity].
Qed.

Lemma reachable_records_ok_witness : record_ok (rec_user "Ann" "Lee" "30").
Proof.
  apply (reachable_records_ok (after create_ann));
    [apply create_ann_reachable | vm_compute; tauto].
Defined.

Lemma reachable_no_crash_witness : exists s', sys_step (after create_ann) (EEditClick 0) = Some s'.
Proof. apply reachable_no_crash; [apply create_ann_reachable | vm_compute; reflexivity]. Defined.

Lemma reachable_progress_not_nan_witness : progress (form (after create_ann)) <> JNaN.
Proof. apply reachable_progress_not_nan. apply create_ann_reachable. Defined.

Lemma submit_blank_store_unchanged_witness :
  sys_step (after [ESelect "userInfo"]) (ESubmit 0) =
    Some (mk_sys (form (after [ESelect "userInfo"])) (app (after [ESelect "userInfo"]))
                 (toasts (after [ESelect "userInfo"]) ++ [(TError, msg_empty)])%list).
Proof.
  apply (submit_blank_store_unchanged _ 0 (default [] (lookup_schema "userInfo")));
    vm_compute; reflexivity.
Defined.

Lemma edit_resubmit_unchanged_witness :
  exists s', run_events (after create_ann) [EEditClick 0; ESubmit 0] = Some s' /\
    submittedData (app s') = submittedData (app (after create_ann)) /\
    editData (app s') = None /\ last (toasts s') = Some (TSuccess, msg_saved).
Proof.
  apply (edit_resubmit_unchanged _ 0 (rec_user "Ann" "Lee" "30") 0
           (default [] (lookup_schema "userInfo")));
    [apply create_ann_reachable | vm_compute; reflexivity ..].
Defined.
