(* ===== verification/ShellSpec.v ===== *)
(** * ShellSpec: the spec's application shell, simulated by the code

    spec.md section 2 puts the Form Session beside the Record Store and an
    Application Shell that owns the store, creates the EditContext when
    the user asks to edit a row (section 3) and hands the session's submit
    result to the store: [Created] is [append], [Updated] is [replaceAt]
    and a table delete is [removeAt]; the EditContext is consumed by a
    submit in edit mode.  Section 7 makes every error recoverable: a
    failed operation leaves the state as it was.  This file writes that
    composition as one deterministic step [shell_step] on the page's UI
    events of [System], from the spec's words (the shell is outside the
    repository's [src/] code), and proves that the application refines it
    along every run: after any sequence of events the page accepts, the
    form shows the session the spec computes from the same sequence
    ([refines] of [FormSpec]), the store is the spec's store and the edit
    context is the spec's.  The proof is a lock-step simulation
    ([shell_step_sim]) carried along the run by induction. *)

From S2P Require Import Prelude JsString JsObject JsNumber JsDate Catalog Validator FormSession AppStore System FormSpec Scenarios.
From Stdlib Require Import String.
Open Scope string_scope.
Open Scope js_scope.

Record shell : Type := mk_shell {
  sh_session : session;
  sh_store : list record;
  sh_edit : option edit_ctx
}.

Definition shell_init : shell := mk_shell session_init [] None.

Section Shell.
Context `{DateEngine}.

(** The store after a submit result: [append] for [Created], [replaceAt]
    for [Updated] (kept on [IndexOutOfRange]); the EditContext is consumed
    by a successful submit and kept by a failed one. *)
Definition apply_result (res : submit_result + spec_error) (l : list record)
    (ed : option edit_ctx) : list record * option edit_ctx :=
  match res with
  | inl (Created r) => (fst (spec_append r l), None)
  | inl (Updated i r) =>
      (match spec_replaceAt i r l with inl l' => l' | inr IndexOutOfRange => l end, None)
  | inr _ => (l, ed)
  end.

Definition shell_step (ev : event) (sh : shell) : option shell :=
  match ev with
  | ESelect k =>
      match selectType k (sh_session sh) with
      | inl s' => Some (mk_shell s' (sh_store sh) (sh_edit sh))
      | inr _ => Some sh
      end
  | EInput now f v =>
      Some (mk_shell (changeField now (fname f) v (sh_session sh)) (sh_store sh) (sh_edit sh))
  | ESubmit now =>
      let '(s', res) := submit now (sh_edit sh) (sh_session sh) in
      let '(l', ed') := apply_result res (sh_store sh) (sh_edit sh) in
      Some (mk_shell s' l' ed')
  | EEditClick i =>
      match sh_store sh !! i with
      | Some r =>
          let e := mk_edit i (rtype r) (rdata r) in
          match loadForEdit e (sh_session sh) with
          | inl s' => Some (mk_shell s' (sh_store sh) (Some e))
          | inr _ => Some (mk_shell (sh_session sh) (sh_store sh) (Some e))
          end
      | None => None
      end
  | EDeleteClick i ok =>
      if ok then
        Some (mk_shell (sh_session sh)
                (match spec_removeAt i (sh_store sh) with
                 | inl l' => l'
                 | inr IndexOutOfRange => sh_store sh
                 end) (sh_edit sh))
      else Some sh
  end.

Fixpoint shell_run (sh : shell) (evs : list event) : option shell :=
  match evs with
  | [] => Some sh
  | ev :: evs' =>
      match shell_step ev sh with
      | Some sh' => shell_run sh' evs'
      | None => None
      end
  end.

End Shell.

(** The code's state shows the shell's session, store and edit context. *)
Definition shell_refines (s : sys_state) (sh : shell) : Prop :=
  refines (form s) (sh_session sh) /\ submittedData (app s) = sh_store sh /\
  editData (app s) = sh_edit sh.

(** ** The simulation *)

Section Simulation.
Context `{DateEngine}.

Lemma shell_refines_init : shell_refines sys_init shell_init.
Proof. split_and!; [apply refines_init|done|done]. Qed.

(** The host's side of a submit: the effects of a result change the store
    as [apply_result] does. *)
Lemma run_result_effects (res : submit_result + spec_error) (a : app_state)
    (log : list (toast_kind * string)) :
  (forall i r, res = inl (Updated i r) -> exists e, editData a = Some e /\ eindex e = i) ->
  (forall r, res = inl (Created r) -> editData a = None) ->
  let a' := (run_form_effects (result_effects res) a log).1 in
  (submittedData a', editData a') = apply_result res (submittedData a) (editData a).
Proof.
  intros Hu Hc. destruct res as [[r|i r]|err]; simpl.
  - specialize (Hc r eq_refl). unfold handleFormSubmit. by rewrite Hc.
  - destruct (Hu i r eq_refl) as (e & He & <-).
    rewrite (handleFormSubmit_store_edit a e r He). unfold handleFormSubmit. by rewrite He.
  - by destruct err.
Qed.

(** [submit] reports [Updated] at the index of the context it was given,
    and [Created] only without one. *)
Lemma submit_result_edit (now : Z) (ed : option edit_ctx) (sp : session) :
  (forall i r, (submit now ed sp).2 = inl (Updated i r) -> exists e, ed = Some e /\ eindex e = i) /\
  (forall r, (submit now ed sp).2 = inl (Created r) -> ed = None).
Proof.
  unfold submit. case_match; [done|]. case_match; [|done].
  destruct ed as [e|]; simpl; split; intros; simplify_eq; eauto.
Qed.

(** One enabled event: the code's step is matched by the shell's, and the
    relation is kept. *)
Lemma shell_step_sim (s s' : sys_state) (sh : shell) (ev : event) :
  sys_ok s -> shell_refines s sh -> enabled s ev = true -> sys_step s ev = Some s' ->
  exists sh', shell_step ev sh = Some sh' /\ shell_refines s' sh'.
Proof.
  intros [_ [Hrec _]] (Hr & Hst & He) Hen Hs.
  destruct ev as [k|now f v|now|i|i ok]; simpl in Hen; unfold sys_step in Hs; simpl.
  - injection Hs as <-. change (existsb (String.eqb k) menu_keys = true) in Hen.
    apply existsb_exists in Hen as (k' & Hin & Hk). apply String.eqb_eq in Hk. subst k'.
    apply menu_keys_lookup in Hin as [fs Hl].
    destruct (selectType k (sh_session sh)) as [sp|] eqn:Hsel; [|unfold selectType in Hsel; by rewrite Hl in Hsel].
    eexists. split; [done|]. split_and!; [|done|done]. exact (select_step k (form s) (sh_session sh) sp Hsel).
  - destruct (fields (form s)) as [fs|] eqn:Hfs; [|done].
    apply andb_prop in Hen as [Hin _]. apply bool_decide_eq_true, list_elem_of_In in Hin.
    destruct (handleChange now f v (form s)) as [st effs|] eqn:Hc; [|done]. injection Hs as <-.
    eexists. split; [done|]. split_and!; [|done|done].
    apply (change_step now (form s) st (sh_session sh) f v effs Hr); [|done].
    destruct Hr as [Hf _]. rewrite Hfs in Hf. by injection Hf as <-.
  - destruct (handleSubmit now (editData (app s)) (form s)) as [st effs|] eqn:Hc; [|done].
    destruct (submit_step now _ _ _ _ effs Hr Hc) as [Hr' ->]. rewrite He in Hr', Hs.
    destruct (submit now (sh_edit sh) (sh_session sh)) as [sp res] eqn:Hsub. simpl in Hr', Hs |- *.
    destruct (submit_result_edit now (sh_edit sh) (sh_session sh)) as [Hu Hcr]. rewrite Hsub in Hu, Hcr.
    pose proof (run_result_effects res (app s) (toasts s)) as Hres. rewrite He, Hst in Hres.
    destruct (run_form_effects (result_effects res) (app s) (toasts s)) as [a' log] eqn:Hrun.
    injection Hs as <-. simpl in Hres. rewrite <- Hres by (simpl in Hu, Hcr; eauto).
    eexists. split; [done|]. by split_and!.
  - destruct (submittedData (app s) !! i) as [r|] eqn:Hi.
    2:{ apply Nat.ltb_lt, lookup_lt_is_Some_2 in Hen as [? Hx]. by rewrite Hi in Hx. }
    simpl in Hs. unfold handleEdit in Hs. rewrite Hi in Hs. injection Hs as <-. simpl.
    rewrite <- Hst, Hi. destruct (Hrec r) as (fs & Hl & _); [by apply list_elem_of_lookup_2, list_elem_of_In in Hi|].
    destruct (loadForEdit (mk_edit i (rtype r) (rdata r)) (sh_session sh)) as [sp|] eqn:Hload;
      [|unfold loadForEdit in Hload; simpl in Hload; by rewrite Hl in Hload].
    eexists. split; [done|]. split_and!; [|done|done]. exact (load_step _ (form s) (sh_session sh) sp Hr Hload).
  - destruct ok; cbn [run_table_effects handleDeleteClick] in Hs; injection Hs as <-; eexists; (split; [done|]); [|done].
    split_and!; [done| |done]. cbn [app]. rewrite handleDelete_store. by rewrite spec_removeAt_delete, Hst.
Qed.

(** The simulation carried along a run from any reachable state. *)
Lemma run_events_sim (evs : list event) (s s' : sys_state) (sh : shell) :
  reachable s -> shell_refines s sh -> run_events s evs = Some s' ->
  match shell_run sh evs with Some sh' => shell_refines s' sh' | None => False end.
Proof.
  revert s sh. induction evs as [|ev evs IH]; intros s sh Hreach Hrel Hrun; simpl in Hrun |- *.
  { by injection Hrun as <-. }
  destruct (enabled s ev) eqn:Hen; [|done].
  destruct (sys_step s ev) as [s1|] eqn:Hs; [|done].
  destruct (shell_step_sim s s1 sh ev (reachable_ok s Hreach) Hrel Hen Hs) as (sh1 & -> & Hrel1).
  apply (IH s1); [|done|done]. eapply rtc_r; [exact Hreach|]. econstructor; eauto.
Qed.

(** C15: The application refines the spec's shell along every run: after
    any sequence of events the page accepts from its first render, the
    spec's shell, run on the same sequence, is defined and the code's
    state shows exactly its store and edit context, and a form with the
    session's fields, values and errors, its type while editing, and a
    progress within two binary64 roundings of the session's exact
    percentage. *)
Theorem run_events_refines (evs : list event) (s : sys_state) :
  run_events sys_init evs = Some s ->
  match shell_run shell_init evs with Some sh => shell_refines s sh | None => False end.
Proof. apply run_events_sim; [apply rtc_refl|apply shell_refines_init]. Qed.

End Simulation.

(** ** Witness *)

#[local] Existing Instance strict_engine.

Lemma run_events_refines_witness :
  match shell_run shell_init (create_ann ++ [EEditClick 0])%list with
  | Some sh => shell_refines (after (create_ann ++ [EEditClick 0])%list) sh
  | None => False
  end.
Proof. apply run_events_refines. vm_compute. reflexivity. Defined.
