(* ===== verification/Interleavings.v ===== *)
(** * Interleavings: where the composed handlers depart from the user's view

    Theorems over every state of [System] (not a single run) for the
    event sequences in which the code does something a user does not
    expect:
    - a save whose edit context points past the end of the store (the
      edited row was deleted) changes no record and still reports
      "Changes saved successfully!" ([save_dangling_edit]);
    - the table's Edit loads the record's type, schema and data but keeps
      the errors and the progress of the form it replaces
      ([edit_click_keeps_errors_progress]);
    - a whitespace-only value passes the required check ([!value]) while
      the progress bar counts it as blank ([trim()])
      ([whitespace_passes_required]);
    - choosing another form type during an edit keeps the edit context,
      so the save replaces the edited row by a record of the new type
      ([type_change_on_edit]).
    The witnesses take these theorems at states the runs of [Scenarios]
    reach. *)

From S2P Require Import Prelude JsString JsObject JsNumber JsDate Catalog Validator FormSession AppStore System Scenarios.
From Stdlib Require Import String.
Open Scope string_scope.
Open Scope js_scope.

(** The events of typing into the form. *)
Definition is_input (ev : event) : bool :=
  match ev with EInput _ _ _ => true | _ => false end.

Section Interleavings.
Context `{DateEngine}.

(** A submit that collects no error on a non-blank form: the form is
    emptied, the host runs [handleFormSubmit] on the record of the current
    type and data, and the success toast of the mode is shown. *)
Lemma submit_valid_step (s : sys_state) (now : Z) (fs : list field_desc) :
  fields (form s) = Some fs -> forallb (blank (formData (form s))) fs = false ->
  collect_errors now (formData (form s)) fs = [] ->
  sys_step s (ESubmit now) =
    Some (mk_sys (mk_form (Some []) [] (errors (form s)) (formType (form s)) (num_lit 0))
                 (handleFormSubmit (mk_record (formType (form s)) (formData (form s))) (app s))
                 (toasts s ++ [(TSuccess, match editData (app s) with
                                          | Some _ => msg_saved | None => msg_submitted end)])%list).
Proof. intros Hf Hb Hc. unfold sys_step, handleSubmit. by rewrite Hf, Hb, Hc. Qed.

(** Typing changes neither the host's state, nor the toasts, nor the form
    type. *)
Lemma run_inputs (s s' : sys_state) (evs : list event) :
  forallb is_input evs = true -> run_events s evs = Some s' ->
  app s' = app s /\ toasts s' = toasts s /\ formType (form s') = formType (form s).
Proof.
  revert s. induction evs as [|[| now f v | | |] evs IH]; intros s Hin Hrun; try discriminate.
  - by injection Hrun as <-.
  - cbn [forallb is_input andb] in Hin. cbn [run_events] in Hrun.
    destruct (enabled s (EInput now f v)); [|done]. unfold sys_step in Hrun.
    destruct (handleChange now f v (form s)) as [st effs|] eqn:Hc; [|done].
    destruct (IH _ Hin Hrun) as (-> & -> & ->). simpl. split_and!; [done|done|].
    unfold handleChange in Hc. destruct (fields (form s)); [|discriminate]. by injection Hc as <- _.
Qed.

(** C24: A save whose edit context points at or past the end of the store
    (the edited row, or rows before it, were deleted) replaces nothing:
    the store is unchanged, the edited values are dropped with the
    context, and the page still shows "Changes saved successfully!". *)
Theorem save_dangling_edit (s : sys_state) (e : edit_ctx) (now : Z) (fs : list field_desc) :
  editData (app s) = Some e -> (List.length (submittedData (app s)) <= eindex e)%nat ->
  fields (form s) = Some fs -> forallb (blank (formData (form s))) fs = false ->
  collect_errors now (formData (form s)) fs = [] ->
  exists s', sys_step s (ESubmit now) = Some s' /\
    submittedData (app s') = submittedData (app s) /\ editData (app s') = None /\
    toasts s' = (toasts s ++ [(TSuccess, msg_saved)])%list.
Proof.
  intros He Hlen Hf Hb Hc. rewrite (submit_valid_step s now fs Hf Hb Hc), He.
  eexists. split; [reflexivity|]. cbn [app toasts]. split_and!; [|by unfold handleFormSubmit; rewrite He|done].
  rewrite (handleFormSubmit_store_edit _ e _ He). unfold spec_replaceAt.
  by destruct (Nat.ltb_spec (eindex e) (List.length (submittedData (app s)))); [lia|].
Qed.

(** C27: The table's Edit on a stored row shows "You are editing a form.",
    sets the edit context to the row, and loads the record's type, schema
    and data into the form, keeping the errors and the progress of the
    form it replaces: messages of the abandoned form stay beside valid
    values, and the bar shows the abandoned form's progress until the
    next keystroke. *)
Theorem edit_click_keeps_errors_progress (s : sys_state) (i : nat) (r : record) :
  submittedData (app s) !! i = Some r ->
  sys_step s (EEditClick i) =
    Some (mk_sys (mk_form (lookup_schema (rtype r)) (rdata r) (errors (form s)) (rtype r)
                          (progress (form s)))
                 (mk_app (submittedData (app s)) (Some (mk_edit i (rtype r) (rdata r))))
                 (toasts s ++ [(TInfo, msg_editing)])%list).
Proof. intros Hi. unfold sys_step. cbn [run_table_effects handleEditClick]. unfold handleEdit. by rewrite Hi. Qed.

(** C28: A value of white space only, in a field without a rule of its
    own, passes the required check ([!value] is false for a non-empty
    string) while the progress bar counts the field as blank
    ([value?.trim()] is empty): the form submits such a value as filled. *)
Theorem whitespace_passes_required (now : Z) (f : field_desc) (v : string) (data : js_obj string) :
  ~ In (fname f) rule_keys -> v <> "" -> js_trim v = "" -> data.[fname f] = Some v ->
  validateField now (fname f) (data.[fname f]) = None /\ blank data f = true.
Proof.
  intros Hk Hv Ht Hd. rewrite Hd, validateField_other by done. simpl.
  destruct (String.eqb_spec v "") as [->|_]; [done|]. split; [done|].
  unfold blank, opt_trim. rewrite Hd. simpl. by rewrite Ht.
Qed.

(** C29: Choosing another form type during an edit keeps the edit
    context: once the new form is filled in validly, the save replaces the
    edited row, in place, by a record of the newly chosen type, and shows
    "Changes saved successfully!". *)
Theorem type_change_on_edit (s s' : sys_state) (k : string) (evs : list event) (e : edit_ctx)
    (now : Z) (fs : list field_desc) :
  editData (app s) = Some e -> (eindex e < List.length (submittedData (app s)))%nat ->
  forallb is_input evs = true -> run_events s (ESelect k :: evs) = Some s' ->
  fields (form s') = Some fs -> forallb (blank (formData (form s'))) fs = false ->
  collect_errors now (formData (form s')) fs = [] ->
  exists s'', sys_step s' (ESubmit now) = Some s'' /\
    submittedData (app s'') = <[eindex e := mk_record k (formData (form s'))]> (submittedData (app s)) /\
    editData (app s'') = None /\ last (toasts s'') = Some (TSuccess, msg_saved).
Proof.
  intros He Hlt Hin Hrun Hf Hb Hc. cbn [run_events] in Hrun. destruct (enabled s (ESelect k)); [|done].
  cbn [sys_step] in Hrun.
  destruct (run_inputs _ _ evs Hin Hrun) as (Ha & Ht & Hk). cbn [form app toasts] in Ha, Ht, Hk.
  rewrite (submit_valid_step s' now fs Hf Hb Hc), Ha, Hk, He. eexists. split; [reflexivity|].
  cbn [app toasts]. split_and!; [| |by rewrite last_snoc].
  - rewrite (handleFormSubmit_store_edit _ e _ He). unfold spec_replaceAt.
    by destruct (Nat.ltb_spec (eindex e) (List.length (submittedData (app s)))); [|lia].
  - by unfold handleFormSubmit; rewrite He.
Qed.

End Interleavings.

(** ** Witnesses *)

#[local] Existing Instance strict_engine.

(** Ann and Bob stored, Bob's row opened for editing, then deleted. *)
Definition dangling_run : list event :=
  (create_ann ++ create_bob ++ [EEditClick 1; EDeleteClick 1 true])%list.

Lemma save_dangling_edit_witness :
  exists s', sys_step (after dangling_run) (ESubmit 0) = Some s' /\
    submittedData (app s') = submittedData (app (after dangling_run)) /\ editData (app s') = None /\
    toasts s' = (toasts (after dangling_run) ++ [(TSuccess, msg_saved)])%list.
Proof.
  apply (save_dangling_edit _ (mk_edit 1 "userInfo" (rdata (rec_user "Bob" "Ray" "40"))) 0
           (default [] (lookup_schema "userInfo")));
    vm_compute; first [reflexivity | lia].
Defined.

Lemma edit_click_keeps_errors_progress_witness :
  let s := after (create_ann ++ [ESelect "userInfo"; EInput 0 (field_of "userInfo" "age") "0"])%list in
  sys_step s (EEditClick 0) =
    Some (mk_sys (mk_form (lookup_schema "userInfo") (rdata (rec_user "Ann" "Lee" "30")) (errors (form s))
                          "userInfo" (progress (form s)))
                 (mk_app (submittedData (app s)) (Some (mk_edit 0 "userInfo" (rdata (rec_user "Ann" "Lee" "30")))))
                 (toasts s ++ [(TInfo, msg_editing)])%list).
Proof.
  intros s. apply (edit_click_keeps_errors_progress s 0 (rec_user "Ann" "Lee" "30")).
  vm_compute. reflexivity.
Defined.

Lemma whitespace_passes_required_witness :
  validateField 0 "firstName" ([("firstName", "  ")].["firstName"]) = None /\
  blank [("firstName", "  ")] (field_of "userInfo" "firstName") = true.
Proof.
  apply (whitespace_passes_required 0 (field_of "userInfo" "firstName") "  ");
    [vm_compute; intros [H|[H|[H|[H|[H|[]]]]]]; discriminate | discriminate | vm_compute; reflexivity ..].
Defined.

Lemma type_change_on_edit_witness :
  let s := after (create_ann ++ [EEditClick 0])%list in
  let s' := after (create_ann ++ [EEditClick 0; ESelect "address"] ++ type_address 0)%list in
  exists s'', sys_step s' (ESubmit 0) = Some s'' /\
    submittedData (app s'') = <[0%nat := mk_record "address" (formData (form s'))]> (submittedData (app s)) /\
    editData (app s'') = None /\ last (toasts s'') = Some (TSuccess, msg_saved).
Proof.
  intros s s'.
  apply (type_change_on_edit s s' "address" (type_address 0) (mk_edit 0 "userInfo" (rdata (rec_user "Ann" "Lee" "30")))
           0 (default [] (lookup_schema "address")));
    vm_compute; first [reflexivity | lia].
Defined.
