(* ===== verification/View.v ===== *)
(** * View: the markup the components render

    [DynamicForm.jsx] lines 116-187, [DataTable.jsx] lines 18-63 and
    [App.jsx] lines 32-52 return JSX.  The rendered tree is modelled as a
    virtual DOM [vnode]: text, or an element with its tag, the properties
    that carry data (the [value] of a control, the [type] of an input, the
    [width] of the progress bar) and the handler it is wired to
    ([control]); class names, inline styles, images and React keys are
    presentation only and left out.  JSX children follow React: [false],
    [null] and [undefined] render nothing, a string renders as text.

    Rendering can fail the way JavaScript fails: [fields.map] on
    [undefined], [field.options.map] on a dropdown without options, and
    [str.toUpperCase()] outside Latin-1 give [None] (a [TypeError] or a
    code unit this model does not hold).  The template literal
    [`${progress}%`] uses [Number::toString] ([JsNumberString]).

    [offers v ev] says that the rendered tree [v] has a control that fires
    [ev]: a menu button fires [ESelect], an input fires [EInput] with any
    value and a [<select>] with the values of its [<option>] children, the
    form fires [ESubmit], the table buttons fire [EEditClick] and
    [EDeleteClick].  [render_offers_enabled] shows that these are exactly
    the events [System.enabled] allows, so the step relation of [System]
    is the one the rendered page offers. *)

From S2P Require Import Prelude JsString JsReplace JsObject JsNumber JsDate JsNumberString Catalog Validator FormSession AppStore System Scenarios.
From Stdlib Require Import Ascii String.
Open Scope string_scope.
Open Scope js_scope.

(** The handler an element is wired to. *)
Inductive control : Type :=
  | CMenuItem (key : string)    (** [onClick={() => handleDropdownChange(key)}] *)
  | CChange (f : field_desc)    (** [onChange={(e) => handleChange(e, field)}] *)
  | CSubmit                     (** [<form onSubmit={handleSubmit}>] *)
  | CEdit (index : nat)         (** [onClick={() => handleEditClick(index)}] *)
  | CDelete (index : nat).      (** [onClick={() => handleDeleteClick(index)}] *)

(** An element has a list of children: a nested inductive type. *)
Inductive vnode : Type :=
  | VText (s : string)
  | VElem (tag : string) (props : js_obj string) (on : option control) (children : list vnode).

(** ** DataTable.jsx *)

(** [key.replace(/([A-Z])/g, " $1")]: the capture group is the whole
    match, so [" $1"] is a space and the match. *)
Definition space_caps (key : string) : string :=
  js_replace_all re_upper (fun m => " "%char :: m) key.

(** Line 40: [.replace(/^./, (str) => str.toUpperCase())] after
    [space_caps]. *)
Definition format_label (key : string) : option string :=
  string_of_list_ascii <$>
    replace_first re_first js_to_upper (list_ascii_of_string (space_caps key)).

(** Lines 32-34: three [&&] children, [false] renders nothing. *)
Definition heading (t : string) : list vnode :=
  ((if String.eqb t "userInfo" then [VText "User Information"] else []) ++
   (if String.eqb t "address" then [VText "Address Information"] else []) ++
   (if String.eqb t "payment" then [VText "Payment Information"] else []))%list.

(** Lines 38-43: one property of [row.data]. *)
Definition render_entry (kv : string * string) : option vnode :=
  lbl ← format_label kv.1;
  Some (VElem "div" [] None
          [VElem "span" [] None [VText lbl; VText ":"]; VText " "; VText kv.2]).

(** Lines 30-60: one row, its heading, its entries and its two buttons. *)
Definition render_row (index : nat) (row : record) : option vnode :=
  entries ← mapM render_entry (obj_entries (rdata row));
  Some (VElem "div" [] None
          [VElem "h2" [] None (heading (rtype row));
           VElem "div" [] None entries;
           VElem "div" [] None
             [VElem "button" [] (Some (CEdit index)) [VText "Edit"];
              VElem "button" [] (Some (CDelete index)) [VText "Delete"]]]).

(** Lines 18-63: [data.map((row, index) => ...)]. *)
Definition render_table (data : list record) : option vnode :=
  rows ← mapM (fun x => x) (map_idx render_row data 0);
  Some (VElem "div" [] None rows).

(** ** DynamicForm.jsx *)

(** [type={field.type}]. *)
Definition type_attr (k : field_kind) : string :=
  match k with
  | FText => "text" | FNumber => "number" | FPassword => "password"
  | FDate => "date" | FDropdown => "dropdown"
  end.

(** [formData[field.name] || ""]. *)
Definition value_or_empty (v : option string) : string :=
  match v with
  | Some s => if truthy_opt (Some s) then s else ""
  | None => ""
  end.

(** Line 161: [<option key={opt} value={opt}>{opt}</option>]. *)
Definition option_node (opt : string) : vnode :=
  VElem "option" [("value", opt)] None [VText opt].

(** Lines 153-172: a [<select>] for a dropdown, an [<input>] otherwise;
    [field.options.map] throws when [options] is [undefined]. *)
Definition render_control (st : form_state) (f : field_desc) : option vnode :=
  let v := value_or_empty ((formData st).[fname f]) in
  match ftype f with
  | FDropdown =>
      opts ← foptions f;
      Some (VElem "select" [("value", v)] (Some (CChange f))
              (VElem "option" [("value", "")] None [VText "Select"] :: map option_node opts))
  | k => Some (VElem "input" [("type", type_attr k); ("value", v)] (Some (CChange f)) [])
  end.

(** Line 174: [errors[field.name] && <p>{errors[field.name]}</p>]; an
    empty message renders as the empty text, [null] and [undefined] as
    nothing. *)
Definition render_error (st : form_state) (f : field_desc) : list vnode :=
  match (errors st).[fname f] with
  | Some (Some e) => if truthy_opt (Some e) then [VElem "p" [] None [VText e]] else [VText e]
  | _ => []
  end.

(** Lines 150-176: one field. *)
Definition render_field (st : form_state) (f : field_desc) : option vnode :=
  c ← render_control st f;
  Some (VElem "div" [] None (VElem "label" [] None [VText (flabel f)] :: c :: render_error st f)).

(** Lines 135-143: one menu item, labelled [key.replace(/([A-Z])/g, " $1")]. *)
Definition menu_item (key : string) : vnode :=
  VElem "button" [] (Some (CMenuItem key)) [VText (space_caps key)].

(** Lines 128-147: the menu; its button shows [formType || "Select Form Type"]. *)
Definition render_menu (st : form_state) : vnode :=
  VElem "Menu" [] None
    [VElem "MenuButton" [] None
       [VText (if String.eqb (formType st) "" then "Select Form Type" else formType st);
        VElem "ChevronDownIcon" [] None []];
     VElem "MenuItems" [] None (map menu_item menu_keys)].

(** Lines 178-180: [style={{ width: `${progress}%` }}]. *)
Definition render_progress (w : string) : vnode :=
  VElem "div" [] None [VElem "div" [("width", w ++ "%")] None []].

(** Lines 182-184. *)
Definition render_button (editData : option edit_ctx) : vnode :=
  VElem "button" [("type", "submit")] None
    [VText (match editData with Some _ => "Save Changes" | None => "Submit" end)].

(** Lines 116-187. *)
Definition render_form (st : form_state) (editData : option edit_ctx) : option vnode :=
  fs ← fields st;
  rows ← mapM (render_field st) fs;
  w ← number_to_string (progress st);
  Some (VElem "div" [] None
          [render_menu st;
           VElem "form" [] (Some CSubmit) (rows ++ [render_progress w; render_button editData])]).

(** ** App.jsx *)

(** Lines 32-52: the table only when [submittedData.length > 0]. *)
Definition render_app (s : sys_state) : option vnode :=
  frm ← render_form (form s) (editData (app s));
  tbl ← (if (0 <? List.length (submittedData (app s)))%nat
         then (fun t => [t]) <$> render_table (submittedData (app s))
         else Some []);
  Some (VElem "div" [] None
          [VElem "Header" [] None []; VElem "main" [] None (frm :: tbl);
           VElem "Footer" [] None []; VElem "ToastContainer" [] None []]).

(** ** The events a rendered tree offers *)

(** The [value]s of the [<option>] children of a [<select>]. *)
Definition option_values (children : list vnode) : list string :=
  flat_map (fun n => match n with
                     | VElem tag props _ _ =>
                         if String.eqb tag "option"
                         then match props.["value"] with Some v => [v] | None => [] end
                         else []
                     | VText _ => []
                     end) children.

Definition ctl_offers (tag : string) (c : control) (children : list vnode) (ev : event) : bool :=
  match c, ev with
  | CMenuItem k, ESelect k' => String.eqb k' k
  | CChange f, EInput _ f' v =>
      bool_decide (f' = f) &&
      (if String.eqb tag "select" then existsb (String.eqb v) (option_values children) else true)
  | CSubmit, ESubmit _ => true
  | CEdit i, EEditClick j => Nat.eqb j i
  | CDelete i, EDeleteClick j _ => Nat.eqb j i
  | _, _ => false
  end.

Fixpoint offers (n : vnode) (ev : event) : bool :=
  match n with
  | VText _ => false
  | VElem tag _ on children =>
      match on with Some c => ctl_offers tag c children ev | None => false end ||
      existsb (fun m => offers m ev) children
  end.

(** All the text the tree shows, in document order. *)
Fixpoint texts (n : vnode) : list string :=
  match n with
  | VText s => [s]
  | VElem _ _ _ children => flat_map texts children
  end.

(** The reference for the label of line 40: a space before every capital
    letter ([JsReplace.space_upper]), then the first code unit upper-cased
    unless it is a line terminator, which [.] does not match. *)
Definition capitalize (l : list ascii) : option (list ascii) :=
  match l with
  | [] => Some []
  | c :: t => if is_line_terminator c then Some l else (fun u => u ++ t)%list <$> js_to_upper [c]
  end.

(** ** Lemmas: the controls of each part *)

(** A list of nodes none of which offers [ev]. *)
Lemma existsb_offers_inert (l : list vnode) (ev : event) :
  Forall (fun n => offers n ev = false) l -> existsb (fun m => offers m ev) l = false.
Proof. induction 1 as [|n l Hn _ IH]; simpl; [done|]. by rewrite Hn, IH. Qed.

Lemma option_values_map (opts : list string) : option_values (map option_node opts) = opts.
Proof. induction opts as [|o opts IH]; simpl; [done|]. by rewrite IH. Qed.

Lemma offers_option_nodes (opts : list string) (ev : event) :
  existsb (fun m => offers m ev) (map option_node opts) = false.
Proof.
  apply existsb_offers_inert, Forall_forall. intros n Hn.
  apply list_elem_of_In, in_map_iff in Hn as (o & <- & _). done.
Qed.

Lemma offers_error (st : form_state) (f : field_desc) (ev : event) :
  existsb (fun m => offers m ev) (render_error st f) = false.
Proof. unfold render_error. by repeat case_match. Qed.

(** A rendered field offers exactly the inputs [input_allowed] admits. *)
Lemma offers_field (st : form_state) (f : field_desc) (n : vnode) (ev : event) :
  render_field st f = Some n ->
  offers n ev = match ev with
                | EInput _ f' v => bool_decide (f' = f) && input_allowed f v
                | _ => false
                end.
Proof.
  unfold render_field, render_control, input_allowed.
  destruct (ftype f) eqn:Hk; [..|destruct (foptions f) as [opts|]; [|done]];
    intros [= <-]; simpl; rewrite offers_error;
    [..|rewrite offers_option_nodes, option_values_map];
    destruct ev; simpl; rewrite ?orb_false_r; try done.
  all: case_bool_decide; subst; [by rewrite Hk|done].
Qed.

Lemma offers_fields (st : form_state) (fs : list field_desc) (rows : list vnode) (ev : event) :
  mapM (render_field st) fs = Some rows ->
  existsb (fun m => offers m ev) rows =
    match ev with
    | EInput _ f v => bool_decide (f ∈ fs) && input_allowed f v
    | _ => false
    end.
Proof.
  intros Hm%mapM_Some_1. induction Hm as [|g n fs rows Hg _ IH]; simpl.
  { by destruct ev. }
  rewrite (offers_field _ _ _ ev Hg), IH. destruct ev as [|now f v| | |]; try done.
  destruct (decide (f = g)) as [->|Hne].
  - rewrite (bool_decide_true (g = g)), (bool_decide_true (g ∈ g :: fs)) by set_solver.
    simpl. by destruct (input_allowed g v), (bool_decide _).
  - rewrite bool_decide_false by done. simpl. f_equal. apply bool_decide_ext. set_solver.
Qed.

Lemma offers_menu (st : form_state) (ev : event) :
  offers (render_menu st) ev =
    match ev with ESelect k => existsb (String.eqb k) menu_keys | _ => false end.
Proof.
  assert (Hitems : forall keys, existsb (fun m => offers m ev) (map menu_item keys) =
            match ev with ESelect k => existsb (String.eqb k) keys | _ => false end).
  { induction keys as [|key keys IH]; [by destruct ev|]. cbn [map existsb]. rewrite IH.
    destruct ev; simpl; rewrite ?orb_false_r; done. }
  unfold render_menu. cbn [offers existsb]. rewrite Hitems. apply orb_false_r.
Qed.

(** The form offers the menu items, its fields' inputs and the submit. *)
Lemma offers_form (st : form_state) (ed : option edit_ctx) (n : vnode) :
  render_form st ed = Some n ->
  exists fs, fields st = Some fs /\ forall ev,
    offers n ev =
      match ev with
      | ESelect k => existsb (String.eqb k) menu_keys
      | EInput _ f v => bool_decide (f ∈ fs) && input_allowed f v
      | ESubmit _ => true
      | _ => false
      end.
Proof.
  unfold render_form. destruct (fields st) as [fs|]; [|done]. simpl.
  destruct (mapM (render_field st) fs) as [rows|] eqn:Hm; [|done]. simpl.
  destruct (number_to_string (progress st)) as [w|]; [|done]. intros [= <-].
  exists fs. split; [done|]. intros ev. cbn [offers existsb].
  rewrite existsb_app, (offers_fields st fs rows ev Hm), offers_menu. simpl.
  destruct ev; simpl; rewrite ?orb_false_r; done.
Qed.

Lemma offers_entries (l : js_obj string) (es : list vnode) (ev : event) :
  mapM render_entry l = Some es -> existsb (fun m => offers m ev) es = false.
Proof.
  intros Hm%mapM_Some_1. apply existsb_offers_inert.
  induction Hm as [|kv n l es Hkv _ IH]; constructor; [|done].
  unfold render_entry in Hkv. destruct (format_label kv.1); [|done].
  by injection Hkv as <-.
Qed.

Lemma offers_heading (t : string) (ev : event) :
  existsb (fun m => offers m ev) (heading t) = false.
Proof. unfold heading. by repeat case_match. Qed.

Lemma offers_row (i : nat) (r : record) (n : vnode) (ev : event) :
  render_row i r = Some n ->
  offers n ev = match ev with EEditClick j | EDeleteClick j _ => Nat.eqb j i | _ => false end.
Proof.
  unfold render_row. destruct (mapM render_entry _) as [es|] eqn:Hm; [|done].
  intros [= <-]. simpl. rewrite offers_heading, (offers_entries _ _ ev Hm).
  destruct ev; simpl; rewrite ?orb_false_r; done.
Qed.

Lemma offers_rows (data : list record) (j : nat) (rows : list vnode) (ev : event) :
  mapM (fun x => x) (map_idx render_row data j) = Some rows ->
  existsb (fun m => offers m ev) rows =
    match ev with
    | EEditClick i | EDeleteClick i _ => ((j <=? i) && (i <? j + List.length data))%nat
    | _ => false
    end.
Proof.
  revert j rows. induction data as [|r data IH]; intros j rows Hm; simpl in Hm.
  { injection Hm as <-. destruct ev; simpl; try done; bool_lia. }
  destruct (render_row j r) as [n|] eqn:Hr; [|done]. simpl in Hm.
  destruct (mapM _ (map_idx render_row data (S j))) as [rows'|] eqn:Hm'; [|done].
  injection Hm as <-. cbn [existsb List.length]. rewrite (offers_row _ _ _ ev Hr), (IH _ _ Hm').
  destruct ev; cbv beta iota; try done; bool_lia.
Qed.

(** The table offers Edit and Delete for exactly the store's indices. *)
Lemma offers_table (data : list record) (t : vnode) (ev : event) :
  render_table data = Some t ->
  offers t ev =
    match ev with
    | EEditClick i | EDeleteClick i _ => (i <? List.length data)%nat
    | _ => false
    end.
Proof.
  unfold render_table. destruct (mapM _ _) as [rows|] eqn:Hm; [|done]. intros [= <-].
  simpl. rewrite (offers_rows _ _ _ ev Hm). destruct ev; simpl; try done; bool_lia.
Qed.

(** ** The rendered page and the step relation *)

(** C3: Whenever the page renders, the events its controls fire are
    exactly the events [System.enabled] allows: the menu items are the
    catalog keys, each rendered field accepts what its control can
    produce (a [<select>] its options and [""]), the form can always be
    submitted, and the table has Edit and Delete buttons for exactly the
    store's indices (none when the store is empty, since the table is not
    rendered). *)
Theorem render_offers_enabled (s : sys_state) (v : vnode) :
  render_app s = Some v -> forall ev, offers v ev = enabled s ev.
Proof.
  unfold render_app. destruct (render_form _ _) as [frm|] eqn:Hf; [|done]. simpl.
  destruct (offers_form _ _ _ Hf) as (fs & Hfs & Hoff).
  destruct (0 <? _)%nat eqn:Hlen.
  - destruct (render_table _) as [t|] eqn:Ht; [|done]. intros [= <-] ev.
    cbn [offers existsb]. rewrite Hoff, (offers_table _ _ ev Ht).
    destruct ev; simpl; rewrite ?Hfs, ?orb_false_r; done.
  - intros [= <-] ev. cbn [offers existsb]. rewrite Hoff.
    apply Nat.ltb_ge in Hlen.
    destruct ev; simpl; rewrite ?Hfs, ?orb_false_r; try done; bool_lia.
Qed.

(** ** Lemmas: the text of the table *)

Lemma texts_entries (l : js_obj string) (kv : string * string) (ns : list vnode) :
  mapM render_entry l = Some ns -> In kv l -> In kv.2 (flat_map texts ns).
Proof.
  intros Hm%mapM_Some_1. induction Hm as [|kv' n l ns Hkv _ IH]; [done|].
  intros [<-|Hin]; apply in_app_iff; [left|right; by apply IH].
  unfold render_entry in Hkv. destruct (format_label kv'.1); [|done].
  injection Hkv as <-. simpl. tauto.
Qed.

Lemma texts_row (i : nat) (r : record) (n : vnode) (kv : string * string) :
  render_row i r = Some n -> In kv (rdata r) -> In kv.2 (texts n).
Proof.
  unfold render_row. destruct (mapM render_entry _) as [es|] eqn:Hm; [|done].
  intros [= <-] Hin. simpl. apply in_app_iff. right. apply in_app_iff. left.
  eapply texts_entries; [exact Hm|].
  eapply Permutation_in; [symmetry; apply obj_entries_perm | exact Hin].
Qed.

Lemma rows_cover (data : list record) (j : nat) (rows : list vnode) (r : record) :
  mapM (fun x => x) (map_idx render_row data j) = Some rows -> In r data ->
  exists i n, render_row i r = Some n /\ In n rows.
Proof.
  revert j rows. induction data as [|r' data IH]; intros j rows Hm Hin; [done|].
  simpl in Hm. destruct (render_row j r') as [n|] eqn:Hr; [|done]. simpl in Hm.
  destruct (mapM _ (map_idx render_row data (S j))) as [rows'|] eqn:Hm'; [|done].
  injection Hm as <-. destruct Hin as [<-|Hin].
  - exists j, n. simpl. auto.
  - destruct (IH _ _ Hm' Hin) as (i & n' & ? & ?). exists i, n'. simpl. auto.
Qed.

(** ** Lemmas: when rendering succeeds *)

Lemma render_field_some (st : form_state) (f : field_desc) :
  (ftype f = FDropdown -> is_Some (foptions f)) -> is_Some (render_field st f).
Proof.
  unfold render_field, render_control. intros Hopt.
  destruct (ftype f); try (simpl; by eexists).
  destruct (Hopt eq_refl) as [opts ->]. simpl. by eexists.
Qed.

Lemma render_row_some (i : nat) (r : record) :
  (forall k, In k (obj_keys (rdata r)) -> is_Some (format_label k)) -> is_Some (render_row i r).
Proof.
  intros Hk. unfold render_row.
  destruct (mapM_is_Some_2 render_entry (obj_entries (rdata r))) as [es ->]; [|simpl; by eexists].
  apply Forall_forall. intros kv Hkv%list_elem_of_In.
  eapply Permutation_in in Hkv; [|apply obj_entries_perm].
  destruct (Hk kv.1) as [lbl Hl]; [by apply in_map|].
  unfold render_entry. simpl. rewrite Hl. by eexists.
Qed.

Lemma render_rows_some (data : list record) (j : nat) :
  (forall r i, In r data -> is_Some (render_row i r)) ->
  is_Some (mapM (fun x => x) (map_idx render_row data j)).
Proof.
  revert j. induction data as [|r data IH]; intros j Hr; [by eexists|]. simpl.
  destruct (Hr r j (or_introl eq_refl)) as [n ->]. simpl.
  destruct (IH (S j)) as [rows ->]; [intros; apply Hr; by right|]. by eexists.
Qed.

(** ** Theorems on the table *)

(** C33: The table's label of a property is the regex-free reference: the
    two replacements of line 40 ([/([A-Z])/g] then [/^./] with
    [toUpperCase]) compute [capitalize (space_upper key)]. *)
Theorem format_label_spec (key : string) :
  format_label key = string_of_list_ascii <$> capitalize (space_upper (list_ascii_of_string key)).
Proof.
  unfold format_label, space_caps, js_replace_all.
  rewrite list_ascii_of_string_of_list_ascii, replace_upper_spaces by lia.
  destruct (space_upper _) as [|c t]; [done|]. rewrite replace_first_head. done.
Qed.

(** C31: Every value of every stored record is shown as text in the table:
    [Object.entries] lists all of [row.data] and each entry prints its
    value, so the 16-digit card number and the CVV, which the form masks
    in a password input, are displayed in clear. *)
Theorem table_shows_values (data : list record) (t : vnode) (r : record) (k v : string) :
  render_table data = Some t -> In r data -> In (k, v) (rdata r) -> In v (texts t).
Proof.
  unfold render_table. destruct (mapM _ _) as [rows|] eqn:Hm; [|done]. intros [= <-] Hr Hkv.
  destruct (rows_cover _ _ _ _ Hm Hr) as (i & n & Hn & Hin).
  simpl. apply in_flat_map. exists n. split; [done|].
  exact (texts_row i r n (k, v) Hn Hkv).
Qed.

(** The table's label of each catalog field. *)
Lemma catalog_format_label (t : string) (fs : list field_desc) (f : field_desc) :
  lookup_schema t = Some fs -> In f fs ->
  format_label (fname f) = Some (if String.eqb (fname f) "cvv" then "Cvv" else flabel f).
Proof.
  intros Hl Hin.
  apply (catalog_all_lookup (forallb (fun f => bool_decide
           (format_label (fname f) = Some (if String.eqb (fname f) "cvv" then "Cvv" else flabel f)))))
    in Hl; [|vm_compute; reflexivity].
  rewrite forallb_forall in Hl. exact (bool_decide_eq_true_1 _ (Hl f Hin)).
Qed.

Section SubmitView.
Context `{DateEngine}.

(** C30: After a successful submit the form renders no field and an empty
    progress bar (["0%"]), but the menu button still shows the submitted
    form type: [handleSubmit] resets [fields], [formData] and [progress]
    but not [formType]. *)
Theorem submit_success_view (now : Z) (ed ed' : option edit_ctx) (st st' : form_state)
    (effs : list effect) (r : record) :
  handleSubmit now ed st = Ok st' effs -> In (CallOnSubmit r) effs ->
  rtype r = formType st /\
  render_form st' ed' =
    Some (VElem "div" [] None
            [render_menu st; VElem "form" [] (Some CSubmit) [render_progress "0"; render_button ed']]).
Proof.
  unfold handleSubmit. destruct (fields st); [|done].
  case_if; [intros [= <- <-] [?|[]]; discriminate|].
  case_if; [intros [= <- <-] [?|[]]; discriminate|].
  intros [= <- <-] [[= <-]|[?|[]]]; [|discriminate]. split; [done|]. reflexivity.
Qed.

End SubmitView.

(** ** Witnesses *)

Lemma render_offers_enabled_witness :
  offers (default (VText "") (render_app (after create_ann))) (EEditClick 0) =
    enabled (after create_ann) (EEditClick 0).
Proof. apply render_offers_enabled. vm_compute. reflexivity. Defined.

(** A stored payment record. *)
Definition rec_payment : record :=
  mk_record "payment"
    [("cardNumber", "4111111111111111"); ("expiryDate", "2031-01-01"); ("cvv", "123");
     ("cardholderName", "Ann Lee")].

Lemma table_shows_values_witness :
  In "123" (texts (default (VText "") (render_table [rec_payment]))).
Proof.
  apply (table_shows_values [rec_payment] _ rec_payment "cvv");
    [vm_compute; reflexivity | left; reflexivity | simpl; tauto].
Defined.

Lemma submit_success_view_witness :
  rtype (rec_user "Ann" "Lee" "30") = "userInfo" /\
  render_form (mk_form (Some []) [] [] "userInfo" (num_lit 0)) None =
    Some (VElem "div" [] None
            [render_menu (mk_form (Some (default [] (lookup_schema "userInfo")))
                                  (rdata (rec_user "Ann" "Lee" "30")) [] "userInfo" (num_lit 100));
             VElem "form" [] (Some CSubmit) [render_progress "0"; render_button None]]).
Proof.
  apply (@submit_success_view strict_engine 0 None None
           (mk_form (Some (default [] (lookup_schema "userInfo"))) (rdata (rec_user "Ann" "Lee" "30")) []
                    "userInfo" (num_lit 100))
           _ [CallOnSubmit (rec_user "Ann" "Lee" "30"); Toast TSuccess msg_submitted]);
    [vm_compute; reflexivity | left; reflexivity].
Defined.
