(* ===== verification/Typing.v ===== *)
(** * Typing: the values the reachable states hold

    A second invariant of the reachable states of [System], beside
    [System.sys_ok]: the values have the types the page gives them.
    - The progress is one of the finitely many values
      [(a / r) * 100] that a catalog schema with [r] required fields can
      produce ([catalog_progress_values]), so [`${progress}%`] always
      prints, and prints one of seven widths.
    - A value held for a field is one its control can produce
      ([data_typed]: a dropdown holds [""] or one of its options), in the
      form, in every stored record and in the edit context; with
      [record_ok] (no stored value is empty) a stored dropdown value is
      one of the options.
    The preservation lemmas follow [System]'s, one per event, over the
    generic lemmas [app_all_*] on a property of every stored record.  The
    file ends with the consequence for the view: a reachable state always
    renders. *)

From S2P Require Import Prelude JsString JsReplace JsObject JsNumber JsDate JsNumberString Catalog Validator FormSession AppStore System Scenarios View.
From Stdlib Require Import Ascii String.
Open Scope string_scope.
Open Scope js_scope.

(** [(a / r) * 100], the expression of line 86. *)
Definition progress_ratio (a r : nat) : jsnum :=
  js_mul (js_div (num_of_nat a) (num_of_nat r)) (num_lit 100).

(** The initial [0] and every [(a / r) * 100] with [a <= r], [r] the
    number of required fields of a catalog schema. *)
Definition catalog_progress_values : list jsnum :=
  num_lit 0 ::
  flat_map (fun kv => let r := List.length (List.filter frequired kv.2) in
                      map (fun a => progress_ratio a r) (seq 0 (S r)))
           apiResponses.

(** Every value held for a field of [fs] is one its control produces. *)
Definition data_typed (fs : list field_desc) (data : js_obj string) : Prop :=
  forall f v, In f fs -> data.[fname f] = Some v -> input_allowed f v = true.

Definition record_typed (r : record) : Prop :=
  forall fs, lookup_schema (rtype r) = Some fs -> data_typed fs (rdata r).

(** A property of every stored record and of the edit context. *)
Definition app_all (P : record -> Prop) (a : app_state) : Prop :=
  (forall r, In r (submittedData a) -> P r) /\
  (forall e, editData a = Some e -> P (mk_record (etype e) (edata e))).

Definition form_typed (st : form_state) : Prop :=
  In (progress st) catalog_progress_values /\
  (forall fs, fields st = Some fs -> data_typed fs (formData st)).

Definition sys_typed (s : sys_state) : Prop :=
  form_typed (form s) /\ app_all record_typed (app s).

(** ** Lemmas on the store *)

Section AppAll.
Variable P : record -> Prop.

Lemma app_all_handleFormSubmit (a : app_state) (r : record) :
  app_all P a -> P r -> app_all P (handleFormSubmit r a).
Proof.
  intros [Hs He] Hr. unfold handleFormSubmit.
  destruct (editData a) as [e|] eqn:Hed; split; simpl; try done.
  - intros x Hx. apply in_map_idx_replace in Hx as [->|Hx]; auto.
  - intros x Hx. apply in_app_or in Hx as [Hx|[<-|[]]]; auto.
Qed.

Lemma app_all_handleDelete (a : app_state) (i : nat) : app_all P a -> app_all P (handleDelete i a).
Proof. intros [Hs He]. split; simpl; [|done]. intros x Hx%in_filter_idx. auto. Qed.

Lemma app_all_handleEdit (a a' : app_state) (i : nat) :
  app_all P a -> handleEdit i a = Some a' -> app_all P a'.
Proof.
  intros [Hs He]. unfold handleEdit.
  destruct (submittedData a !! i) as [r|] eqn:Hr; [|done]. intros [= <-].
  split; simpl; [done|]. intros e [= <-]. simpl. destruct r as [rt rd].
  apply Hs. apply list_elem_of_In, list_elem_of_lookup. eauto.
Qed.

End AppAll.

(** ** Lemmas on the catalog *)

Lemma progress_of_catalog (t : string) (fs : list field_desc) (data : js_obj string) :
  lookup_schema t = Some fs -> In (progress_of fs data) catalog_progress_values.
Proof.
  intros Hl%lookup_schema_in. right. apply in_flat_map. exists (t, fs). split; [done|].
  apply in_map_iff. eexists. split; [reflexivity|]. apply in_seq.
  pose proof (filter_length_le (fun f => negb (blank data f)) (List.filter frequired fs)).
  simpl. lia.
Qed.

(** Two fields of a schema with the same name are the same field. *)
Lemma schema_fname_inj (t : string) (fs : list field_desc) (f g : field_desc) :
  lookup_schema t = Some fs -> In f fs -> In g fs -> fname f = fname g -> f = g.
Proof.
  intros Hl Hf Hg Hn.
  apply (catalog_all_lookup (fun fs => forallb (fun f => forallb (fun g =>
           negb (String.eqb (fname f) (fname g)) || bool_decide (f = g)) fs) fs)) in Hl;
    [|vm_compute; reflexivity].
  rewrite forallb_forall in Hl. specialize (Hl f Hf). rewrite forallb_forall in Hl.
  specialize (Hl g Hg). rewrite Hn, String.eqb_refl in Hl. by apply bool_decide_eq_true in Hl.
Qed.

(** Every dropdown of the catalog has its options. *)
Lemma catalog_dropdown_options (t : string) (fs : list field_desc) (f : field_desc) :
  lookup_schema t = Some fs -> In f fs -> ftype f = FDropdown -> is_Some (foptions f).
Proof.
  intros Hl Hf Hk.
  apply (catalog_all_lookup (forallb (fun f =>
           negb (bool_decide (ftype f = FDropdown)) || bool_decide (is_Some (foptions f))))) in Hl;
    [|vm_compute; reflexivity].
  rewrite forallb_forall in Hl. specialize (Hl f Hf). rewrite Hk in Hl.
  by apply bool_decide_eq_true in Hl.
Qed.

Lemma data_typed_empty (fs : list field_desc) : data_typed fs [].
Proof. by intros f v _ ?. Qed.

(** Typing [v] into a field [f] of a schema keeps the data typed. *)
Lemma data_typed_set (t : string) (fs : list field_desc) (data : js_obj string) (f : field_desc) (v : string) :
  lookup_schema t = Some fs -> In f fs -> input_allowed f v = true ->
  data_typed fs data -> data_typed fs (data.[fname f := v]).
Proof.
  intros Hl Hf Hv Hd g w Hg. rewrite obj_get_set.
  destruct (String.eqb_spec (fname g) (fname f)) as [Hn|]; [|by apply Hd].
  intros [= <-]. by rewrite (schema_fname_inj _ _ _ _ Hl Hg Hf Hn).
Qed.

(** ** Preservation, one event at a time *)

Section Preservation.
Context `{DateEngine}.

Lemma form_typed_reset (fs : option (list field_desc)) (e : js_obj (option string)) (t : string) :
  form_typed (mk_form fs [] e t (num_lit 0)).
Proof. split; [by left|]. intros ? _. apply data_typed_empty. Qed.

Lemma typed_select (s : sys_state) (k : string) :
  sys_typed s -> sys_typed (mk_sys (handleDropdownChange k (form s)) (app s) (toasts s)).
Proof. intros [_ Ha]. split; [apply form_typed_reset|done]. Qed.

Lemma typed_input (s : sys_state) (now : Z) (f : field_desc) (v : string) (st : form_state) effs :
  sys_ok s -> sys_typed s -> (exists fs, fields (form s) = Some fs /\ In f fs) ->
  input_allowed f v = true -> handleChange now f v (form s) = Ok st effs ->
  sys_typed (mk_sys st (app s) (toasts s)).
Proof.
  intros [Hf _] [[_ Hd] Ha] (fs & Hfs & Hin) Hv. unfold handleChange. rewrite Hfs.
  intros [= <- _]. split; [|done].
  assert (Hl : lookup_schema (formType (form s)) = Some fs).
  { apply form_ok_schema; [done..|]. by destruct fs. }
  split; simpl; [by apply (progress_of_catalog (formType (form s)))|].
  intros fs' [= <-]. apply (data_typed_set _ _ _ _ _ Hl Hin Hv (Hd fs Hfs)).
Qed.

Lemma typed_submit (s : sys_state) (now : Z) (st : form_state) effs a' log :
  sys_ok s -> sys_typed s -> handleSubmit now (editData (app s)) (form s) = Ok st effs ->
  run_form_effects effs (app s) (toasts s) = (a', log) -> sys_typed (mk_sys st a' log).
Proof.
  intros [Hf _] [[Hp Hd] Ha] Hs Hr. destruct (form_ok_fields _ Hf) as [fs Hfs].
  unfold handleSubmit in Hs. rewrite Hfs in Hs.
  destruct (forallb (blank (formData (form s))) fs) eqn:Hb.
  { injection Hs as <- <-. simpl in Hr. injection Hr as <- <-. by split; [split|]. }
  destruct (negb _) eqn:Hc.
  { injection Hs as <- <-. simpl in Hr. injection Hr as <- <-. split; [|done]. split; simpl; [done|]. rewrite <- Hfs. exact Hd. }
  injection Hs as <- <-. simpl in Hr. injection Hr as <- <-.
  split; [apply form_typed_reset|].
  apply app_all_handleFormSubmit; [done|]. intros fs' Hl. simpl in Hl.
  assert (Hne : fs <> []) by (intros ->; discriminate).
  rewrite (form_ok_schema _ _ Hf Hfs Hne) in Hl. injection Hl as <-. by apply Hd.
Qed.

Lemma typed_edit (s : sys_state) (i : nat) a' log :
  sys_typed s -> run_table_effects (handleEditClick i) (app s) (toasts s) = Some (a', log) ->
  sys_typed (mk_sys (load_edit (editData a') (form s)) a' log).
Proof.
  intros [[Hp Hd] Ha] Hr. simpl in Hr.
  destruct (handleEdit i (app s)) as [a1|] eqn:He; [|done]. injection Hr as <- <-.
  pose proof (app_all_handleEdit _ _ _ _ Ha He) as Ha1. split; [|done].
  destruct (editData a1) as [e|] eqn:Hed; [|by split]. simpl.
  split; [done|]. intros fs Hl. apply (proj2 Ha1 e Hed fs Hl).
Qed.

Lemma typed_delete (s : sys_state) (i : nat) (ok : bool) a' log :
  sys_typed s -> run_table_effects (handleDeleteClick i ok) (app s) (toasts s) = Some (a', log) ->
  sys_typed (mk_sys (form s) a' log).
Proof.
  intros [Hf Ha] Hr. destruct ok; simpl in Hr; injection Hr as <- <-; split; try done.
  by apply app_all_handleDelete.
Qed.

Lemma sys_step_typed (s s' : sys_state) (ev : event) :
  sys_ok s -> sys_typed s -> enabled s ev = true -> sys_step s ev = Some s' -> sys_typed s'.
Proof.
  intros Hok Hty Hen Hs. destruct ev as [k|now f v|now|i|i ok]; simpl in Hen; unfold sys_step in Hs.
  - injection Hs as <-. by apply typed_select.
  - destruct (fields (form s)) as [fs|] eqn:Hfs; [|done].
    apply andb_prop in Hen as [Hin Hv]. apply bool_decide_eq_true, list_elem_of_In in Hin.
    destruct (handleChange now f v (form s)) as [st effs|] eqn:Hc; [|done].
    injection Hs as <-. eapply typed_input; eauto.
  - destruct (handleSubmit now _ _) as [st effs|] eqn:Hc; [|done].
    destruct (run_form_effects effs (app s) (toasts s)) as [a' log] eqn:Hr.
    injection Hs as <-. eapply typed_submit; eauto.
  - destruct (run_table_effects (handleEditClick i) (app s) (toasts s)) as [[a' log]|] eqn:Hr;
      [|done].
    injection Hs as <-. eapply typed_edit; eauto.
  - destruct (run_table_effects (handleDeleteClick i ok) (app s) (toasts s)) as [[a' log]|] eqn:Hr;
      [|done].
    injection Hs as <-. eapply typed_delete; eauto.
Qed.

Lemma reachable_typed (s : sys_state) : reachable s -> sys_typed s.
Proof.
  unfold reachable. revert s. apply rtc_ind_r.
  { split; [apply form_typed_reset|]. split; simpl; done. }
  intros s1 s2 Hr1 Hstep IH. inversion Hstep as [? ? ev Hen Hst]. subst.
  apply (sys_step_typed s1 s2 ev); [by apply reachable_ok|done..].
Qed.

End Preservation.

(** ** What the reachable states show *)

(** The widths [`${progress}%`] prints for the values of the catalog. *)
Lemma catalog_progress_strings (p : jsnum) :
  In p catalog_progress_values ->
  exists w, number_to_string p = Some w /\
    In w ["0"; "25"; "33.33333333333333"; "50"; "66.66666666666666"; "75"; "100"].
Proof.
  assert (Hall : forallb (fun p => match number_to_string p with
                                   | Some w => bool_decide (In w ["0"; "25"; "33.33333333333333"; "50";
                                                                  "66.66666666666666"; "75"; "100"])
                                   | None => false
                                   end) catalog_progress_values = true)
    by (vm_compute; reflexivity).
  rewrite forallb_forall in Hall. intros Hp. specialize (Hall p Hp).
  destruct (number_to_string p) as [w|]; [|done]. exists w. split; [done|].
  by apply bool_decide_eq_true in Hall.
Qed.

Section Shown.
Context `{DateEngine}.

(** C12: Every dropdown value of a stored record is one of the field's
    options: the [<select>] produces only [""] and its options, and the
    submit refuses the empty value. *)
Theorem reachable_dropdown_values (s : sys_state) (r : record) (fs : list field_desc) (f : field_desc) :
  reachable s -> In r (submittedData (app s)) -> lookup_schema (rtype r) = Some fs ->
  In f fs -> ftype f = FDropdown ->
  exists v opts, (rdata r).[fname f] = Some v /\ foptions f = Some opts /\ In v opts.
Proof.
  intros Hr Hin Hl Hf Hk.
  destruct (reachable_typed s Hr) as [_ [Hty _]].
  destruct (reachable_ok s Hr) as [_ [Hok _]].
  destruct (Hok r Hin) as (fs' & Hl' & _ & now0 & Hval). rewrite Hl in Hl'. injection Hl' as <-.
  specialize (Hval f Hf).
  destruct ((rdata r).[fname f]) as [v|] eqn:Hv; [|done].
  destruct (String.eqb_spec v "") as [->|Hne]; [done|].
  pose proof (Hty r Hin fs Hl f v Hf Hv) as Hal. unfold input_allowed in Hal. rewrite Hk in Hal.
  destruct (foptions f) as [opts|]; [|by destruct (String.eqb_spec v "")].
  exists v, opts. split_and!; [done..|].
  apply orb_true_iff in Hal as [Hv0|Hex]; [by apply String.eqb_eq in Hv0|].
  apply existsb_exists in Hex as (o & Ho & Hvo). by apply String.eqb_eq in Hvo as ->.
Qed.

(** C21: In every reachable state the progress bar's width
    [`${progress}%`] is one of 0%, 25%, 33.33333333333333%, 50%,
    66.66666666666666%, 75% and 100%: [Number::toString] of the binary64
    quotients of the catalog (two thirds prints 17 significant digits). *)
Theorem reachable_progress_width (s : sys_state) :
  reachable s ->
  exists w, number_to_string (progress (form s)) = Some w /\
    In w ["0"; "25"; "33.33333333333333"; "50"; "66.66666666666666"; "75"; "100"].
Proof. intros Hr. apply catalog_progress_strings. apply (reachable_typed s Hr). Qed.

(** C13: Every reachable state renders: the page never throws while
    rendering ([fields] is defined, every dropdown has options, every
    stored key has a label and the progress prints). *)
Theorem reachable_renders (s : sys_state) :
  reachable s -> exists v, render_app s = Some v.
Proof.
  intros Hr. destruct (reachable_ok s Hr) as [Hf [Hs _]].
  destruct (reachable_typed s Hr) as [[Hp _] _].
  destruct (form_ok_fields _ Hf) as [fs Hfs].
  unfold render_app, render_form. rewrite Hfs. simpl.
  destruct (mapM_is_Some_2 (render_field (form s)) fs) as [rows ->].
  { apply Forall_forall. intros f Hin%list_elem_of_In. apply render_field_some. intros Hk.
    assert (Hne : fs <> []) by (by intros ->).
    exact (catalog_dropdown_options _ _ _ (form_ok_schema _ _ Hf Hfs Hne) Hin Hk). }
  simpl. destruct (catalog_progress_strings _ Hp) as (w & -> & _). simpl.
  destruct (0 <? _)%nat; [|simpl; by eexists].
  unfold render_table.
  destruct (render_rows_some (submittedData (app s)) 0) as [rws ->]; [|simpl; by eexists].
  intros r i Hin. apply render_row_some. intros k Hk.
  destruct (Hs r Hin) as (fs' & Hl & Hkeys & _).
  pose proof (Hkeys k Hk) as Hk'. apply in_map_iff in Hk' as (f & Hfk & Hf'). rewrite <- Hfk.
  rewrite (catalog_format_label _ _ _ Hl Hf'). by eexists.
Qed.

End Shown.

(** ** Witnesses *)

#[local] Existing Instance strict_engine.

(** The spec's create scenario for an address. *)
Definition create_address : list event :=
  (ESelect "address" :: type_address 0 ++ [ESubmit 0])%list.

Lemma create_address_reachable : reachable (after create_address).
Proof.
  apply (run_events_reachable sys_init _ create_address); [apply rtc_refl | vm_compute; reflexivity].
Qed.

Lemma reachable_dropdown_values_witness :
  exists v opts,
    (rdata rec_address).[fname (mk_field "state" FDropdown "State" true
                                          (Some ["California"; "Texas"; "New York"]))] = Some v /\
    foptions (mk_field "state" FDropdown "State" true (Some ["California"; "Texas"; "New York"])) = Some opts /\
    In v opts.
Proof.
  apply (reachable_dropdown_values (after create_address) rec_address
           (default [] (lookup_schema "address")));
    [apply create_address_reachable | vm_compute; tauto | reflexivity | simpl; tauto | reflexivity].
Defined.

Lemma reachable_progress_width_witness :
  exists w, number_to_string (progress (form (after create_ann))) = Some w /\
    In w ["0"; "25"; "33.33333333333333"; "50"; "66.66666666666666"; "75"; "100"].
Proof. apply reachable_progress_width. apply create_ann_reachable. Defined.

Lemma reachable_renders_witness : exists v, render_app (after create_ann) = Some v.
Proof. apply reachable_renders. apply create_ann_reachable. Defined.
