(* ===== verification/Liveness.v ===== *)
(** * Liveness: the user can always store a record

    Whatever state the application is in, whatever the store and
    whatever edit context is pending (one left dangling by a delete
    included), a finite run of events the page offers stores a new
    record and leaves no edit pending: choose [userInfo], type three
    valid values and submit, twice.  The first submit consumes a pending
    edit context (replacing a row, or nothing when the index is stale);
    the second appends. *)

From S2P Require Import Prelude JsString JsObject JsNumber JsDate Catalog Validator FormSession AppStore System Scenarios.
From Stdlib Require Import String.
Open Scope string_scope.

Section Liveness.
Context `{DateEngine}.

Lemma map_idx_length {A B} (f : nat -> A -> B) (l : list A) (j : nat) :
  List.length (map_idx f l j) = List.length l.
Proof. revert j. induction l as [|x l IH]; intros j; simpl; [done|]. by rewrite IH. Qed.

Lemma run_events_app (s : sys_state) (l1 l2 : list event) :
  run_events s (l1 ++ l2)%list = match run_events s l1 with Some s' => run_events s' l2 | None => None end.
Proof.
  revert s. induction l1 as [|ev l1 IH]; intros s; simpl; [done|].
  destruct (enabled s ev); [|done]. destruct (sys_step s ev); [apply IH|done].
Qed.

Lemma create_ann_run (s : sys_state) :
  run_events s create_ann =
    Some (mk_sys (mk_form (Some []) [] [("firstName", None); ("lastName", None); ("age", None)]
                          "userInfo" (num_lit 0))
                 (handleFormSubmit (rec_user "Ann" "Lee" "30") (app s))
                 (toasts s ++ [(TSuccess, match editData (app s) with
                                           | Some _ => msg_saved | None => msg_submitted end)])%list).
Proof. destruct s as [f [data ed] log]. destruct ed; vm_compute; reflexivity. Qed.

(** C14: From every state, choosing [userInfo], typing Ann, Lee and 30 and
    submitting, twice, is accepted by the page and ends with the new
    record last in the store, no edit pending, and the toast "Form
    submitted successfully!".  The store grows by one record when an edit
    was pending (the first submit replaced a row, or nothing) and by two
    otherwise. *)
Theorem liveness_store (s : sys_state) :
  exists s', run_events s (create_ann ++ create_ann)%list = Some s' /\
    editData (app s') = None /\
    last (submittedData (app s')) = Some (rec_user "Ann" "Lee" "30") /\
    List.length (submittedData (app s')) =
      (List.length (submittedData (app s)) + match editData (app s) with Some _ => 1 | None => 2 end)%nat /\
    last (toasts s') = Some (TSuccess, msg_submitted).
Proof.
  rewrite run_events_app, create_ann_run. cbv beta iota. rewrite create_ann_run. eexists. split; [reflexivity|].
  cbn [app toasts]. rewrite last_snoc.
  destruct s as [f [data [e|]] log]; unfold handleFormSubmit; cbn [editData submittedData app];
    rewrite last_snoc, length_app; simpl; rewrite ?length_app, ?map_idx_length; split_and!; done || (simpl; lia).
Qed.

End Liveness.
